(** * The UI explorer of [ui_explorer.py], embedded and verified

    The development follows the class [UIExplorer]:
    - Python values that come out of [json.loads] are the inductive [json];
    - a Python [str] is the list of its code points;
    - [self] is the record [explorer]; the device, the clock and the
      automation backend are a world [W] behind the class [Backend];
    - an exception that leaves a method is the result [Raise], and the
      outcome [Raised] of a call of [explore_screen];
    - the statements of [explore_screen] that matter to its contract leave
      an [event] in the history of the [machine].

    The first part describes the runs that nothing cuts short: every flow
    file and the script can be written, and the operator lets the program
    finish. [Module Full] describes every run: a text that cannot be encoded
    raises [UnicodeEncodeError] where it is written, and the operator's
    interrupt may arrive in every state the explorer goes through.
    [plain_run_is_uncut_run] relates the two descriptions.

    Not modelled: the text that is printed (printing is taken never to
    raise), the recursion limit of the interpreter, and failures of the local
    file system other than a text that cannot be encoded. *)

From Stdlib Require Import ZArith NArith String Ascii Decimal DecimalNat DecimalZ SpecFloat.
From stdpp Require Import base tactics option list gmap sets.

Local Open Scope Z_scope.

(** ** Python strings *)

Module PyStr.

(** A [str] is its sequence of Unicode code points. *)
Abbreviation str := (list N).

(** Literals of the source are written [py "..."] (all of them are ASCII). *)
Definition py (s : string) : str :=
  map N_of_ascii (list_ascii_of_string s).
#[global] Arguments py : simpl never.

(** [str.isspace] on one code point, as [str.strip()] uses it. *)
Definition is_space (c : N) : bool :=
  ((9 <=? c) && (c <=? 13) || (28 <=? c) && (c <=? 32)
   || (c =? 133) || (c =? 160) || (c =? 5760)
   || (8192 <=? c) && (c <=? 8202)
   || (c =? 8232) || (c =? 8233) || (c =? 8239) || (c =? 8287)
   || (c =? 12288))%N.

Fixpoint lstrip (s : str) : str :=
  match s with
  | c :: s' => if is_space c then lstrip s' else s
  | [] => []
  end.

Definition rstrip (s : str) : str := reverse (lstrip (reverse s)).

(** [s.strip()] *)
Definition strip (s : str) : str := rstrip (lstrip s).

(** [s.startswith(p)] *)
Fixpoint startswith (p s : str) : bool :=
  match p, s with
  | [], _ => true
  | a :: p', b :: s' => (a =? b)%N && startswith p' s'
  | _ :: _, [] => false
  end.

(** [s.split(sep)] for a one-character separator: never empty. *)
Fixpoint split (sep : N) (s : str) : list str :=
  match s with
  | [] => [[]]
  | c :: s' =>
      if (c =? sep)%N then [] :: split sep s'
      else match split sep s' with
           | l :: ls => (c :: l) :: ls
           | [] => [[c]]
           end
  end.

(** [sep.join(parts)] *)
Fixpoint join (sep : str) (parts : list str) : str :=
  match parts with
  | [] => []
  | [p] => p
  | p :: ps => p ++ sep ++ join sep ps
  end.

(** [s.replace(a, b)] for one-character [a]. *)
Definition replace (a : N) (b : str) (s : str) : str :=
  mbind (fun c => if (c =? a)%N then b else [c]) s.

Fixpoint uint_codes (d : Decimal.uint) : str :=
  match d with
  | Nil => []
  | D0 d => 48%N :: uint_codes d
  | D1 d => 49%N :: uint_codes d
  | D2 d => 50%N :: uint_codes d
  | D3 d => 51%N :: uint_codes d
  | D4 d => 52%N :: uint_codes d
  | D5 d => 53%N :: uint_codes d
  | D6 d => 54%N :: uint_codes d
  | D7 d => 55%N :: uint_codes d
  | D8 d => 56%N :: uint_codes d
  | D9 d => 57%N :: uint_codes d
  end.

(** [str(n)] for an [int]. *)
Definition str_of_Z (z : Z) : str :=
  match Z.to_int z with
  | Decimal.Pos d => uint_codes d
  | Decimal.Neg d => 45%N :: uint_codes d
  end.

Definition str_of_nat (n : nat) : str := str_of_Z (Z.of_nat n).

(** [f"{n:0{w}d}"] for [0 <= n]: decimal, zero-padded on the left to [w]. *)
Definition zero_pad (w : nat) (n : Z) : str :=
  let d := str_of_Z n in
  replicate (w - length d) 48%N ++ d.

End PyStr.
Export PyStr.

(** ** Values decoded by [json.loads] *)

#[local] Unset Elimination Schemes.
Inductive json : Type :=
| JNull                                   (* None *)
| JBool (b : bool)
| JInt (z : Z)
| JFloat (f : spec_float)
| JStr (s : str)
| JList (items : list json)
| JDict (items : list (str * json)).      (* items in insertion order, keys distinct *)
#[local] Set Elimination Schemes.

(** [bool(v)], the test behind [if v:] and [if not v:]. *)
Definition truthy (v : json) : bool :=
  match v with
  | JNull => false
  | JBool b => b
  | JInt z => negb (z =? 0)
  | JFloat (S754_zero _) => false
  | JFloat _ => true
  | JStr s => negb (bool_decide (s = []))
  | JList l => negb (bool_decide (l = []))
  | JDict d => negb (bool_decide (d = []))
  end.

(** [v == s] for a [str] literal [s]: only an equal [str] compares equal. *)
Definition eq_str (v : json) (s : str) : bool :=
  match v with
  | JStr s' => bool_decide (s' = s)
  | _ => false
  end.

(** Dictionary lookup written with continuations, so that it can be used on the
    items of the node a recursive traversal is standing on. *)
Definition dict_case {R : Type} (key : str) (absent : R) (present : json -> R)
  : list (str * json) -> R :=
  fix go items :=
    match items with
    | [] => absent
    | (k, v) :: items' => if bool_decide (k = key) then present v else go items'
    end.

(** [d.get(key, default)] *)
Definition dict_get (key : str) (default : json) (d : list (str * json)) : json :=
  dict_case key default (fun v => v) d.

(** ** Exceptions *)

Inductive exn : Type :=
| AttributeError     (* a method looked up on a value that has none of that name *)
| TypeError          (* iteration over a value that is not iterable *)
| UnicodeEncodeError (* a text written to a file that the encoding of the file cannot hold *)
| KeyboardInterrupt. (* the operator interrupts the program *)

Inductive result (A : Type) : Type :=
| Ok (a : A)
| Raise (e : exn).
Arguments Ok {A} a.
Arguments Raise {A} e.

(** Sequencing: the first exception raised is the one that propagates.
    [x ← r; k] is stdpp's notation for [mbind (fun x => k) r]. *)
#[export] Instance result_bind : MBind result := fun A B k r =>
  match r with
  | Ok a => k a
  | Raise e => Raise e
  end.

(** ** The interpreter's library, as far as the explorer calls it *)

Class Python : Type := {
  (** [str(v)] on a value that is not itself a [str] (its printed form) *)
  py_str : json -> str;
  (** [json.loads]; [None] when it raises [JSONDecodeError] *)
  json_loads : str -> option json
}.

(** [f"{v}"] *)
Definition fmt `{Python} (v : json) : str :=
  match v with
  | JStr s => s
  | _ => py_str v
  end.

(** [v.strip()]: only a [str] has the method. *)
Definition py_strip (v : json) : result str :=
  match v with
  | JStr s => Ok (strip s)
  | _ => Raise AttributeError
  end.

(** ** Elements *)

(** The dict [element_info] as [find_clickable_elements] builds it, before the
    key ['identifier'] is set. Every key is present, so the defaults of
    [element.get(key, '')] are never taken. *)
Record element_info : Type := {
  text : json;
  accessibilityText : json;
  resource_id : json;           (* 'resource-id' *)
  bounds : json;
  class : json;
  path : str
}.

(** The same dict once ['identifier'] is set. *)
Record element : Type := {
  info :> element_info;
  identifier : str
}.

Definition _create_identifier `{Python} (element : element_info) : result str :=
  text ← py_strip (text element);
  acc_text ← py_strip (accessibilityText element);
  resource_id ← py_strip (resource_id element);
  let bounds := bounds element in
  if negb (bool_decide (text = [])) then Ok (py "text:" ++ text)
  else if negb (bool_decide (acc_text = [])) then Ok (py "acc:" ++ acc_text)
  else if negb (bool_decide (resource_id = [])) then Ok (py "id:" ++ resource_id)
  else Ok (py "bounds:" ++ fmt bounds).

(** ** The snapshot parser *)

(** [for i, x in enumerate(xs): f(x, i)], collecting what each call appends. *)
Definition for_each {A B : Type} (f : A -> nat -> result (list B))
  : list A -> nat -> result (list B) :=
  fix go xs i :=
    match xs with
    | [] => Ok []
    | x :: xs' =>
        here ← f x i;
        rest ← go xs' (S i);
        Ok (here ++ rest)
    end.

(** The body of [traverse] on a dict node, up to its children: the elements
    appended for this node itself. *)
Definition visit_node `{Python} (visited_elements : gset str)
    (node : list (str * json)) (path : str) : result (list element) :=
  match dict_get (py "attributes") (JDict []) node with
  | JDict attrs =>
      let is_clickable :=
        eq_str (dict_get (py "clickable") JNull attrs) (py "true") in
      if is_clickable then
        let element_info :=
          {| text := dict_get (py "text") (JStr []) attrs;
             accessibilityText := dict_get (py "accessibilityText") (JStr []) attrs;
             resource_id := dict_get (py "resource-id") (JStr []) attrs;
             bounds := dict_get (py "bounds") (JStr []) attrs;
             class := dict_get (py "class") (JStr []) attrs;
             path := path |} in
        identifier ← _create_identifier element_info;
        if bool_decide (identifier ∉ visited_elements)
        then Ok [ {| info := element_info; identifier := identifier |} ]
        else Ok []
      else Ok []
  | _ => Raise AttributeError            (* attrs.get on a value that is no dict *)
  end.

(** [f"{path}/child[{i}]"] and [f"{path}/item[{i}]"] *)
Definition child_path (path : str) (i : nat) : str :=
  path ++ py "/child[" ++ str_of_nat i ++ py "]".
Definition item_path (path : str) (i : nat) : str :=
  path ++ py "/item[" ++ str_of_nat i ++ py "]".

(** The inner function [traverse(node, path)]; the result is what the call
    appends to [clickable]. *)
Fixpoint traverse `{Python} (visited_elements : gset str) (node : json) (path : str)
  {struct node} : result (list element) :=
  match node with
  | JDict items =>
      here ← visit_node visited_elements items path;
      rest ← dict_case (py "children") (Ok [])
                (fun children =>
                   match children with
                   | JList cs =>
                       for_each (fun child i =>
                                   traverse visited_elements child (child_path path i))
                                cs 0%nat
                   | JDict _ | JStr _ => Ok []   (* iterates over keys or characters: all str *)
                   | _ => Raise TypeError        (* enumerate() of a value that is not iterable *)
                   end)
                items;
      Ok (here ++ rest)
  | JList items =>
      for_each (fun item i => traverse visited_elements item (item_path path i))
               items 0%nat
  | _ => Ok []
  end.

Definition find_clickable_elements `{Python} (visited_elements : gset str)
    (hierarchy : json) : result (list element) :=
  if negb (truthy hierarchy) then Ok []
  else traverse visited_elements hierarchy [].

(** ** The world outside the interpreter *)

(** [subprocess.run(...)]: it raises (the program is missing, the timeout
    expires) or completes with a return code and its captured output. *)
Inductive process : Type :=
| RunRaised
| Completed (returncode : Z) (stdout : str).

(** A [datetime] as [datetime.now()] returns it. *)
Record datetime : Type := {
  year : Z; month : Z; day : Z;
  hour : Z; minute : Z; second : Z; microsecond : Z
}.

(** The device, the clock and the files, behind the calls the explorer makes.
    Each call may change the world [W]. *)
Class Backend (W : Type) : Type := {
  (** [subprocess.run([maestro, 'hierarchy'], timeout=30)] *)
  maestro_hierarchy : W -> process * W;
  (** [subprocess.run([maestro, 'test', file])] on a flow file just written
      with the given contents, and removed afterwards *)
  maestro_test : str -> str -> W -> process * W;
  (** [adb exec-out screencap -p] into the named file; [false] when it raises *)
  adb_screencap : str -> W -> bool * W;
  (** [int(time.time())] *)
  time_time : W -> Z * W;
  (** [datetime.now()] *)
  datetime_now : W -> datetime * W;
  (** [time.sleep(seconds)] *)
  time_sleep : Z -> W -> W;
  (** [open(name, 'w').write(contents)] *)
  write_file : str -> str -> W -> W
}.

Definition nl : str := [10%N].        (* the newline *)
Definition dq : str := [34%N].        (* the double quote *)

(** [strftime('%Y%m%d_%H%M%S')], for a year of four digits *)
Definition strftime_compact (t : datetime) : str :=
  zero_pad 4 (year t) ++ zero_pad 2 (month t) ++ zero_pad 2 (day t) ++ py "_"
  ++ zero_pad 2 (hour t) ++ zero_pad 2 (minute t) ++ zero_pad 2 (second t).

(** [strftime('%Y-%m-%d %H:%M:%S')], for a year of four digits *)
Definition strftime_human (t : datetime) : str :=
  zero_pad 4 (year t) ++ py "-" ++ zero_pad 2 (month t) ++ py "-" ++ zero_pad 2 (day t)
  ++ py " "
  ++ zero_pad 2 (hour t) ++ py ":" ++ zero_pad 2 (minute t) ++ py ":" ++ zero_pad 2 (second t).

(** [isoformat()]: the microseconds are printed only when they are not zero. *)
Definition isoformat (t : datetime) : str :=
  zero_pad 4 (year t) ++ py "-" ++ zero_pad 2 (month t) ++ py "-" ++ zero_pad 2 (day t)
  ++ py "T"
  ++ zero_pad 2 (hour t) ++ py ":" ++ zero_pad 2 (minute t) ++ py ":" ++ zero_pad 2 (second t)
  ++ (if microsecond t =? 0 then [] else py "." ++ zero_pad 6 (microsecond t)).

(** ** The explorer's state *)

Record screen_state : Type := {
  ss_depth : Z;                     (* 'depth' *)
  ss_timestamp : str;               (* 'timestamp' *)
  ss_screenshot : str;              (* 'screenshot' *)
  ss_elements : list element        (* 'elements' *)
}.

Record flow_record : Type := {
  from_screen : str;
  action : str;
  to_screen : str;
  fr_depth : Z;                     (* 'depth' *)
  fr_element : element              (* 'element' *)
}.

(** The fields of [self]; [maestro_path] is a constant of the installation. *)
Record explorer : Type := {
  app_id : str;
  platform : str;
  visited_elements : gset str;
  screen_states : list screen_state;
  discovered_flows : list flow_record;
  screenshots_dir : str
}.

(** What a run does, in order: the observable history of one explorer. *)
Inductive event : Type :=
| EvObserve (depth : Z)                     (* [self.get_hierarchy()] called at this depth *)
| EvMark (identifier : str)                 (* [self.visited_elements.add(identifier)] *)
| EvTap (identifier : str) (success : bool) (* [self.tap_element(element)] returned *)
| EvBack.                                   (* [self.go_back()] called *)

(** The explorer, the world it acts on, and the history so far. *)
Record machine (W : Type) : Type := {
  self : explorer;
  world : W;
  trace : list event
}.
Arguments self {W} m.
Arguments world {W} m.
Arguments trace {W} m.

Section Machine.
Context {W : Type}.

Definition set_world (w : W) (m : machine W) : machine W :=
  {| self := self m; world := w; trace := trace m |}.

Definition set_self (s : explorer) (m : machine W) : machine W :=
  {| self := s; world := world m; trace := trace m |}.

Definition log (ev : event) (m : machine W) : machine W :=
  {| self := self m; world := world m; trace := trace m ++ [ev] |}.

(** [self.visited_elements.add(identifier)] *)
Definition visited_add (identifier : str) (m : machine W) : machine W :=
  let s := self m in
  log (EvMark identifier)
    (set_self {| app_id := app_id s; platform := platform s;
                 visited_elements := {[identifier]} ∪ visited_elements s;
                 screen_states := screen_states s;
                 discovered_flows := discovered_flows s;
                 screenshots_dir := screenshots_dir s |} m).

(** [self.screen_states.append(screen_state)] *)
Definition screen_states_append (st : screen_state) (m : machine W) : machine W :=
  let s := self m in
  set_self {| app_id := app_id s; platform := platform s;
              visited_elements := visited_elements s;
              screen_states := screen_states s ++ [st];
              discovered_flows := discovered_flows s;
              screenshots_dir := screenshots_dir s |} m.

(** [self.discovered_flows.append(flow_record)] *)
Definition discovered_flows_append (fr : flow_record) (m : machine W) : machine W :=
  let s := self m in
  set_self {| app_id := app_id s; platform := platform s;
              visited_elements := visited_elements s;
              screen_states := screen_states s;
              discovered_flows := discovered_flows s ++ [fr];
              screenshots_dir := screenshots_dir s |} m.

End Machine.

(** ** The methods of [UIExplorer] *)

Section Methods.
Context `{Python} {W : Type} `{Backend W}.

(** [__init__]: a fresh explorer; the directory is created on the way. *)
Definition init (app_id platform : str) (w : W) : machine W :=
  let '(now, w) := datetime_now w in
  {| self := {| app_id := app_id; platform := platform;
                visited_elements := ∅;
                screen_states := [];
                discovered_flows := [];
                screenshots_dir := py "ui_exploration_" ++ strftime_compact now |};
     world := w;
     trace := [] |}.

(** The index of the first line that starts, once stripped, with a brace;
    0 when there is none. *)
Fixpoint json_start_from (i : nat) (lines : list str) : option nat :=
  match lines with
  | [] => None
  | line :: lines' =>
      if startswith (py "{") (strip line) then Some i
      else json_start_from (S i) lines'
  end.

(** The output from its first line that starts with a brace. *)
Definition json_text (output : str) : str :=
  let lines := split 10%N output in
  let json_start := default 0%nat (json_start_from 0 lines) in
  join nl (drop json_start lines).

(** The value [get_hierarchy] returns for what the backend did;
    [JNull] is Python's [None]. *)
Definition decode_hierarchy (p : process) : json :=
  match p with
  | RunRaised => JNull
  | Completed returncode output =>
      if returncode =? 0 then default JNull (json_loads (json_text output))
      else JNull
  end.

Definition get_hierarchy (m : machine W) : json * machine W :=
  let '(p, w) := maestro_hierarchy (world m) in
  (decode_hierarchy p, set_world w m).

Definition take_screenshot (name : str) (m : machine W) : option str * machine W :=
  let filename := screenshots_dir (self m) ++ py "/" ++ name ++ py ".png" in
  if bool_decide (platform (self m) = py "android") then
    let '(ok, w) := adb_screencap filename (world m) in
    (if ok then Some filename else None, set_world w m)
  else (Some filename, m).

(** The step [tap_element] builds for an element, when it builds one. *)
Definition tap_command (element : element_info) : option str :=
  let text := text element in
  let acc_text := accessibilityText element in
  let resource_id := resource_id element in
  if truthy text then Some (py "- tapOn: " ++ dq ++ fmt text ++ dq)
  else if truthy acc_text then Some (py "- tapOn: " ++ dq ++ fmt acc_text ++ dq)
  else if truthy resource_id then Some (py "- tapOn:" ++ nl ++ py "    id: " ++ fmt resource_id)
  else
    let bounds := bounds element in
    if truthy bounds
    then Some (py "- tapOn:" ++ nl ++ py "    point: " ++ dq ++ py "50%,50%" ++ dq)
    else None.

(** [tap_element] when the flow file can be written and the operator does
    not interrupt; [Full.tap_element] is the method without these two
    conditions. *)
Definition tap_element (element : element_info) (m : machine W) : bool * machine W :=
  match tap_command element with
  | Some yaml_cmd =>
      let '(t, w) := time_time (world m) in
      let temp_flow := py "/tmp/maestro_tap_" ++ str_of_Z t ++ py ".yaml" in
      let flow_content :=
        py "appId: " ++ app_id (self m) ++ nl ++ py "---" ++ nl ++ yaml_cmd ++ nl in
      let '(p, w) := maestro_test temp_flow flow_content w in
      match p with
      | Completed returncode _ => (returncode =? 0, set_world w m)
      | RunRaised => (false, set_world w m)
      end
  | None => (false, m)
  end.

(** [go_back], under the same two conditions; [Full.go_back] is without
    them. *)
Definition go_back (m : machine W) : machine W :=
  let '(t, w) := time_time (world m) in
  let temp_flow := py "/tmp/maestro_back_" ++ str_of_Z t ++ py ".yaml" in
  let flow_content :=
    py "appId: " ++ app_id (self m) ++ nl ++ py "---" ++ nl ++ py "- back" ++ nl in
  let '(p, w) := maestro_test temp_flow flow_content w in
  match p with
  | Completed _ _ => set_world (time_sleep 1 w) m
  | RunRaised => set_world w m
  end.

End Methods.

(** How a call ends. *)
Inductive outcome : Type :=
| Returned
| Raised (e : exn)       (* an exception leaves the call *)
| OutOfFuel.             (* the bound on nested calls is used up: never, see [explore_screen] *)

Section Explore.
Context `{Python} {W : Type} `{Backend W}.

(** The blocks of [explore_screen], in the order of the source. *)

(** [hierarchy = self.get_hierarchy()] *)
Definition observe (depth : Z) (m : machine W) : json * machine W :=
  get_hierarchy (log (EvObserve depth) m).

(** [screenshot_name = f"screen_depth{depth}_{int(time.time())}"] and
    [self.take_screenshot(screenshot_name)] *)
Definition shoot_screen (depth : Z) (m : machine W) : str * machine W :=
  let '(t, w) := time_time (world m) in
  let screenshot_name := py "screen_depth" ++ str_of_Z depth ++ py "_" ++ str_of_Z t in
  (screenshot_name, snd (take_screenshot screenshot_name (set_world w m))).

(** [screen_state = {...}] and [self.screen_states.append(screen_state)] *)
Definition store_screen (depth : Z) (screenshot_name : str) (clickable : list element)
    (m : machine W) : machine W :=
  let '(now, w) := datetime_now (world m) in
  let screen_state :=
    {| ss_depth := depth;
       ss_timestamp := isoformat now;
       ss_screenshot := screenshot_name;
       ss_elements := clickable |} in
  screen_states_append screen_state (set_world w m).

(** [self.visited_elements.add(identifier)] and
    [success = self.tap_element(element)] *)
Definition attempt (element : element) (m : machine W) : bool * machine W :=
  let identifier := identifier element in
  let m := visited_add identifier m in
  let '(success, m) := tap_element element m in
  (success, log (EvTap identifier success) m).

(** After a successful tap: the pause, the screenshot after the tap, and
    [self.discovered_flows.append(flow_record)] *)
Definition record_flow (depth : Z) (screenshot_name : str) (element : element)
    (m : machine W) : machine W :=
  let identifier := identifier element in
  let m := set_world (time_sleep 2 (world m)) m in
  let '(t, w) := time_time (world m) in
  let after_screenshot :=
    py "after_tap_" ++ take 30 (replace 58%N (py "_") identifier)
    ++ py "_" ++ str_of_Z t in
  let m := snd (take_screenshot after_screenshot (set_world w m)) in
  let flow_record :=
    {| from_screen := screenshot_name;
       action := identifier;
       to_screen := after_screenshot;
       fr_depth := depth;
       fr_element := element |} in
  discovered_flows_append flow_record m.

(** [self.go_back()] and [time.sleep(1)] *)
Definition back_up (m : machine W) : machine W :=
  let m := go_back (log EvBack m) in
  set_world (time_sleep 1 (world m)) m.

(** The loop [for i, element in enumerate(clickable)] of [explore_screen];
    [descend] is the recursive call [self.explore_screen(depth + 1, max_depth)]. *)
Definition element_loop (descend : machine W -> outcome * machine W)
    (depth max_depth : Z) (screenshot_name : str)
  : list element -> machine W -> outcome * machine W :=
  fix loop clickable m :=
    match clickable with
    | [] => (Returned, m)
    | element :: clickable' =>
        if bool_decide (identifier element ∈ visited_elements (self m))
        then loop clickable' m                                  (* continue *)
        else
          let '(success, m) := attempt element m in
          if success then
            let m := record_flow depth screenshot_name element m in
            let '(o, m) := if depth <? max_depth then descend m else (Returned, m) in
            match o with
            | Returned => loop clickable' (back_up m)
            | _ => (o, m)
            end
          else loop clickable' m
    end.

(** [explore_screen] with a bound [fuel] on the nesting of calls. *)
Fixpoint explore_fuel (fuel : nat) (depth max_depth : Z) (m : machine W)
  : outcome * machine W :=
  match fuel with
  | O => (OutOfFuel, m)
  | S fuel' =>
      if max_depth <? depth then (Returned, m)
      else
        let '(hierarchy, m) := observe depth m in
        if negb (truthy hierarchy) then (Returned, m)
        else
          let '(screenshot_name, m) := shoot_screen depth m in
          match find_clickable_elements (visited_elements (self m)) hierarchy with
          | Raise e => (Raised e, m)
          | Ok clickable =>
              let m := store_screen depth screenshot_name clickable m in
              element_loop (explore_fuel fuel' (depth + 1) max_depth)
                depth max_depth screenshot_name clickable m
          end
  end.

(** [explore_screen(depth, max_depth)]: a call nests at most
    [max_depth - depth] further calls, so this much fuel is never used up
    ([explore_screen_exec] below). *)
Definition explore_screen (depth max_depth : Z) (m : machine W) : outcome * machine W :=
  explore_fuel (S (Z.to_nat (max_depth - depth))) depth max_depth m.

End Explore.

(** ** The script generator *)

(** [flows_by_screen[screen].append(flow)] on a [defaultdict(list)]: the
    groups stay in the order their keys were first seen. *)
Fixpoint group_append (screen : str) (flow : flow_record)
    (groups : list (str * list flow_record)) : list (str * list flow_record) :=
  match groups with
  | [] => [(screen, [flow])]
  | (s, flows) :: groups' =>
      if bool_decide (s = screen) then (s, flows ++ [flow]) :: groups'
      else (s, flows) :: group_append screen flow groups'
  end.

Definition flows_by_screen (flows : list flow_record) : list (str * list flow_record) :=
  foldl (fun groups flow => group_append (from_screen flow) flow groups) [] flows.

Section Generate.
Context `{Python}.

(** The tap step written for one flow: none when the three labels are all
    falsy. *)
Definition script_tap (element : element_info) : str :=
  let text := text element in
  let acc_text := accessibilityText element in
  let resource_id := resource_id element in
  if truthy text then py "- tapOn: " ++ dq ++ fmt text ++ dq ++ nl
  else if truthy acc_text then py "- tapOn: " ++ dq ++ fmt acc_text ++ dq ++ nl
  else if truthy resource_id then py "- tapOn:" ++ nl ++ py "    id: " ++ fmt resource_id ++ nl
  else [].

(** What one flow adds to [test_content]. *)
Definition script_flow (flow : flow_record) : str :=
  py "# Test: " ++ action flow ++ nl
  ++ script_tap (fr_element flow)
  ++ py "- waitForAnimationToEnd" ++ nl
  ++ py "- takeScreenshot: " ++ dq ++ to_screen flow ++ dq ++ nl
  ++ py "- back" ++ nl
  ++ py "- waitForAnimationToEnd" ++ nl ++ nl.

(** What one group adds to [test_content]. *)
Definition script_screen (group : str * list flow_record) : str :=
  let '(screen, flows) := group in
  nl ++ py "# Screen: " ++ screen ++ nl
  ++ py "# Discovered " ++ str_of_nat (length flows) ++ py " interactions" ++ nl ++ nl
  ++ mbind script_flow flows.

(** The header of [test_content] up to the time stamp. *)
Definition script_head (s : explorer) : str :=
  py "appId: " ++ app_id s ++ nl
  ++ py "---" ++ nl
  ++ py "# Auto-generated UI Exploration Tests" ++ nl
  ++ py "# Generated: ".

(** The header after the time stamp: the two counts and the bootstrap steps. *)
Definition script_bootstrap (s : explorer) : str :=
  nl
  ++ py "# Total screens explored: " ++ str_of_nat (length (screen_states s)) ++ nl
  ++ py "# Total interactions discovered: "
  ++ str_of_nat (length (discovered_flows s)) ++ nl
  ++ nl
  ++ py "- waitForAnimationToEnd" ++ nl
  ++ py "- takeScreenshot: " ++ dq ++ py "exploration_start" ++ dq ++ nl
  ++ nl.

(** The sections of [test_content], one per origin screen. *)
Definition script_sections (s : explorer) : str :=
  mbind script_screen (flows_by_screen (discovered_flows s)).

(** [test_content] as [generate_test_files] writes it, generated at [now]. *)
Definition test_content (s : explorer) (now : datetime) : str :=
  script_head s ++ strftime_human now ++ script_bootstrap s ++ script_sections s.

Definition element_json (e : element) : json :=
  JDict [ (py "text", text e);
          (py "accessibilityText", accessibilityText e);
          (py "resource-id", resource_id e);
          (py "bounds", bounds e);
          (py "class", class e);
          (py "path", JStr (path e));
          (py "identifier", JStr (identifier e)) ].

Definition flow_json (f : flow_record) : json :=
  JDict [ (py "from_screen", JStr (from_screen f));
          (py "action", JStr (action f));
          (py "to_screen", JStr (to_screen f));
          (py "depth", JInt (fr_depth f));
          (py "element", element_json (fr_element f)) ].

(** The dict [report], generated at [now]; [list(self.visited_elements)]
    lists the set in the order the set itself fixes. *)
Definition report_counts (s : explorer) : list (str * json) :=
  [ (py "total_screens", JInt (Z.of_nat (length (screen_states s))));
    (py "total_interactions", JInt (Z.of_nat (length (discovered_flows s))));
    (py "visited_elements", JList (JStr <$> elements (visited_elements s)));
    (py "flows", JList (flow_json <$> discovered_flows s));
    (py "screenshots_dir", JStr (screenshots_dir s)) ].

Definition report (s : explorer) (now : datetime) : json :=
  JDict ((py "timestamp", JStr (isoformat now)) :: report_counts s).

End Generate.

(** The two files one call of [generate_test_files] writes. *)
Record generated : Type := {
  test_filename : str;
  script : str;                   (* the contents of the test file *)
  report_filename : str;
  report_dict : json              (* the dict handed to [json.dump] *)
}.

Section Run.
Context `{Python} {W : Type} `{Backend W}.
(** [json.dumps(report, indent=2)] *)
Context (json_dumps : json -> str).

(** [generate_test_files] when the script can be written and the operator
    does not interrupt; [Full.generate_test_files] is without these two
    conditions. *)
Definition generate_test_files (m : machine W) : generated * machine W :=
  let s := self m in
  let '(now1, w) := datetime_now (world m) in
  let test_content := test_content s now1 in
  let '(now2, w) := datetime_now w in
  let test_filename :=
    py "generated_exploration_test_" ++ strftime_compact now2 ++ py ".yaml" in
  let w := write_file test_filename test_content w in
  let '(now3, w) := datetime_now w in
  let report := report s now3 in
  let '(now4, w) := datetime_now w in
  let report_filename :=
    py "exploration_report_" ++ strftime_compact now4 ++ py ".json" in
  let w := write_file report_filename (json_dumps report) w in
  ({| test_filename := test_filename; script := test_content;
      report_filename := report_filename; report_dict := report |},
   set_world w m).

(** [run_exploration(max_depth)] when the operator does not interrupt: the
    files are generated when [explore_screen] returns; an exception that
    leaves it leaves the run. [Full.run_exploration] has the branch
    [except KeyboardInterrupt] as well. *)
Definition run_exploration (max_depth : Z) (m : machine W)
  : outcome * option generated * machine W :=
  let '(start_time, w) := time_time (world m) in
  let '(o, m) := explore_screen 0 max_depth (set_world w m) in
  match o with
  | Returned =>
      let '(_, w) := time_time (world m) in
      let '(g, m) := generate_test_files (set_world w m) in
      (Returned, Some g, m)
  | _ => (o, None, m)
  end.

End Run.

(** ** Runs as derivations

    [exec c m o m'] : the call [c], started in [m], ends as [o] in [m'].
    One rule per path through [explore_screen] and through one turn of its
    loop; [explore_screen_exec] below shows that every call follows them. *)

Inductive call : Type :=
| Explore (depth max_depth : Z)
| Loop (depth max_depth : Z) (screenshot_name : str) (clickable : list element).

Section Exec.
Context `{Python} {W : Type} `{Backend W}.

Inductive exec : call -> machine W -> outcome -> machine W -> Prop :=
| exec_too_deep depth max_depth m :
    max_depth < depth ->
    exec (Explore depth max_depth) m Returned m
| exec_no_hierarchy depth max_depth m hierarchy m1 :
    depth <= max_depth ->
    observe depth m = (hierarchy, m1) ->
    truthy hierarchy = false ->
    exec (Explore depth max_depth) m Returned m1
| exec_parse_raises depth max_depth m hierarchy m1 screenshot_name m2 e :
    depth <= max_depth ->
    observe depth m = (hierarchy, m1) ->
    truthy hierarchy = true ->
    shoot_screen depth m1 = (screenshot_name, m2) ->
    find_clickable_elements (visited_elements (self m2)) hierarchy = Raise e ->
    exec (Explore depth max_depth) m (Raised e) m2
| exec_screen depth max_depth m hierarchy m1 screenshot_name m2 clickable o m' :
    depth <= max_depth ->
    observe depth m = (hierarchy, m1) ->
    truthy hierarchy = true ->
    shoot_screen depth m1 = (screenshot_name, m2) ->
    find_clickable_elements (visited_elements (self m2)) hierarchy = Ok clickable ->
    exec (Loop depth max_depth screenshot_name clickable)
         (store_screen depth screenshot_name clickable m2) o m' ->
    exec (Explore depth max_depth) m o m'
| exec_done depth max_depth name m :
    exec (Loop depth max_depth name []) m Returned m
| exec_seen depth max_depth name element clickable m o m' :
    identifier element ∈ visited_elements (self m) ->
    exec (Loop depth max_depth name clickable) m o m' ->
    exec (Loop depth max_depth name (element :: clickable)) m o m'
| exec_tap_fails depth max_depth name element clickable m m1 o m' :
    identifier element ∉ visited_elements (self m) ->
    attempt element m = (false, m1) ->
    exec (Loop depth max_depth name clickable) m1 o m' ->
    exec (Loop depth max_depth name (element :: clickable)) m o m'
| exec_tap_leaf depth max_depth name element clickable m m1 o m' :
    identifier element ∉ visited_elements (self m) ->
    attempt element m = (true, m1) ->
    max_depth <= depth ->
    exec (Loop depth max_depth name clickable)
         (back_up (record_flow depth name element m1)) o m' ->
    exec (Loop depth max_depth name (element :: clickable)) m o m'
| exec_tap_descends depth max_depth name element clickable m m1 m2 o m' :
    identifier element ∉ visited_elements (self m) ->
    attempt element m = (true, m1) ->
    depth < max_depth ->
    exec (Explore (depth + 1) max_depth) (record_flow depth name element m1) Returned m2 ->
    exec (Loop depth max_depth name clickable) (back_up m2) o m' ->
    exec (Loop depth max_depth name (element :: clickable)) m o m'
| exec_tap_aborts depth max_depth name element clickable m m1 e m' :
    identifier element ∉ visited_elements (self m) ->
    attempt element m = (true, m1) ->
    depth < max_depth ->
    exec (Explore (depth + 1) max_depth) (record_flow depth name element m1) (Raised e) m' ->
    exec (Loop depth max_depth name (element :: clickable)) m (Raised e) m'.

End Exec.

(** ** A simulated device, to run the explorer on concrete inputs *)

Module Sim.

(** Decoding by table: the texts of the table decode to their values, every
    other text is refused. *)
Fixpoint decode (table : list (str * json)) (text : str) : option json :=
  match table with
  | [] => None
  | (t, v) :: table' => if bool_decide (t = text) then Some v else decode table' text
  end.

(** An interpreter whose [json.loads] decodes the texts of a table. *)
Definition python (table : list (str * json)) : Python :=
  {| py_str := fun _ => py "<value>"; json_loads := decode table |}.

(** [needle in hay] *)
Fixpoint contains (needle hay : str) : bool :=
  startswith needle hay ||
  match hay with
  | [] => false
  | _ :: hay' => contains needle hay'
  end.

Record world : Type := {
  clock : Z;                      (* seconds since the simulation began *)
  outputs : list process;         (* what the next calls of [maestro hierarchy] do *)
  broken : list str;              (* a flow that mentions one of these fails *)
  files : list (str * str)        (* the files written so far *)
}.

(** The time on the first of January 2024, [c] seconds after midnight. *)
Definition at_clock (c : Z) : datetime :=
  {| year := 2024; month := 1; day := 1;
     hour := (c / 3600) mod 24; minute := (c / 60) mod 60; second := c mod 60;
     microsecond := 0 |}.

#[export] Instance backend : Backend world := {|
  maestro_hierarchy w :=
    (default RunRaised (head (outputs w)),
     {| clock := clock w; outputs := tail (outputs w);
        broken := broken w; files := files w |});
  maestro_test file contents w :=
    (if existsb (fun needle => contains needle contents) (broken w)
     then Completed 1 [] else Completed 0 [], w);
  adb_screencap file w := (true, w);
  time_time w := (clock w, w);
  datetime_now w := (at_clock (clock w), w);
  time_sleep seconds w :=
    {| clock := clock w + seconds; outputs := outputs w;
       broken := broken w; files := files w |};
  write_file name contents w :=
    {| clock := clock w; outputs := outputs w;
       broken := broken w; files := files w ++ [(name, contents)] |}
|}.

(** A clickable node with the given labels and bounds. *)
Definition button (text acc rid bounds : string) : json :=
  JDict [ (py "attributes",
           JDict [ (py "clickable", JStr (py "true"));
                   (py "text", JStr (py text));
                   (py "accessibilityText", JStr (py acc));
                   (py "resource-id", JStr (py rid));
                   (py "bounds", JStr (py bounds)) ]);
          (py "children", JList []) ].

(** A screen: a node that is not clickable, over the given children. *)
Definition screen (children : list json) : json :=
  JDict [ (py "attributes", JDict [ (py "clickable", JStr (py "false")) ]);
          (py "children", JList children) ].

(** The element the parser builds for [button text acc rid bounds] found at
    [path]. *)
Definition button_info (text acc rid bounds path : string) : element_info :=
  {| text := JStr (py text); accessibilityText := JStr (py acc);
     resource_id := JStr (py rid); bounds := JStr (py bounds);
     class := JStr []; path := py path |}.

(** The element the parser returns for that button. *)
Definition button_element (text acc rid bounds path id : string) : element :=
  {| info := button_info text acc rid bounds path; identifier := py id |}.

(** What the parser returns for [three_buttons] below, nothing visited. *)
Definition parsed_three_buttons : list element :=
  [ button_element "Pets" "" "" "[0,0][100,50]" "/child[0]" "text:Pets";
    button_element "Shop" "" "" "[0,50][100,100]" "/child[1]" "text:Shop";
    button_element "Settings" "" "" "[0,100][100,150]" "/child[2]" "text:Settings" ].

(** A fresh explorer on a device that will show the given outputs. *)
Definition start (outputs : list process) (broken : list str) : machine world :=
  @init world backend (py "com.whisker.android") (py "android")
    {| clock := 0; outputs := outputs; broken := broken; files := [] |}.

(** A stand-in for [json.dumps]. *)
Definition dumps (report : json) : str := py "<report>".

(** One screen with three buttons; flows that mention the second fail. *)
Definition three_buttons : json :=
  screen [ button "Pets" "" "" "[0,0][100,50]";
           button "Shop" "" "" "[0,50][100,100]";
           button "Settings" "" "" "[0,100][100,150]" ].

(** A screen with one button, and the same button again one level down. *)
Definition one_button : json := screen [ button "Home" "" "" "[0,0][100,50]" ].

(** A screen whose only clickable node has bounds and nothing else. *)
Definition icon_only : json := screen [ button "" "" "" "[0,0][48,48]" ].

(** A screen whose only clickable node has nothing at all. *)
Definition blank_only : json := screen [ button "" "" "" "" ].

(** The interpreter that decodes the names of these screens. *)
Definition decoder : Python :=
  python [ (py "{three_buttons}", three_buttons);
           (py "{one_button}", one_button);
           (py "{icon_only}", icon_only);
           (py "{blank_only}", blank_only) ].

(** What [maestro hierarchy] prints for the screen of that name. *)
Definition shows (name : string) : process :=
  Completed 0 (py "Running on emulator-5554" ++ nl ++ py name).

End Sim.

(** ** Reading a history *)

(** The identities added to the Frontier, in order. *)
Definition marks (t : list event) : list str :=
  omap (fun ev => match ev with EvMark id => Some id | _ => None end) t.

(** The identities whose activation was attempted, in order. *)
Definition tapped (t : list event) : list str :=
  omap (fun ev => match ev with EvTap id _ => Some id | _ => None end) t.

(** The attempts with their reports, in order. *)
Definition taps (t : list event) : list (str * bool) :=
  omap (fun ev => match ev with EvTap id ok => Some (id, ok) | _ => None end) t.

(** The identities whose activation reported success, in order. *)
Definition succeeded (t : list event) : list str :=
  omap (fun ev => match ev with EvTap id true => Some id | _ => None end) t.

(** The back-navigation attempts. *)
Definition backs (t : list event) : list unit :=
  omap (fun ev => match ev with EvBack => Some () | _ => None end) t.


(** Every attempt comes directly after the insertion of its own identity
    into the Frontier. *)
Definition marked_first (t : list event) : Prop :=
  forall i id ok, t !! i = Some (EvTap id ok) ->
                  exists j, i = S j /\ t !! j = Some (EvMark id).

(** [v[key]] on a decoded object; [JNull] stands for a missing key. *)
Definition json_get (key : string) (v : json) : json :=
  match v with
  | JDict items => dict_get (py key) JNull items
  | _ => JNull
  end.

(** The state of an explorer is explained by its history: the flows are the
    successful attempts, every attempt follows its own insertion into the
    Frontier, nothing is inserted twice, and the Frontier holds what was
    inserted. A fresh explorer is in such a state. *)
Definition consistent {W : Type} (m : machine W) : Prop :=
  action <$> discovered_flows (self m) = succeeded (trace m)
  /\ tapped (trace m) = marks (trace m)
  /\ NoDup (marks (trace m))
  /\ visited_elements (self m) = list_to_set (marks (trace m)).

(** The history the element loop of a call at depth [d] leaves behind, under
    the maximum depth [k]. The flag tells whether the loop ran to its end
    ([true]) or an exception raised one level down cut it short ([false]). *)
Inductive loop_trace (k : Z) : bool -> Z -> list event -> Prop :=
| loop_trace_end d :
    loop_trace k true d []
| loop_trace_failed c d id t :
    (* a failed activation: on to the next sibling *)
    loop_trace k c d t ->
    loop_trace k c d (EvMark id :: EvTap id false :: t)
| loop_trace_leaf c d id t :
    (* a successful activation at the maximum depth: back at once *)
    k <= d ->
    loop_trace k c d t ->
    loop_trace k c d (EvMark id :: EvTap id true :: EvBack :: t)
| loop_trace_descent c d id sub t :
    (* a successful activation, the whole call one level down, then back;
       a call that finds no hierarchy leaves the empty loop history *)
    d < k ->
    loop_trace k true (d + 1) sub ->
    loop_trace k c d t ->
    loop_trace k c d
      (EvMark id :: EvTap id true :: EvObserve (d + 1) :: sub ++ EvBack :: t)
| loop_trace_parse_raised d id :
    (* a successful activation, and the parser raises one level down *)
    d < k ->
    loop_trace k false d [EvMark id; EvTap id true; EvObserve (d + 1)]
| loop_trace_aborted d id sub :
    (* a successful activation, and the loop one level down is cut short *)
    d < k ->
    loop_trace k false (d + 1) sub ->
    loop_trace k false d (EvMark id :: EvTap id true :: EvObserve (d + 1) :: sub).

(** The history of one call [explore_screen(d, k)]; [complete] tells whether
    the call returned. *)
Definition call_trace (k : Z) (complete : bool) (d : Z) (t : list event) : Prop :=
  if decide (k < d) then complete = true /\ t = []
  else exists t', t = EvObserve d :: t'
                  /\ (loop_trace k complete d t' \/ (complete = false /\ t' = [])).


(** ** The snapshot tree, in the words of the parser's contract *)

(** [f(x, i)] for each [x] at its index [i], the results one after the other. *)
Definition concat_each {A B : Type} (f : A -> nat -> list B) : list A -> nat -> list B :=
  fix go xs i :=
    match xs with
    | [] => []
    | x :: xs' => f x i ++ go xs' (S i)
    end.

(** The nodes of a snapshot with their paths, in pre-order: a node, then the
    nodes under each of its children in turn; a list stands for the nodes
    under its items. *)
Fixpoint nodes (snapshot : json) (path : str) {struct snapshot}
  : list (list (str * json) * str) :=
  match snapshot with
  | JDict items =>
      (items, path)
      :: dict_case (py "children") []
           (fun children =>
              match children with
              | JList cs => concat_each (fun child i => nodes child (child_path path i)) cs 0%nat
              | _ => []
              end)
           items
  | JList items => concat_each (fun item i => nodes item (item_path path i)) items 0%nat
  | _ => []
  end.

(** The [attributes] map of a node (empty when the node carries none). *)
Definition attributes_of (node : list (str * json)) : list (str * json) :=
  match dict_get (py "attributes") (JDict []) node with
  | JDict attrs => attrs
  | _ => []
  end.

(** A node is interactable when its [clickable] attribute is textually ["true"]. *)
Definition interactable (node : list (str * json)) : bool :=
  eq_str (dict_get (py "clickable") JNull (attributes_of node)) (py "true").

(** The element built from a node found at a path. *)
Definition element_at (np : list (str * json) * str) : element_info :=
  let attrs := attributes_of np.1 in
  {| text := dict_get (py "text") (JStr []) attrs;
     accessibilityText := dict_get (py "accessibilityText") (JStr []) attrs;
     resource_id := dict_get (py "resource-id") (JStr []) attrs;
     bounds := dict_get (py "bounds") (JStr []) attrs;
     class := dict_get (py "class") (JStr []) attrs;
     path := np.2 |}.

(** All interactable elements of a snapshot, in pre-order. *)
Definition interactable_elements (snapshot : json) : list element_info :=
  element_at <$> filter (fun np => interactable np.1 = true) (nodes snapshot []).

(** The element has an identity, and the Frontier does not hold it. *)
Definition unvisited `{Python} (visited : gset str) (e : element_info) : bool :=
  match _create_identifier e with
  | Ok id => bool_decide (id ∉ visited)
  | Raise _ => false
  end.

(** The elements of the given nodes that are interactable and not yet in the
    Frontier, in order. *)
Definition unvisited_elements `{Python} (visited : gset str)
    (ns : list (list (str * json) * str)) : list element_info :=
  filter (fun e => unvisited visited e = true)
         (element_at <$> filter (fun np => interactable np.1 = true) ns).

(** The parsed elements [els] are those of the nodes [ns], each under its own
    identity. *)
Definition parsed `{Python} (visited : gset str) (els : list element)
    (ns : list (list (str * json) * str)) : Prop :=
  info <$> els = unvisited_elements visited ns
  /\ Forall (fun e : element => _create_identifier e = Ok (identifier e)) els
  /\ Forall (fun e : element_info => exists id, _create_identifier e = Ok id)
            (element_at <$> filter (fun np => interactable np.1 = true) ns).

(** [P] holds of every value of the list. *)
Definition all_of (P : json -> Prop) : list json -> Prop :=
  fix go xs :=
    match xs with
    | [] => True
    | x :: xs' => P x /\ go xs'
    end.

Definition is_str (v : json) : Prop :=
  match v with JStr _ => True | _ => False end.

(** The attributes of a node are an object, and the labels of a clickable node
    are strings where they are given. *)
Definition node_typed (node : list (str * json)) : Prop :=
  match dict_get (py "attributes") (JDict []) node with
  | JDict attrs =>
      eq_str (dict_get (py "clickable") JNull attrs) (py "true") = true ->
      is_str (dict_get (py "text") (JStr []) attrs)
      /\ is_str (dict_get (py "accessibilityText") (JStr []) attrs)
      /\ is_str (dict_get (py "resource-id") (JStr []) attrs)
  | _ => False
  end.

(** A snapshot as the backend documents it: every node is typed as above and
    its children, where it has any, are a list of such nodes (or some other
    container of strings). *)
Fixpoint well_shaped (snapshot : json) {struct snapshot} : Prop :=
  match snapshot with
  | JDict items =>
      node_typed items
      /\ dict_case (py "children") True
           (fun children =>
              match children with
              | JList cs => all_of well_shaped cs
              | JDict _ | JStr _ => True
              | _ => False
              end)
           items
  | JList items => all_of well_shaped items
  | _ => True
  end.

(** The element has nothing in it: no label, no identifier, no bounds. *)
Definition all_empty (e : element_info) : Prop :=
  text e = JStr [] /\ accessibilityText e = JStr []
  /\ resource_id e = JStr [] /\ bounds e = JStr [].



(** The calls a run of maximum depth [k] started at depth [lo] can make. *)
Definition call_within (lo k : Z) (c : call) : Prop :=
  match c with
  | Explore d k' => lo <= d /\ k' = k
  | Loop d k' _ _ => lo <= d <= k /\ k' = k
  end.

(** Every flow records the identity of its own element, and that element is
    one [tap_element] builds a step for. *)
Definition flows_sound `{Python} {W : Type} (m : machine W) : Prop :=
  Forall (fun fr => action fr = identifier (fr_element fr)
                    /\ tap_command (fr_element fr) <> None)
         (discovered_flows (self m)).

(** The identity in the words of the data model, on the four descriptors of an
    element; a label counts as empty when nothing is left of it once the
    surrounding whitespace is stripped, and it enters the identity stripped. *)
Definition identify (displayText accessibilityLabel resourceId bounds : str) : str :=
  if bool_decide (strip displayText <> []) then py "text:" ++ strip displayText
  else if bool_decide (strip accessibilityLabel <> []) then py "acc:" ++ strip accessibilityLabel
  else if bool_decide (strip resourceId <> []) then py "id:" ++ strip resourceId
  else py "bounds:" ++ bounds.

(** ** Induction on decoded values *)

Section JsonInduction.
Variable P : json -> Prop.
Hypothesis Hnull : P JNull.
Hypothesis Hbool : forall b, P (JBool b).
Hypothesis Hint : forall z, P (JInt z).
Hypothesis Hfloat : forall f, P (JFloat f).
Hypothesis Hstr : forall s, P (JStr s).
Hypothesis Hlist : forall items, Forall P items -> P (JList items).
Hypothesis Hdict : forall items, Forall (fun kv => P kv.2) items -> P (JDict items).

(** Induction on a decoded value, with the property at hand for every item
    of a list and every value of an object. *)
Fixpoint json_ind (v : json) : P v :=
  match v with
  | JNull => Hnull
  | JBool b => Hbool b
  | JInt z => Hint z
  | JFloat f => Hfloat f
  | JStr s => Hstr s
  | JList items =>
      Hlist items
        ((fix all (l : list json) : Forall P l :=
            match l with
            | [] => List.Forall_nil P
            | x :: l' => List.Forall_cons P x l' (json_ind x) (all l')
            end) items)
  | JDict items =>
      Hdict items
        ((fix all (l : list (str * json)) : Forall (fun kv => P kv.2) l :=
            match l with
            | [] => List.Forall_nil _
            | kv :: l' =>
                List.Forall_cons (fun kv => P kv.2) kv l'
                  (match kv as kv0 return P kv0.2 with (_, x) => json_ind x end)
                  (all l')
            end) items)
  end.
End JsonInduction.

(** ** Comparing two states of an explorer *)

(** What [__init__] sets once and for all. *)
Definition config (s : explorer) : str * str * str :=
  (app_id s, platform s, screenshots_dir s).

(** From [m] to [m'] the configuration is kept, the Frontier has grown, and
    the two logs and the history have only been appended to. *)
Definition grown {W : Type} (m m' : machine W) : Prop :=
  config (self m') = config (self m)
  /\ visited_elements (self m) ⊆ visited_elements (self m')
  /\ screen_states (self m) `prefix_of` screen_states (self m')
  /\ discovered_flows (self m) `prefix_of` discovered_flows (self m')
  /\ trace m `prefix_of` trace m'.


(** Every element the screen state lists has its identity in the Frontier. *)
Definition screen_tried (visited : gset str) (st : screen_state) : Prop :=
  Forall (fun e : element => identifier e ∈ visited) (ss_elements st).

(** ** Swapping the screen capture *)

(** The backend [B] with another command in the place of
    [adb exec-out screencap]; every other call is the one of [B]. *)
Definition with_screencap {W : Type} (B : Backend W)
    (screencap : str -> W -> bool * W) : Backend W :=
  {| maestro_hierarchy := @maestro_hierarchy W B;
     maestro_test := @maestro_test W B;
     adb_screencap := screencap;
     time_time := @time_time W B;
     datetime_now := @datetime_now W B;
     time_sleep := @time_sleep W B;
     write_file := @write_file W B |}.

(** On android the other command acts on the world as the one of [B] does;
    what it reports is free. On another platform nothing is asked of it. *)
Definition same_effect {W : Type} (B : Backend W) (screencap : str -> W -> bool * W)
    (m : machine W) : Prop :=
  platform (self m) = py "android" ->
  forall name w, (screencap name w).2 = (@adb_screencap W B name w).2.

(** ** A snapshot that is not well shaped *)

(** A node whose [attributes] are [null], and an interpreter that decodes its
    name. *)
Definition null_attributes : json := JDict [ (py "attributes", JNull) ].

Definition null_attributes_decoder : Python :=
  Sim.python [ (py "{null_attributes}", null_attributes) ].

(** ** Paths *)

(** The paths under a value start with the path of the value, and no two
    nodes under it have the same path. *)
Definition paths_apart (v : json) : Prop :=
  forall p, (forall np, np ∈ nodes v p -> p `prefix_of` np.2) /\ NoDup (nodes v p).*2.

(** * Runs that are cut short

    The definitions above follow the explorer while every flow file can be
    written and the operator lets the program finish. Two things cut a run
    short, and this part adds them. A file opened in text mode is written
    outside any [try]: when its text cannot be encoded the write raises
    [UnicodeEncodeError], in [tap_element] and [go_back] (the flow file) and
    in [generate_test_files] (the script). And the operator may interrupt the
    program: [KeyboardInterrupt] is no [Exception], so it passes through every
    [except Exception] of the methods and is caught only in
    [run_exploration], around the call of [explore_screen]. The interpreter
    delivers the interrupt between two of its instructions; here it is
    delivered before a print, a file write, a process call or a sleep, and
    between the insertion of an identity into the Frontier and its
    activation. So wherever the fields of the explorer or its history change
    twice, the interrupt may arrive in between: a run is cut in every state
    of the explorer it can be cut in. *)

Module Full.

(** [s.encode('utf-8')] succeeds: no code point of [s] is a surrogate. The
    files are opened in text mode with the encoding of the platform, which
    is UTF-8 on the macOS installation that the paths of the source belong
    to. [json.loads] yields surrogates for the escapes [\ud800] to
    [\udfff]. *)
Definition encodable (s : str) : bool :=
  forallb (fun c => (c <? 55296) || (57343 <? c))%N s.

(** The operator at the terminal. *)
Class Operator (W : Type) : Type := {
  (** whether Ctrl-C has arrived by a point where it is delivered, and the
      world as that leaves it *)
  sigint : W -> bool * W
}.

(** How a piece of the program ends: with a value, with an exception that
    leaves it, or with the bound on nested calls used up (never, see
    [explore_screen]). *)
Inductive ends (A : Type) : Type :=
| Yields (a : A)
| Raises (e : exn)
| Exhausted.
Arguments Yields {A} a.
Arguments Raises {A} e.
Arguments Exhausted {A}.

(** A piece of the program: it takes the machine from one state to the next
    and ends in one of these ways. *)
Definition prog (W A : Type) : Type := machine W -> ends A * machine W.

#[global] Instance prog_ret {W : Type} : MRet (prog W) := fun A a m => (Yields a, m).

(** Sequencing: what follows runs only when the first piece yields. *)
#[global] Instance prog_bind {W : Type} : MBind (prog W) := fun A B k c m =>
  match c m with
  | (Yields a, m') => k a m'
  | (Raises e, m') => (Raises e, m')
  | (Exhausted, m') => (Exhausted, m')
  end.

Section Steps.
Context {W : Type} `{Backend W} `{Operator W}.

Definition raise {A : Type} (e : exn) : prog W A := fun m => (Raises e, m).

(** A call of the backend that returns a value. *)
Definition ask_world {A : Type} (f : W -> A * W) : prog W A := fun m =>
  let '(a, w) := f (world m) in (Yields a, set_world w m).

(** A call of the backend for its effect. *)
Definition tell_world (f : W -> W) : prog W unit := fun m =>
  (Yields (), set_world (f (world m)) m).

(** An assignment to a field of [self], or an entry in the history. *)
Definition update (f : machine W -> machine W) : prog W unit := fun m => (Yields (), f m).

Definition get_self : prog W explorer := fun m => (Yields (self m), m).

(** A function of the interpreter that may raise. *)
Definition from_result {A : Type} (r : result A) : prog W A := fun m =>
  match r with
  | Ok a => (Yields a, m)
  | Raise e => (Raises e, m)
  end.

(** A point where the operator's interrupt may arrive. *)
Definition checkpoint : prog W unit :=
  interrupted ← ask_world sigint;
  if interrupted : bool then raise KeyboardInterrupt else mret ().

(** [with open(name, 'w') as f: f.write(contents)], outside any [try]: the
    file is created, and when the contents cannot be encoded nothing is
    written to it and the exception propagates. *)
Definition open_write (name contents : str) : prog W unit :=
  checkpoint;;
  if encodable contents then tell_world (write_file name contents)
  else tell_world (write_file name []);; raise UnicodeEncodeError.

End Steps.

Section Methods.
Context `{Python} {W : Type} `{Backend W} `{Operator W}.

(** [get_hierarchy]: [except Exception] turns every failure of the call into
    [None], the operator's interrupt apart. *)
Definition get_hierarchy : prog W json :=
  checkpoint;;
  p ← ask_world maestro_hierarchy;
  mret (decode_hierarchy p).

Definition take_screenshot (name : str) : prog W (option str) :=
  s ← get_self;
  let filename := screenshots_dir s ++ py "/" ++ name ++ py ".png" in
  if bool_decide (platform s = py "android") then
    checkpoint;;
    ok ← ask_world (adb_screencap filename);
    mret (if ok : bool then Some filename else None)
  else mret (Some filename).

(** [tap_element]: the flow file is written before the [try] is entered;
    [maestro_test] is the run of a flow file that could be written. *)
Definition tap_element (element : element_info) : prog W bool :=
  match tap_command element with
  | Some yaml_cmd =>
      s ← get_self;
      t ← ask_world time_time;
      let temp_flow := py "/tmp/maestro_tap_" ++ str_of_Z t ++ py ".yaml" in
      let flow_content :=
        py "appId: " ++ app_id s ++ nl ++ py "---" ++ nl ++ yaml_cmd ++ nl in
      checkpoint;;
      if encodable flow_content then
        p ← ask_world (maestro_test temp_flow flow_content);
        match p with
        | Completed returncode _ => mret (returncode =? 0)
        | RunRaised => mret false
        end
      else tell_world (write_file temp_flow []);; raise UnicodeEncodeError
  | None => mret false
  end.

Definition go_back : prog W unit :=
  s ← get_self;
  t ← ask_world time_time;
  let temp_flow := py "/tmp/maestro_back_" ++ str_of_Z t ++ py ".yaml" in
  let flow_content :=
    py "appId: " ++ app_id s ++ nl ++ py "---" ++ nl ++ py "- back" ++ nl in
  checkpoint;;
  if encodable flow_content then
    p ← ask_world (maestro_test temp_flow flow_content);
    match p with
    | Completed _ _ => checkpoint;; tell_world (time_sleep 1)
    | RunRaised => mret ()
    end
  else tell_world (write_file temp_flow []);; raise UnicodeEncodeError.

(** The blocks of [explore_screen], in the order of the source. *)

Definition observe (depth : Z) : prog W json :=
  update (log (EvObserve depth));; get_hierarchy.

Definition shoot_screen (depth : Z) : prog W str :=
  t ← ask_world time_time;
  let screenshot_name := py "screen_depth" ++ str_of_Z depth ++ py "_" ++ str_of_Z t in
  take_screenshot screenshot_name;;
  mret screenshot_name.

Definition store_screen (depth : Z) (screenshot_name : str) (clickable : list element)
  : prog W unit :=
  now ← ask_world datetime_now;
  update (screen_states_append
            {| ss_depth := depth;
               ss_timestamp := isoformat now;
               ss_screenshot := screenshot_name;
               ss_elements := clickable |}).

Definition attempt (element : element) : prog W bool :=
  update (visited_add (identifier element));;
  checkpoint;;                          (* between the two statements *)
  success ← tap_element element;
  update (log (EvTap (identifier element) success));;
  mret success.

Definition record_flow (depth : Z) (screenshot_name : str) (element : element)
  : prog W unit :=
  checkpoint;;
  tell_world (time_sleep 2);;
  t ← ask_world time_time;
  let after_screenshot :=
    py "after_tap_" ++ take 30 (replace 58%N (py "_") (identifier element))
    ++ py "_" ++ str_of_Z t in
  take_screenshot after_screenshot;;
  update (discovered_flows_append
            {| from_screen := screenshot_name;
               action := identifier element;
               to_screen := after_screenshot;
               fr_depth := depth;
               fr_element := element |}).

Definition back_up : prog W unit :=
  checkpoint;;                          (* the progress line *)
  update (log EvBack);;
  go_back;;
  checkpoint;;
  tell_world (time_sleep 1).

Definition element_loop (descend : prog W unit) (depth max_depth : Z)
    (screenshot_name : str) : list element -> prog W unit :=
  fix loop clickable :=
    match clickable with
    | [] => mret ()
    | element :: clickable' =>
        s ← get_self;
        if bool_decide (identifier element ∈ visited_elements s)
        then loop clickable'                                    (* continue *)
        else
          checkpoint;;                  (* the progress line *)
          success ← attempt element;
          if success : bool then
            record_flow depth screenshot_name element;;
            (if depth <? max_depth then descend else mret ());;
            back_up;;
            loop clickable'
          else loop clickable'
    end.

(** [explore_screen] with a bound [fuel] on the nesting of calls. *)
Fixpoint explore_fuel (fuel : nat) (depth max_depth : Z) : prog W unit :=
  match fuel with
  | O => fun m => (Exhausted, m)
  | S fuel' =>
      if max_depth <? depth then mret ()
      else
        checkpoint;;                    (* the progress line *)
        hierarchy ← observe depth;
        if negb (truthy hierarchy) then checkpoint         (* the warning *)
        else
          screenshot_name ← shoot_screen depth;
          s ← get_self;
          clickable ← from_result (find_clickable_elements (visited_elements s) hierarchy);
          checkpoint;;                  (* the progress line *)
          store_screen depth screenshot_name clickable;;
          element_loop (explore_fuel fuel' (depth + 1) max_depth)
            depth max_depth screenshot_name clickable
  end.

Definition explore_screen (depth max_depth : Z) : prog W unit :=
  explore_fuel (S (Z.to_nat (max_depth - depth))) depth max_depth.

(** [json.dumps(report, indent=2)]: its output is ASCII, so the report can
    always be encoded. *)
Context (json_dumps : json -> str).

Definition generate_test_files : prog W generated :=
  checkpoint;;                          (* the banner *)
  s ← get_self;
  now1 ← ask_world datetime_now;
  let test_content := test_content s now1 in
  now2 ← ask_world datetime_now;
  let test_filename :=
    py "generated_exploration_test_" ++ strftime_compact now2 ++ py ".yaml" in
  open_write test_filename test_content;;
  checkpoint;;                          (* the progress line *)
  now3 ← ask_world datetime_now;
  let report := report s now3 in
  now4 ← ask_world datetime_now;
  let report_filename :=
    py "exploration_report_" ++ strftime_compact now4 ++ py ".json" in
  checkpoint;;
  tell_world (write_file report_filename (json_dumps report));;
  checkpoint;;                          (* the progress lines *)
  mret {| test_filename := test_filename; script := test_content;
          report_filename := report_filename; report_dict := report |}.

(** [try: ... except KeyboardInterrupt: print(...)] *)
Definition except_KeyboardInterrupt (body : prog W unit) : prog W unit := fun m =>
  match body m with
  | (Raises KeyboardInterrupt, m') => checkpoint m'       (* the notice *)
  | r => r
  end.

(** The banner and [start_time = time.time()] *)
Definition begin_run : prog W Z :=
  checkpoint;; ask_world time_time.

(** The summary and the generation of the files *)
Definition finish_run : prog W generated :=
  _ ← ask_world time_time;
  checkpoint;;
  generate_test_files.

Definition run_exploration (max_depth : Z) : prog W generated :=
  begin_run;;
  except_KeyboardInterrupt (explore_screen 0 max_depth);;
  finish_run.

End Methods.

(** An operator who never interrupts. *)
Definition quiet {W : Type} : Operator W := {| sigint w := (false, w) |}.

(** An operator of the simulated device who interrupts once, when the clock
    reads [t]; the clock then moves on. *)
Definition interrupt_when (t : Z) : Operator Sim.world :=
  {| sigint w :=
       if Sim.clock w =? t
       then (true, {| Sim.clock := Sim.clock w + 1; Sim.outputs := Sim.outputs w;
                      Sim.broken := Sim.broken w; Sim.files := Sim.files w |})
       else (false, w) |}.

End Full.

(** ** The state a run may be cut in *)

(** [l1] is [l2], or [l2] short of its last entry. *)
Definition lags {A : Type} (l1 l2 : list A) : Prop :=
  l2 = l1 \/ exists x, l2 = l1 ++ [x].

(** An explorer that has done nothing yet, as [__init__] leaves it. *)
Definition fresh {W : Type} (m : machine W) : Prop :=
  visited_elements (self m) = ∅ /\ screen_states (self m) = []
  /\ discovered_flows (self m) = [] /\ trace m = [].

(** Between two turns of an element loop, [n] levels down from a fresh
    start: the explorer is explained by its history, every flow is the flow
    of its own element, and all flows but the [n] whose screens are still
    open have had their back-navigation. *)
Definition settled {W : Type} (n : nat) (m : machine W) : Prop :=
  consistent m
  /\ marked_first (trace m)
  /\ Forall (fun fr => action fr = identifier (fr_element fr)) (discovered_flows (self m))
  /\ (length (backs (trace m)) + n = length (discovered_flows (self m)))%nat.

(** Anywhere in a run: the last identity inserted may not have been
    attempted yet, the last success may not have its flow yet, and more
    screens may be open. *)
Definition unsettled {W : Type} (n : nat) (m : machine W) : Prop :=
  lags (action <$> discovered_flows (self m)) (succeeded (trace m))
  /\ lags (tapped (trace m)) (marks (trace m))
  /\ NoDup (marks (trace m))
  /\ visited_elements (self m) = list_to_set (marks (trace m))
  /\ marked_first (trace m)
  /\ Forall (fun fr => action fr = identifier (fr_element fr)) (discovered_flows (self m))
  /\ (length (backs (trace m)) + n <= length (discovered_flows (self m)))%nat.

(** A piece of the program that starts settled ends settled when it yields,
    and unsettled at worst when it is cut short. *)
Definition ends_settled {W A : Type} (n : nat) (r : Full.ends A * machine W) : Prop :=
  match r.1 with
  | Full.Yields _ => settled n r.2
  | _ => unsettled n r.2
  end.

(** [t] is the beginning of a history of the given shape. *)
Definition begins (shape : list event -> Prop) (t : list event) : Prop :=
  exists rest, shape (t ++ rest).

(** What a piece of the program, started in [m], adds to the history: the
    beginning of a history of the given shape, the whole of one when the
    piece yields; and never a back-navigation without its successful
    activation. *)
Definition adds_history {W A : Type} (shape : list event -> Prop) (m : machine W)
    (r : Full.ends A * machine W) : Prop :=
  exists t,
    trace r.2 = trace m ++ t
    /\ (length (backs t) <= length (succeeded t))%nat
    /\ begins shape t
    /\ match r.1 with Full.Yields _ => shape t | _ => True end.

(** A piece of the program that acts on the world only: it leaves [self] and
    the history alone, however it ends. *)
Definition world_only {W A : Type} (c : Full.prog W A) : Prop :=
  forall m, (c m).1 <> Full.Exhausted
            /\ self (c m).2 = self m /\ trace (c m).2 = trace m.

(** What the history holds between a successful activation at depth [d] and
    its back-navigation: the whole call one level down, or nothing at the
    maximum depth. *)
Definition descent_trace (k d : Z) (sub : list event) : Prop :=
  if decide (d < k) then call_trace k true (d + 1) sub else sub = [].

(** ** The two descriptions compared *)

(** An operator who never interrupts. *)
Definition never_interrupts {W : Type} `{Full.Operator W} : Prop :=
  forall w : W, Full.sigint w = (false, w).

(** The call ends in the plain description as it does in the full one,
    unless a text that cannot be encoded cuts it short; the only other
    exceptions are those of the parser. *)
Definition same_call {W : Type} (full : Full.ends () * machine W)
    (plain : outcome * machine W) : Prop :=
  match full with
  | (Full.Yields _, m') => plain = (Returned, m')
  | (Full.Raises e, m') =>
      e = UnicodeEncodeError
      \/ ((e = AttributeError \/ e = TypeError) /\ plain = (Raised e, m'))
  | (Full.Exhausted, m') => plain = (OutOfFuel, m')
  end.

(** A method yields in the full description what it returns in the plain
    one, unless a text that cannot be encoded cuts it short. *)
Definition same_step {W A : Type} (full : Full.ends A * machine W)
    (plain : A * machine W) : Prop :=
  match full with
  | (Full.Yields a, m') => plain = (a, m')
  | (Full.Raises e, _) => e = UnicodeEncodeError
  | (Full.Exhausted, _) => False
  end.

(** * Properties *)

(** ** The model on small inputs *)

Example strip_example : strip (py "  Save me ") = py "Save me".
Proof. reflexivity. Qed.

Example strip_blank_example : strip (9 :: 160 :: py "  ")%N = [].
Proof. reflexivity. Qed.

Example split_example :
  split 10%N (py "a" ++ nl ++ nl ++ py "b" ++ nl) = [py "a"; []; py "b"; []].
Proof. reflexivity. Qed.

Example join_example : join nl [py "a"; []; py "b"] = py "a" ++ nl ++ nl ++ py "b".
Proof. reflexivity. Qed.

Example replace_example : take 5 (replace 58%N (py "_") (py "id:a:b")) = py "id_a_".
Proof. reflexivity. Qed.

Example str_of_Z_example : str_of_Z 0 = py "0" /\ str_of_Z 1730628000 = py "1730628000"
                           /\ str_of_Z (-3) = py "-3".
Proof. by vm_compute. Qed.

Example isoformat_example :
  isoformat {| year := 2024; month := 3; day := 9; hour := 7; minute := 5; second := 0;
               microsecond := 1500 |}
  = py "2024-03-09T07:05:00.001500".
Proof. reflexivity. Qed.

Example strftime_example :
  strftime_compact (Sim.at_clock 3725) = py "20240101_010205"
  /\ strftime_human (Sim.at_clock 3725) = py "2024-01-01 01:02:05".
Proof. by vm_compute. Qed.

(** The banner that [maestro hierarchy] prints first is dropped. *)
Example json_text_example :
  @json_text (py "Running on emulator-5554" ++ nl ++ py "  {" ++ nl ++ py "}")
  = py "  {" ++ nl ++ py "}".
Proof. reflexivity. Qed.

Example json_text_no_brace_example : @json_text (py "no device") = py "no device".
Proof. reflexivity. Qed.

Example truthy_example :
  truthy (JDict []) = false /\ truthy (JStr (py " ")) = true /\ truthy (JInt 0) = false.
Proof. done. Qed.

(** The parser on a screen of three buttons, the second already visited. *)
Example find_clickable_elements_example :
  @find_clickable_elements Sim.decoder {[py "text:Shop"]} Sim.three_buttons
  = Ok [ Sim.button_element "Pets" "" "" "[0,0][100,50]" "/child[0]" "text:Pets";
         Sim.button_element "Settings" "" "" "[0,100][100,150]" "/child[2]" "text:Settings" ].
Proof. reflexivity. Qed.

(** A node whose attributes are no object makes the parser raise. *)
Example find_clickable_elements_raises_example :
  @find_clickable_elements Sim.decoder ∅ (JDict [(py "attributes", JNull)])
  = Raise AttributeError.
Proof. reflexivity. Qed.

(** A run over two screens: the history, the Frontier and the flow log. *)
Example explore_screen_example :
  let r := @explore_screen Sim.decoder _ Sim.backend 0 1
             (Sim.start [Sim.shows "{one_button}"; Sim.shows "{icon_only}"] []) in
  r.1 = Returned
  /\ trace r.2 = [ EvObserve 0; EvMark (py "text:Home"); EvTap (py "text:Home") true;
                   EvObserve 1; EvMark (py "bounds:[0,0][48,48]");
                   EvTap (py "bounds:[0,0][48,48]") true; EvBack; EvBack ]
  /\ ss_depth <$> screen_states (self r.2) = [0; 1]
  /\ (fun fr => (from_screen fr, action fr, to_screen fr, fr_depth fr))
       <$> discovered_flows (self r.2)
     = [ (py "screen_depth0_0", py "text:Home", py "after_tap_text_Home_2", 0);
         (py "screen_depth1_2", py "bounds:[0,0][48,48]",
          py "after_tap_bounds_[0,0][48,48]_4", 1) ].
Proof. by vm_compute. Qed.

(** ** What each block changes *)

Section Frames.
Context `{Python} {W : Type} `{Backend W}.
Implicit Types m : machine W.

Lemma get_hierarchy_frame m :
  self (get_hierarchy m).2 = self m /\ trace (get_hierarchy m).2 = trace m.
Proof. unfold get_hierarchy. by destruct (maestro_hierarchy (world m)). Qed.

Lemma take_screenshot_frame name m :
  self (take_screenshot name m).2 = self m /\ trace (take_screenshot name m).2 = trace m.
Proof.
  unfold take_screenshot. case_bool_decide; [|done].
  by destruct (adb_screencap _ (world m)).
Qed.

Lemma tap_element_frame e m :
  self (tap_element e m).2 = self m /\ trace (tap_element e m).2 = trace m.
Proof.
  unfold tap_element. destruct (tap_command e); [|done].
  destruct (time_time (world m)) as [t w].
  destruct (maestro_test _ _ w) as [[|rc out] w']; done.
Qed.

Lemma go_back_frame m :
  self (go_back m) = self m /\ trace (go_back m) = trace m.
Proof.
  unfold go_back. destruct (time_time (world m)) as [t w].
  destruct (maestro_test _ _ w) as [[|rc out] w']; done.
Qed.

Lemma observe_frame depth m hierarchy m1 :
  observe depth m = (hierarchy, m1) ->
  self m1 = self m /\ trace m1 = trace m ++ [EvObserve depth].
Proof.
  unfold observe. intros E.
  destruct (get_hierarchy_frame (log (EvObserve depth) m)) as [Hs Ht].
  rewrite E in Hs, Ht. done.
Qed.

Lemma observe_value depth m hierarchy m1 :
  observe depth m = (hierarchy, m1) ->
  hierarchy = decode_hierarchy (maestro_hierarchy (world m)).1.
Proof.
  unfold observe, get_hierarchy. cbn.
  destruct (maestro_hierarchy (world m)). by intros [= <- _].
Qed.

Lemma shoot_screen_frame depth m name m2 :
  shoot_screen depth m = (name, m2) -> self m2 = self m /\ trace m2 = trace m.
Proof.
  unfold shoot_screen. destruct (time_time (world m)) as [t w]. intros [= <- <-].
  apply (take_screenshot_frame _ (set_world w m)).
Qed.

Lemma store_screen_frame depth name clickable m :
  let m' := store_screen depth name clickable m in
  visited_elements (self m') = visited_elements (self m)
  /\ discovered_flows (self m') = discovered_flows (self m)
  /\ (exists st, screen_states (self m') = screen_states (self m) ++ [st]
                 /\ ss_depth st = depth /\ ss_screenshot st = name
                 /\ ss_elements st = clickable)
  /\ trace m' = trace m.
Proof.
  unfold store_screen. destruct (datetime_now (world m)) as [now w]. cbn.
  repeat split; eauto 10.
Qed.

Lemma attempt_frame e m success m1 :
  attempt e m = (success, m1) ->
  visited_elements (self m1) = {[identifier e]} ∪ visited_elements (self m)
  /\ discovered_flows (self m1) = discovered_flows (self m)
  /\ screen_states (self m1) = screen_states (self m)
  /\ trace m1 = trace m ++ [EvMark (identifier e); EvTap (identifier e) success].
Proof.
  unfold attempt. intros E.
  destruct (tap_element_frame e (visited_add (identifier e) m)) as [Hs Ht].
  destruct (tap_element e _) as [b m0]. injection E as -> <-. cbn in *.
  rewrite Hs, Ht. cbn. by rewrite <- app_assoc.
Qed.

Lemma record_flow_frame depth name e m :
  let m' := record_flow depth name e m in
  visited_elements (self m') = visited_elements (self m)
  /\ screen_states (self m') = screen_states (self m)
  /\ (exists fr, discovered_flows (self m') = discovered_flows (self m) ++ [fr]
                 /\ action fr = identifier e /\ fr_element fr = e
                 /\ fr_depth fr = depth /\ from_screen fr = name)
  /\ trace m' = trace m.
Proof.
  unfold record_flow. cbn.
  destruct (time_time _) as [t w].
  match goal with |- context [take_screenshot ?n ?x] =>
    destruct (take_screenshot_frame n x) as [Hs Ht] end.
  cbn. rewrite Hs, Ht. cbn. repeat split; eauto 10.
Qed.

Lemma back_up_frame m :
  self (back_up m) = self m /\ trace (back_up m) = trace m ++ [EvBack].
Proof.
  unfold back_up. cbn. destruct (go_back_frame (log EvBack m)) as [Hs Ht].
  by rewrite Ht.
Qed.

End Frames.

(** ** Every call follows the rules, and the fuel is never used up *)

Section Adequacy.
Context `{Python} {W : Type} `{Backend W}.
Implicit Types m : machine W.

Lemma element_loop_exec descend depth max_depth name :
  (depth < max_depth ->
   forall m, exec (Explore (depth + 1) max_depth) m (descend m).1 (descend m).2
             /\ (descend m).1 <> OutOfFuel) ->
  forall clickable m,
    let r := element_loop descend depth max_depth name clickable m in
    exec (Loop depth max_depth name clickable) m r.1 r.2 /\ r.1 <> OutOfFuel.
Proof.
  intros Hd. induction clickable as [|e els IH]; intros m; cbn.
  - split; [constructor | done].
  - case_bool_decide as Hin.
    + destruct (IH m). split; [by apply exec_seen | done].
    + destruct (attempt e m) as [[] m1] eqn:Ea.
      * destruct (Z.ltb_spec depth max_depth) as [Hlt|Hge].
        -- destruct (Hd Hlt (record_flow depth name e m1)) as [Hex Hne].
           destruct (descend _) as [o m2]; cbn in *.
           destruct o; [|split; [by eapply exec_tap_aborts | done] | done].
           destruct (IH (back_up m2)). split; [by eapply exec_tap_descends | done].
        -- destruct (IH (back_up (record_flow depth name e m1))).
           split; [by eapply exec_tap_leaf | done].
      * destruct (IH m1). split; [by eapply exec_tap_fails | done].
Qed.

Lemma explore_fuel_exec fuel :
  forall depth max_depth m,
    (Z.to_nat (max_depth - depth) < fuel)%nat ->
    let r := explore_fuel fuel depth max_depth m in
    exec (Explore depth max_depth) m r.1 r.2 /\ r.1 <> OutOfFuel.
Proof.
  induction fuel as [|fuel IH]; intros depth max_depth m Hfuel; [lia|]. cbn.
  destruct (Z.ltb_spec max_depth depth) as [Hlt|Hge].
  { split; [by constructor | done]. }
  destruct (observe depth m) as [hierarchy m1] eqn:Eo.
  destruct (truthy hierarchy) eqn:Et; cbn.
  2:{ split; [by eapply exec_no_hierarchy | done]. }
  destruct (shoot_screen depth m1) as [name m2] eqn:Es.
  destruct (find_clickable_elements _ hierarchy) as [clickable|e] eqn:Ef.
  2:{ split; [by eapply exec_parse_raises | done]. }
  edestruct (element_loop_exec (explore_fuel fuel (depth + 1) max_depth)
               depth max_depth name) as [Hex Hne].
  { intros Hlt m'. apply IH. lia. }
  split; [by eapply exec_screen | exact Hne].
Qed.

(** [explore_screen] is total: it returns or raises, and does so along the
    rules of [exec]. *)
Lemma explore_screen_exec depth max_depth m :
  exec (Explore depth max_depth) m
       (explore_screen depth max_depth m).1 (explore_screen depth max_depth m).2
  /\ (explore_screen depth max_depth m).1 <> OutOfFuel.
Proof. apply explore_fuel_exec. lia. Qed.

End Adequacy.

(** ** Invariants of a run *)

Section Invariants.
Context `{Python} {W : Type} `{Backend W}.
Implicit Types m : machine W.

(** A property of the machine kept by every block is kept by every call,
    however the call ends. The blocks that depend on the depth run at a
    depth between the depth of the first call and the maximum depth. *)
Lemma exec_invariant (lo k : Z) (P : machine W -> Prop) :
  (forall d m h m1, lo <= d <= k -> observe d m = (h, m1) -> P m -> P m1) ->
  (forall d m name m2, shoot_screen d m = (name, m2) -> P m -> P m2) ->
  (forall d name clickable m,
      lo <= d <= k -> P m -> P (store_screen d name clickable m)) ->
  (forall e m m1,
      identifier e ∉ visited_elements (self m) ->
      attempt e m = (false, m1) -> P m -> P m1) ->
  (forall d name e m m1,
      lo <= d <= k ->
      identifier e ∉ visited_elements (self m) ->
      attempt e m = (true, m1) -> P m -> P (record_flow d name e m1)) ->
  (forall m, P m -> P (back_up m)) ->
  forall c m o m', exec c m o m' -> call_within lo k c -> P m -> P m'.
Proof.
  intros Hobs Hshoot Hstore Hfail Hok Hback c m o m' Hex.
  induction Hex; cbn; intros Hc HP; try done.
  - destruct Hc as [? ->]. eapply Hobs; [|done..]. lia.
  - destruct Hc as [? ->]. eapply Hshoot; [done|]. eapply Hobs; [|done..]. lia.
  - destruct Hc as [? ->]. apply IHHex; [cbn; lia|].
    apply Hstore; [lia|]. eapply Hshoot; [done|]. eapply Hobs; [|done..]. lia.
  - auto.
  - eauto.
  - destruct Hc as [? ->]. apply IHHex; [done|]. apply Hback. eapply Hok; [lia|done..].
  - destruct Hc as [? ->]. apply IHHex2; [done|]. apply Hback.
    apply IHHex1; [cbn; lia|]. eapply Hok; [lia|done..].
  - destruct Hc as [? ->]. apply IHHex; [cbn; lia|]. eapply Hok; [lia|done..].
Qed.

Lemma succeeded_app t1 t2 : succeeded (t1 ++ t2) = succeeded t1 ++ succeeded t2.
Proof. apply omap_app. Qed.
Lemma tapped_app t1 t2 : tapped (t1 ++ t2) = tapped t1 ++ tapped t2.
Proof. apply omap_app. Qed.
Lemma taps_app t1 t2 : taps (t1 ++ t2) = taps t1 ++ taps t2.
Proof. apply omap_app. Qed.
Lemma marks_app t1 t2 : marks (t1 ++ t2) = marks t1 ++ marks t2.
Proof. apply omap_app. Qed.
Lemma backs_app t1 t2 : backs (t1 ++ t2) = backs t1 ++ backs t2.
Proof. apply omap_app. Qed.

Lemma frontier_snoc (id : str) (l : list str) :
  {[id]} ∪ list_to_set l =@{gset str} list_to_set (l ++ [id]).
Proof.
  rewrite list_to_set_app_L. cbn. rewrite (right_id_L ∅ (∪)). apply (comm_L (∪)).
Qed.

Lemma consistent_init app platform (w : W) : consistent (init app platform w).
Proof.
  unfold init. destruct (datetime_now w) as [now w'].
  repeat split; cbn. constructor.
Qed.

Lemma consistent_exec lo k m0 o m0' :
  exec (Explore lo k) m0 o m0' -> consistent m0 -> consistent m0'.
Proof.
  intros Hex. eapply (exec_invariant lo k); [..|exact Hex|done]; clear.
  - intros d m h m1 _ [Hs Ht]%observe_frame. unfold consistent.
    rewrite Hs, Ht, succeeded_app, tapped_app, marks_app. cbn.
    by rewrite !app_nil_r.
  - intros d m name m2 [Hs Ht]%shoot_screen_frame. unfold consistent.
    by rewrite Hs, Ht.
  - intros d name clickable m _.
    destruct (store_screen_frame d name clickable m) as (Hv & Hf & _ & Ht).
    unfold consistent. by rewrite Hv, Hf, Ht.
  - intros e m m1 Hnew (Hv & Hf & _ & Ht)%attempt_frame (I1 & I2 & I3 & I4).
    unfold consistent.
    rewrite Hv, Hf, Ht, succeeded_app, tapped_app, marks_app. cbn.
    rewrite app_nil_r, I1, I2, I4. repeat split; [| apply frontier_snoc].
    apply NoDup_app. repeat split; [done | | apply NoDup_singleton].
    intros x Hx ->%list_elem_of_singleton. apply Hnew. rewrite I4.
    by apply elem_of_list_to_set.
  - intros d name e m m1 _ Hnew (Hv & Hf & _ & Ht)%attempt_frame (I1 & I2 & I3 & I4).
    destruct (record_flow_frame d name e m1) as (Hv' & _ & (fr & Hf' & Ha & _) & Ht').
    unfold consistent.
    rewrite Hv', Hf', Ht', Hv, Hf, Ht, succeeded_app, tapped_app, marks_app. cbn.
    rewrite fmap_app, I1, I2, I4. cbn. rewrite Ha. repeat split; [| apply frontier_snoc].
    apply NoDup_app. repeat split; [done | | apply NoDup_singleton].
    intros x Hx ->%list_elem_of_singleton. apply Hnew. rewrite I4.
    by apply elem_of_list_to_set.
  - intros m. destruct (back_up_frame m) as [Hs Ht]. unfold consistent.
    rewrite Hs, Ht, succeeded_app, tapped_app, marks_app. cbn.
    by rewrite !app_nil_r.
Qed.

End Invariants.

(** ** The run as a whole *)

Section RunFacts.
Context `{Python} {W : Type} `{Backend W}.
Context (json_dumps : json -> str).
Implicit Types m : machine W.

Lemma generate_test_files_frame m :
  let r := generate_test_files json_dumps m in
  self r.2 = self m /\ trace r.2 = trace m
  /\ exists now1 now3,
       script r.1 = test_content (self m) now1
       /\ report_dict r.1 = report (self m) now3.
Proof.
  unfold generate_test_files.
  destruct (datetime_now (world m)) as [now1 w1].
  destruct (datetime_now w1) as [now2 w2].
  destruct (datetime_now _) as [now3 w3].
  destruct (datetime_now w3) as [now4 w4]. cbn. eauto 10.
Qed.

(** A run is one call [explore_screen(0, max_depth)], followed by the
    generation when that call returns. *)
Lemma run_exploration_unfold max_depth m :
  let r := explore_screen 0 max_depth (set_world (time_time (world m)).2 m) in
  let run := run_exploration json_dumps max_depth m in
  run.1.1 = r.1 /\ self run.2 = self r.2 /\ trace run.2 = trace r.2
  /\ match r.1 with
     | Returned => exists now1 now3 g,
         run.1.2 = Some g /\ script g = test_content (self r.2) now1
         /\ report_dict g = report (self r.2) now3
     | _ => run.1.2 = None
     end.
Proof.
  unfold run_exploration. destruct (time_time (world m)) as [t w]. cbn [fst snd].
  destruct (explore_screen 0 max_depth (set_world w m)) as [o m1]. cbn [fst snd].
  destruct o; cbn [fst snd]; try done.
  destruct (time_time (world m1)) as [t' w'].
  destruct (generate_test_files_frame (set_world w' m1)) as (Hs & Ht & now1 & now3 & Hg).
  destruct (generate_test_files _ _) as [g m2]. cbn [fst snd] in *.
  rewrite Hs, Ht. repeat split. exists now1, now3, g. by destruct Hg.
Qed.

Lemma explore_screen_consistent depth max_depth m :
  consistent m -> consistent (explore_screen depth max_depth m).2.
Proof.
  destruct (explore_screen_exec depth max_depth m) as [Hex _].
  exact (consistent_exec _ _ _ _ _ Hex).
Qed.

Lemma run_exploration_consistent max_depth app platform (w : W) :
  consistent (run_exploration json_dumps max_depth (init app platform w)).2.
Proof.
  destruct (run_exploration_unfold max_depth (init app platform w)) as (_ & Hs & Ht & _).
  pose proof (explore_screen_consistent 0 max_depth
                (set_world (time_time (world (init app platform w))).2
                   (init app platform w))) as Hc.
  unfold consistent in *. rewrite Hs, Ht. apply Hc, (consistent_init app platform w).
Qed.

Lemma succeeded_sublist t : succeeded t `sublist_of` tapped t.
Proof.
  induction t as [|ev t IH]; [constructor|].
  destruct ev as [d|id|id [] |]; cbn; try done; by constructor.
Qed.

Lemma consistent_once m :
  consistent m ->
  NoDup (action <$> discovered_flows (self m)) /\ NoDup (tapped (trace m)).
Proof.
  intros (I1 & I2 & I3 & I4).
  assert (NoDup (tapped (trace m))) as Hn by (by rewrite I2).
  split; [|done]. rewrite I1.
  exact (sublist_NoDup _ _ Hn (succeeded_sublist _)).
Qed.

End RunFacts.

(** ** The history of a call *)

Section History.
Context `{Python} {W : Type} `{Backend W}.
Implicit Types m : machine W.



(** In a complete history the back-navigations match the successful
    activations one for one. *)
Lemma loop_trace_paired k d t :
  loop_trace k true d t -> length (backs t) = length (succeeded t).
Proof.
  remember true as c eqn:Hc. induction 1; try done.
  - change (length (backs t) = length (succeeded t)). auto.
  - change (S (length (backs t)) = S (length (succeeded t))). auto.
  - change (length (backs (sub ++ EvBack :: t))
            = S (length (succeeded (sub ++ EvBack :: t)))).
    rewrite backs_app, succeeded_app, !length_app.
    change (backs (EvBack :: t)) with (() :: backs t).
    change (succeeded (EvBack :: t)) with (succeeded t). cbn [length].
    rewrite IHloop_trace1, IHloop_trace2 by done. lia.
Qed.


End History.

(** ** Attempts and flows *)

Section Attempts.
Context `{Python} {W : Type} `{Backend W}.
Implicit Types m : machine W.

Lemma marked_first_snoc t ev :
  (forall id ok, ev <> EvTap id ok) -> marked_first t -> marked_first (t ++ [ev]).
Proof.
  intros Hev Ht i id ok Hi.
  destruct (decide (i < length t)%nat) as [Hlt|Hge].
  - rewrite lookup_app_l in Hi by done.
    destruct (Ht i id ok Hi) as (j & -> & Hj). exists j. split; [done|].
    rewrite lookup_app_l by lia. done.
  - rewrite lookup_app_r in Hi by lia.
    destruct (i - length t)%nat as [|n]; cbn in Hi; [|done].
    injection Hi as ->. by destruct (Hev id ok).
Qed.

Lemma marked_first_attempt t id ok :
  marked_first t -> marked_first (t ++ [EvMark id; EvTap id ok]).
Proof.
  intros Ht i id' ok' Hi.
  destruct (decide (i < length t)%nat) as [Hlt|Hge].
  - rewrite lookup_app_l in Hi by done.
    destruct (Ht i id' ok' Hi) as (j & -> & Hj). exists j. split; [done|].
    rewrite lookup_app_l by lia. done.
  - rewrite lookup_app_r in Hi by lia.
    destruct (i - length t)%nat as [|[|n]] eqn:Ei; cbn in Hi; [done| |done].
    injection Hi as <- <-. exists (length t). split; [lia|].
    rewrite lookup_app_r by lia. by rewrite Nat.sub_diag.
Qed.

Lemma marked_first_exec lo k m o m' :
  exec (Explore lo k) m o m' -> marked_first (trace m) -> marked_first (trace m').
Proof.
  intros Hex.
  eapply (exec_invariant lo k (fun m => marked_first (trace m))); [..|exact Hex|done]; clear.
  - intros d m h m1 _ [_ Ht]%observe_frame. rewrite Ht. by apply marked_first_snoc.
  - intros d m name m2 [_ Ht]%shoot_screen_frame. by rewrite Ht.
  - intros d name clickable m _.
    destruct (store_screen_frame d name clickable m) as (_ & _ & _ & Ht). by rewrite Ht.
  - intros e m m1 _ (_ & _ & _ & Ht)%attempt_frame. rewrite Ht.
    apply marked_first_attempt.
  - intros d name e m m1 _ _ (_ & _ & _ & Ht)%attempt_frame.
    destruct (record_flow_frame d name e m1) as (_ & _ & _ & Ht').
    rewrite Ht', Ht. apply marked_first_attempt.
  - intros m. destruct (back_up_frame m) as [_ Ht]. rewrite Ht.
    by apply marked_first_snoc.
Qed.

(** An attempt that reports success has run a tap step. *)
Lemma attempt_success_command e m m1 :
  attempt e m = (true, m1) -> tap_command e <> None.
Proof.
  unfold attempt, tap_element. destruct (tap_command e); [done|].
  intros [=].
Qed.

Lemma flows_sound_exec lo k m o m' :
  exec (Explore lo k) m o m' -> flows_sound m -> flows_sound m'.
Proof.
  intros Hex.
  eapply (exec_invariant lo k flows_sound); [..|exact Hex|done]; clear; unfold flows_sound.
  - intros d m h m1 _ [Hs _]%observe_frame. by rewrite Hs.
  - intros d m name m2 [Hs _]%shoot_screen_frame. by rewrite Hs.
  - intros d name clickable m _.
    destruct (store_screen_frame d name clickable m) as (_ & Hf & _). by rewrite Hf.
  - intros e m m1 _ (_ & Hf & _)%attempt_frame. by rewrite Hf.
  - intros d name e m m1 _ _ Ha Hm.
    pose proof (attempt_success_command _ _ _ Ha) as Hcmd.
    apply attempt_frame in Ha as (_ & Hf & _).
    destruct (record_flow_frame d name e m1) as (_ & _ & (fr & Hf' & Hact & Hel & _) & _).
    rewrite Hf', Hf. apply Forall_app. split; [done|].
    constructor; [|constructor]. by rewrite Hact, Hel.
  - intros m. destruct (back_up_frame m) as [Hs _]. by rewrite Hs.
Qed.



End Attempts.

(** ** Screen states, and a run from a fresh explorer *)

Section Screens.
Context `{Python} {W : Type} `{Backend W}.
Context (json_dumps : json -> str).
Implicit Types m : machine W.

Lemma exec_screens lo k c m0 o m0' :
  exec c m0 o m0' -> call_within lo k c ->
  exists new, screen_states (self m0') = screen_states (self m0) ++ new
              /\ Forall (fun st => lo <= ss_depth st <= k) new.
Proof.
  intros Hex Hc.
  eapply (exec_invariant lo k
            (fun m => exists new, screen_states (self m) = screen_states (self m0) ++ new
                                  /\ Forall (fun st => lo <= ss_depth st <= k) new));
    [..|exact Hex|exact Hc|]; clear.
  - intros d m h m1 _ [Hs _]%observe_frame. by rewrite Hs.
  - intros d m name m2 [Hs _]%shoot_screen_frame. by rewrite Hs.
  - intros d name clickable m Hd (new & Hnew & Hall).
    destruct (store_screen_frame d name clickable m) as (_ & _ & (st & Hst & Hdepth & _) & _).
    exists (new ++ [st]). rewrite Hst, Hnew, <- app_assoc. split; [done|].
    apply Forall_app. split; [done|]. constructor; [|constructor]. by rewrite Hdepth.
  - intros e m m1 _ (_ & _ & Hs & _)%attempt_frame. by rewrite Hs.
  - intros d name e m m1 _ _ (_ & _ & Hs & _)%attempt_frame.
    destruct (record_flow_frame d name e m1) as (_ & Hs' & _). by rewrite Hs', Hs.
  - intros m. destruct (back_up_frame m) as [Hs _]. by rewrite Hs.
  - exists []. by rewrite app_nil_r.
Qed.

(** What holds at the end of every run of a fresh explorer, however the run
    ends. *)
Lemma run_from_init max_depth app platform (w : W) :
  let m' := (run_exploration json_dumps max_depth (init app platform w)).2 in
  consistent m' /\ marked_first (trace m') /\ flows_sound m'
  /\ Forall (fun st => 0 <= ss_depth st <= max_depth) (screen_states (self m')).
Proof.
  intros m'. split; [apply run_exploration_consistent|].
  destruct (run_exploration_unfold json_dumps max_depth (init app platform w))
    as (_ & Hs & Ht & _). fold m' in Hs, Ht.
  set (m0 := set_world (time_time (world (init app platform w))).2 (init app platform w))
    in *.
  destruct (explore_screen_exec 0 max_depth m0) as [Hex _].
  assert (self m0 = self (init app platform w) /\ trace m0 = []) as [Hs0 Ht0].
  { unfold m0, init. by destruct (datetime_now w). }
  assert (discovered_flows (self m0) = [] /\ screen_states (self m0) = []) as [Hf0 Hss0].
  { rewrite Hs0. unfold init. by destruct (datetime_now w). }
  repeat split.
  - rewrite Ht. apply (marked_first_exec _ _ _ _ _ Hex). rewrite Ht0. by intros i id ok.
  - unfold flows_sound. rewrite Hs. apply (flows_sound_exec _ _ _ _ _ Hex).
    unfold flows_sound. rewrite Hf0. constructor.
  - rewrite Hs. destruct (exec_screens 0 max_depth _ _ _ _ Hex) as (new & -> & Hall);
      [done|]. by rewrite Hss0.
Qed.

End Screens.

(** ** The parser *)

Section Parser.
Context `{Python}.
Variable visited : gset str.

Lemma parsed_nil : parsed visited [] [].
Proof. repeat split; constructor. Qed.

Lemma parsed_app a na b nb :
  parsed visited a na -> parsed visited b nb -> parsed visited (a ++ b) (na ++ nb).
Proof.
  intros (Ha & Fa & Ia) (Hb & Fb & Ib). split; [|split].
  - unfold unvisited_elements in *.
    by rewrite fmap_app, filter_app, fmap_app, filter_app, Ha, Hb.
  - by apply Forall_app.
  - rewrite filter_app, fmap_app. by apply Forall_app.
Qed.

Lemma visit_node_parsed node path here :
  visit_node visited node path = Ok here -> parsed visited here [(node, path)].
Proof.
  unfold visit_node. intros Hv.
  destruct (dict_get (py "attributes") (JDict []) node)
    as [| | | | | |attrs] eqn:Eattrs; try done.
  assert (attributes_of node = attrs) as Hao.
  { unfold attributes_of. by rewrite Eattrs. }
  unfold parsed, unvisited_elements. rewrite filter_cons, filter_nil.
  unfold interactable. cbn [fst]. rewrite Hao.
  destruct (eq_str (dict_get (py "clickable") JNull attrs) (py "true")) eqn:Ec.
  2:{ injection Hv as <-. rewrite decide_False by done. repeat split; constructor. }
  rewrite decide_True by done. cbn [fmap list_fmap].
  rewrite filter_cons, filter_nil. unfold unvisited, element_at. cbn [fst snd].
  rewrite Hao.
  match type of Hv with context [_create_identifier ?x] =>
    destruct (_create_identifier x) as [id|] eqn:Eid end; cbn in Hv; [|done].
  assert (Forall (fun e : element_info => exists id, _create_identifier e = Ok id)
            [ {| text := dict_get (py "text") (JStr []) attrs;
                 accessibilityText := dict_get (py "accessibilityText") (JStr []) attrs;
                 resource_id := dict_get (py "resource-id") (JStr []) attrs;
                 bounds := dict_get (py "bounds") (JStr []) attrs;
                 class := dict_get (py "class") (JStr []) attrs;
                 path := path |} ]) as Hids.
  { constructor; [by exists id | constructor]. }
  case_bool_decide as Hin; injection Hv as <-.
  - rewrite decide_True by done. split; [done|]. split; [|done]. by repeat constructor.
  - rewrite decide_False by done. split; [done|]. split; [constructor | done].
Qed.

Lemma for_each_parsed (pf : nat -> str) cs :
  Forall (fun c => forall path els, traverse visited c path = Ok els ->
                                    parsed visited els (nodes c path)) cs ->
  forall i r,
    for_each (fun c i => traverse visited c (pf i)) cs i = Ok r ->
    parsed visited r (concat_each (fun c i => nodes c (pf i)) cs i).
Proof.
  induction 1 as [|c cs Hc _ IH]; intros i r; cbn.
  - intros [= <-]. apply parsed_nil.
  - destruct (traverse visited c (pf i)) as [a|] eqn:Ea; cbn; [|done].
    destruct (for_each _ cs (S i)) as [b|] eqn:Eb; cbn; [|done].
    intros [= <-]. apply parsed_app; [by apply Hc | by apply IH].
Qed.

Lemma traverse_parsed_items snapshot :
  (forall path els,
      traverse visited snapshot path = Ok els -> parsed visited els (nodes snapshot path))
  /\ (forall cs, snapshot = JList cs ->
       Forall (fun c => forall path els, traverse visited c path = Ok els ->
                                         parsed visited els (nodes c path)) cs).
Proof.
  induction snapshot as [|b|z|f|s|items IH|items IH] using json_ind;
    (split; [intros path els|intros cs; try done]);
    try (intros [= <-]; apply parsed_nil).
  - cbn. apply for_each_parsed. eapply Forall_impl; [exact IH|]. by intros c [Hc _].
  - intros [= <-]. eapply Forall_impl; [exact IH|]. by intros c [Hc _].
  - cbn [traverse nodes].
    destruct (visit_node visited items path) as [here|] eqn:Eh; cbn; [|done].
    apply visit_node_parsed in Eh.
    match goal with |- context [dict_case ?k ?a ?f items] =>
      destruct (dict_case k a f items) as [rest|] eqn:Er end; cbn; [|done].
    intros [= <-]. apply (parsed_app _ [_]); [done|].
    clear Eh here. revert rest Er.
    induction IH as [|[key v] items Hv _ IHitems]; cbn; intros rest.
    + intros [= <-]. apply parsed_nil.
    + case_bool_decide; [|by apply IHitems].
      destruct Hv as [_ Hv]. cbn in Hv.
      destruct v as [| | | | |cs|]; try done;
        try (intros [= <-]; apply parsed_nil).
      apply for_each_parsed. by apply Hv.
Qed.

Lemma traverse_parsed snapshot path els :
  traverse visited snapshot path = Ok els -> parsed visited els (nodes snapshot path).
Proof. apply traverse_parsed_items. Qed.

(** The parser returns, in pre-order, the interactable elements of the
    snapshot that the Frontier does not hold. *)
Lemma find_clickable_elements_parsed hierarchy els :
  find_clickable_elements visited hierarchy = Ok els ->
  info <$> els
  = filter (fun e => unvisited visited e = true) (interactable_elements hierarchy)
  /\ Forall (fun e : element => _create_identifier e = Ok (identifier e)
                                /\ identifier e ∉ visited) els
  /\ Forall (fun e : element_info => exists id, _create_identifier e = Ok id)
            (interactable_elements hierarchy).
Proof.
  unfold find_clickable_elements. intros Hf.
  assert (parsed visited els (nodes hierarchy [])) as (Hinfo & Hid & Hall).
  { destruct (truthy hierarchy) eqn:Et; cbn in Hf; [by apply traverse_parsed|].
    injection Hf as <-.
    destruct hierarchy as [|[]|z|[]|[]|[]|[]]; try done; try apply parsed_nil. }
  split; [done|]. split; [|done].
  apply Forall_forall. intros e He.
  pose proof (proj1 (Forall_forall _ _) Hid e He) as Hide. split; [done|].
  assert (info e ∈ info <$> els) as Hin by (by apply list_elem_of_fmap_2).
  rewrite Hinfo in Hin. unfold unvisited_elements in Hin.
  apply list_elem_of_filter in Hin as [Hun _]. unfold unvisited in Hun.
  rewrite Hide in Hun. by apply bool_decide_eq_true in Hun.
Qed.

End Parser.

(** ** Well-shaped snapshots never raise *)

Section WellShaped.
Context `{Python}.

Lemma visit_node_returns visited node path :
  node_typed node -> exists here, visit_node visited node path = Ok here.
Proof.
  unfold node_typed, visit_node.
  destruct (dict_get (py "attributes") (JDict []) node) as [| | | | | |attrs]; try done.
  destruct (eq_str (dict_get (py "clickable") JNull attrs) (py "true")); [|by eexists].
  intros Htyped. destruct (Htyped eq_refl) as (Ht & Ha & Hr).
  unfold _create_identifier. cbn [text accessibilityText resource_id bounds].
  destruct (dict_get (py "text") _ attrs); try done.
  destruct (dict_get (py "accessibilityText") _ attrs); try done.
  destruct (dict_get (py "resource-id") _ attrs); try done.
  cbn. repeat (case_bool_decide; cbn); by eexists.
Qed.

Lemma for_each_returns visited (pf : nat -> str) cs :
  Forall (fun c => well_shaped c ->
                   forall path, exists els, traverse visited c path = Ok els) cs ->
  all_of well_shaped cs ->
  forall i, exists r, for_each (fun c i => traverse visited c (pf i)) cs i = Ok r.
Proof.
  induction 1 as [|c cs Hc _ IH]; cbn; intros Hall i; [by eexists|].
  destruct Hall as [Hwc Hall].
  destruct (Hc Hwc (pf i)) as [a ->]. destruct (IH Hall (S i)) as [b ->].
  cbn. by eexists.
Qed.

Lemma traverse_returns_items visited snapshot :
  (well_shaped snapshot -> forall path, exists els, traverse visited snapshot path = Ok els)
  /\ (forall cs, snapshot = JList cs ->
       Forall (fun c => well_shaped c ->
                        forall path, exists els, traverse visited c path = Ok els) cs).
Proof.
  induction snapshot as [|b|z|f|s|items IH|items IH] using json_ind;
    (split; [intros Hw path|intros cs; try done]); try (by eexists).
  - cbn. apply for_each_returns; [|done].
    eapply Forall_impl; [exact IH|]. by intros c [Hc _].
  - intros [= <-]. eapply Forall_impl; [exact IH|]. by intros c [Hc _].
  - cbn [traverse]. destruct Hw as [Htyped Hchildren].
    destruct (visit_node_returns visited items path Htyped) as [here ->]. cbn.
    enough (exists rest,
               dict_case (py "children") (Ok [])
                 (fun children =>
                    match children with
                    | JList cs =>
                        for_each (fun child i => traverse visited child (child_path path i))
                          cs 0%nat
                    | JDict _ | JStr _ => Ok []
                    | _ => Raise TypeError
                    end) items = Ok rest) as [rest ->] by (by eexists).
    clear Htyped here. induction IH as [|[key v] items Hv _ IHitems]; cbn in *.
    + by eexists.
    + case_bool_decide; [|by apply IHitems].
      destruct Hv as [_ Hv]. cbn in Hv.
      destruct v as [| | | | |cs|]; try done; try (by eexists).
      apply for_each_returns; [by apply Hv | done].
Qed.

Lemma find_clickable_elements_returns visited hierarchy :
  well_shaped hierarchy -> exists els, find_clickable_elements visited hierarchy = Ok els.
Proof.
  intros Hw. unfold find_clickable_elements.
  destruct (truthy hierarchy); cbn; [|by eexists].
  by apply traverse_returns_items.
Qed.

Context {W : Type} `{Backend W}.

(** When everything the decoder yields is well shaped, no call raises. *)
Lemma exec_never_raises c (m : machine W) o m' :
  (forall text v, json_loads text = Some v -> well_shaped v) ->
  exec c m o m' -> forall e, o <> Raised e.
Proof.
  intros Hdec. induction 1 as
    [ | | d k m h m1 name m2 e Hdk Ho Ht Hs Hp | | | | | | | ]; intros e'; try done.
  - exfalso. apply observe_value in Ho.
    destruct (find_clickable_elements_returns (visited_elements (self m2)) h) as [els Hels];
      [|congruence].
    subst h. destruct (maestro_hierarchy (world m)) as [[|rc out] w]; cbn; [done|].
    destruct (rc =? 0); [|done].
    destruct (json_loads (json_text out)) as [v|] eqn:Ev; cbn; [|done]. by eapply Hdec.
Qed.

(** Then every call of [explore_screen] returns. *)
Lemma explore_screen_returns d k (m : machine W) :
  (forall text v, json_loads text = Some v -> well_shaped v) ->
  (explore_screen d k m).1 = Returned.
Proof.
  intros Hdec. destruct (explore_screen_exec d k m) as [Hex Hfuel].
  pose proof (exec_never_raises _ _ _ _ Hdec Hex) as Hraise.
  destruct (explore_screen d k m).1; [done | by destruct (Hraise e) | done].
Qed.

End WellShaped.

(** ** The loop at the maximum depth *)

Section Leaf.
Context `{Python} {W : Type} `{Backend W}.
Implicit Types m : machine W.

(** Where no call descends, the loop attempts every element of a list of
    distinct identities that the Frontier does not hold, once and in order. *)
Lemma element_loop_leaf descend d k name els :
  k <= d -> NoDup (identifier <$> els) ->
  forall m,
    (forall e, e ∈ els -> identifier e ∉ visited_elements (self m)) ->
    let r := element_loop descend d k name els m in
    r.1 = Returned
    /\ exists t, trace r.2 = trace m ++ t /\ tapped t = identifier <$> els.
Proof.
  intros Hkd. induction els as [|e els IH]; intros Hnd m Hnew.
  { split; [done|]. exists []. by rewrite app_nil_r. }
  rewrite fmap_cons in Hnd. apply NoDup_cons in Hnd as [Hne Hnd].
  rewrite fmap_cons. cbn [element_loop].
  rewrite bool_decide_eq_false_2 by (apply Hnew; left).
  destruct (attempt e m) as [success m1] eqn:Ea.
  apply attempt_frame in Ea as (Hv & _ & _ & Ht).
  assert (forall m2, visited_elements (self m2) = visited_elements (self m1) ->
                     forall e', e' ∈ els -> identifier e' ∉ visited_elements (self m2))
    as Hrest.
  { intros m2 -> e' He'. rewrite Hv. intros [Heq%elem_of_singleton | Hin]%elem_of_union.
    - apply Hne. rewrite <- Heq. by apply list_elem_of_fmap_2.
    - by apply (Hnew e'); [right|]. }
  destruct success.
  - rewrite (proj2 (Z.ltb_ge d k)) by done.
    destruct (record_flow_frame d name e m1) as (Hv1 & _ & _ & Ht1).
    destruct (back_up_frame (record_flow d name e m1)) as [Hs2 Ht2].
    destruct (IH Hnd (back_up (record_flow d name e m1))) as (Hret & t & Htr & Htap).
    { apply Hrest. by rewrite Hs2, Hv1. }
    split; [done|].
    exists ([EvMark (identifier e); EvTap (identifier e) true] ++ [EvBack] ++ t).
    split; [by rewrite Htr, Ht2, Ht1, Ht, <- !app_assoc|].
    rewrite !tapped_app, Htap. done.
  - destruct (IH Hnd m1) as (Hret & t & Htr & Htap); [by apply Hrest|].
    split; [done|].
    exists ([EvMark (identifier e); EvTap (identifier e) false] ++ t).
    split; [by rewrite Htr, Ht, <- !app_assoc|].
    rewrite tapped_app, Htap. done.
Qed.

End Leaf.

(** * The properties of the specification *)

(** ** Identity of an element *)

(** C2, as stated, fails: a display text that is not empty once stripped
    does not enter the identity as it is. For the text [" Save"] the claim
    gives ["text: Save"], the code ["text:Save"]. *)
Lemma create_identifier_keeps_text_refuted :
  ~ (forall (P : Python) (e : element_info) (t : str),
        text e = JStr t -> strip t <> [] ->
        @_create_identifier P e = Ok (py "text:" ++ t)).
Proof.
  intros Hclaim.
  specialize (Hclaim (Sim.python []) (Sim.button_info " Save" "" "" "" "")
                (py " Save") eq_refl).
  assert (strip (py " Save") <> []) as Hne by (by vm_compute).
  specialize (Hclaim Hne). vm_compute in Hclaim. discriminate.
Qed.

(** C2, amended: on an element whose three labels are strings,
    [_create_identifier] returns (it does not raise) the identity chosen by
    priority among the stripped labels, with the bounds, unstripped, as the
    last resort; the element with nothing in it gets ["bounds:"]; and two
    elements whose display texts agree once stripped, and are not empty then,
    get the same identity whatever their other fields hold. *)
Theorem create_identifier_priority `{Python} (e : element_info) (t a r : str) :
  text e = JStr t -> accessibilityText e = JStr a -> resource_id e = JStr r ->
  _create_identifier e = Ok (identify t a r (fmt (bounds e)))
  /\ (t = [] -> a = [] -> r = [] -> bounds e = JStr [] ->
      _create_identifier e = Ok (py "bounds:"))
  /\ (forall (e' : element_info) (t' a' r' : str),
        text e' = JStr t' -> accessibilityText e' = JStr a' -> resource_id e' = JStr r' ->
        strip t' = strip t -> strip t <> [] ->
        _create_identifier e' = _create_identifier e).
Proof.
  intros Ht Ha Hr.
  assert (forall (x : element_info) tx ax rx,
             text x = JStr tx -> accessibilityText x = JStr ax -> resource_id x = JStr rx ->
             _create_identifier x = Ok (identify tx ax rx (fmt (bounds x)))) as Hspec.
  { intros x tx ax rx Hx1 Hx2 Hx3. unfold _create_identifier, identify.
    rewrite Hx1, Hx2, Hx3. cbn.
    repeat (case_bool_decide; cbn); congruence. }
  split; [by apply Hspec|]. split.
  - intros -> -> -> Hb. rewrite (Hspec e [] [] []) by done.
    rewrite Hb. reflexivity.
  - intros e' t' a' r' Ht' Ha' Hr' Heq Hne.
    rewrite (Hspec e t a r), (Hspec e' t' a' r') by done.
    unfold identify. rewrite Heq. by rewrite !bool_decide_eq_true_2.
Qed.

(** The priority at work: the text wins, stripped. *)
Lemma create_identifier_priority_witness :
  @_create_identifier (Sim.python [])
     (Sim.button_info "  Save " "Save the pet" "btn_save" "[0,0][10,10]" "/child[0]")
  = Ok (py "text:Save").
Proof.
  destruct (@create_identifier_priority (Sim.python [])
              (Sim.button_info "  Save " "Save the pet" "btn_save" "[0,0][10,10]" "/child[0]")
              (py "  Save ") (py "Save the pet") (py "btn_save")
              eq_refl eq_refl eq_refl) as [Hid _].
  exact Hid.
Defined.

(** ** The once-only invariant *)


(** ** The depth bound *)



(** ** A snapshot that cannot be captured *)

Section Capture.
Context `{Python} {W : Type} `{Backend W}.
Implicit Types m : machine W.



End Capture.



(** ** Generating twice *)

(** C6, as stated, fails: the script carries the time of its generation. The
    same explorer, with the same flow log, generates a different script one
    second later. *)
Lemma generate_twice_identical_refuted :
  ~ (forall (P : Python) (W : Type) (B : Backend W) (json_dumps : json -> str)
            (m m2 : machine W),
        self m2 = self m ->
        script (generate_test_files json_dumps m).1
        = script (generate_test_files json_dumps m2).1
        /\ report_dict (generate_test_files json_dumps m).1
           = report_dict (generate_test_files json_dumps m2).1).
Proof.
  intros Hclaim.
  pose (m := Sim.start [] []).
  pose (m1 := (@generate_test_files Sim.decoder _ Sim.backend Sim.dumps m).2).
  pose (m2 := set_world (@time_sleep _ Sim.backend 1 (world m1)) m1).
  destruct (Hclaim Sim.decoder _ Sim.backend Sim.dumps m m2 eq_refl) as [Hscript _].
  vm_compute in Hscript. discriminate.
Qed.

(** C6, amended: two calls of the generator on the same explorer (the same
    flow log, screen log and Frontier) produce scripts that are equal but for
    the time of generation printed in the header, and reports that are equal
    but for their time stamp; they are identical when the two calls read the
    same time. A call does not change the explorer, so the second call reads
    the logs the first one read. *)
Theorem generate_twice_same_but_time `{Python} {W : Type} `{Backend W}
    (json_dumps : json -> str) (m m2 : machine W) :
  self m2 = self m ->
  let g1 := (generate_test_files json_dumps m).1 in
  let g2 := (generate_test_files json_dumps m2).1 in
  self (generate_test_files json_dumps m).2 = self m
  /\ exists now1 now2 later1 later2 : datetime,
      script g1 = script_head (self m) ++ strftime_human now1
                  ++ script_bootstrap (self m) ++ script_sections (self m)
      /\ script g2 = script_head (self m) ++ strftime_human now2
                     ++ script_bootstrap (self m) ++ script_sections (self m)
      /\ report_dict g1
         = JDict ((py "timestamp", JStr (isoformat later1)) :: report_counts (self m))
      /\ report_dict g2
         = JDict ((py "timestamp", JStr (isoformat later2)) :: report_counts (self m))
      /\ (strftime_human now1 = strftime_human now2 -> script g1 = script g2)
      /\ (isoformat later1 = isoformat later2 -> report_dict g1 = report_dict g2).
Proof.
  intros Hself g1 g2.
  destruct (generate_test_files_frame json_dumps m) as (Hs1 & _ & now1 & later1 & Hsc1 & Hr1).
  destruct (generate_test_files_frame json_dumps m2) as (_ & _ & now2 & later2 & Hsc2 & Hr2).
  fold g1 in Hsc1, Hr1. fold g2 in Hsc2, Hr2. rewrite Hself in Hsc2, Hr2.
  split; [done|]. exists now1, now2, later1, later2.
  unfold test_content in Hsc1, Hsc2. unfold report in Hr1, Hr2.
  repeat split; try done.
  - intros Heq. by rewrite Hsc1, Hsc2, Heq.
  - intros Heq. by rewrite Hr1, Hr2, Heq.
Qed.

(** Two calls in the same second of the simulated clock. *)
Lemma generate_twice_same_but_time_witness :
  let m := Sim.start [] [] in
  let m2 := (@generate_test_files Sim.decoder _ Sim.backend Sim.dumps m).2 in
  self m2 = self m
  /\ script (@generate_test_files Sim.decoder _ Sim.backend Sim.dumps m).1
     = script (@generate_test_files Sim.decoder _ Sim.backend Sim.dumps m2).1.
Proof.
  intros m m2.
  destruct (@generate_twice_same_but_time Sim.decoder _ Sim.backend Sim.dumps m m2 eq_refl)
    as (Hself & now1 & now2 & later1 & later2 & Hs1 & Hs2 & _ & _ & _ & _).
  split; [exact Hself|]. by vm_compute.
Defined.

(** ** The generated tap step *)

(** Where an element has a label, the step of the script is the step
    [tap_element] runs. *)
Lemma script_tap_with_label `{Python} (e : element_info) :
  truthy (text e) || truthy (accessibilityText e) || truthy (resource_id e) = true ->
  exists cmd, tap_command e = Some cmd /\ script_tap e = cmd ++ nl.
Proof.
  unfold tap_command, script_tap.
  destruct (truthy (text e)); [intros _; eexists; split; [done|]; by rewrite <- !app_assoc|].
  destruct (truthy (accessibilityText e));
    [intros _; eexists; split; [done|]; by rewrite <- !app_assoc|].
  destruct (truthy (resource_id e)); [|done].
  intros _. eexists. split; [done|]. by rewrite <- !app_assoc.
Qed.

(** Where it has none, the script has no step, whatever the bounds, while
    [tap_element] taps the middle of the screen when there are bounds. *)
Lemma script_tap_without_label `{Python} (e : element_info) :
  truthy (text e) || truthy (accessibilityText e) || truthy (resource_id e) = false ->
  script_tap e = []
  /\ (truthy (bounds e) = true ->
      tap_command e
      = Some (py "- tapOn:" ++ nl ++ py "    point: " ++ dq ++ py "50%,50%" ++ dq)).
Proof.
  unfold tap_command, script_tap.
  destruct (truthy (text e)); [done|].
  destruct (truthy (accessibilityText e)); [done|].
  destruct (truthy (resource_id e)); [done|].
  intros _. split; [done|]. by intros ->.
Qed.

(** C7 against the code: an element with bounds and no label is activated
    through the position tap, the activation succeeds and is recorded, and
    the script generated from that record has no tap step at all: the section
    of the record goes from its comment straight to the wait. *)
Lemma script_omits_position_tap :
  let run := @run_exploration Sim.decoder _ Sim.backend Sim.dumps 0
               (Sim.start [Sim.shows "{icon_only}"] []) in
  exists g fr,
    run.1.2 = Some g
    /\ discovered_flows (self run.2) = [fr]
    /\ action fr = py "bounds:[0,0][48,48]"
    /\ @tap_command Sim.decoder (fr_element fr)
       = Some (py "- tapOn:" ++ nl ++ py "    point: " ++ dq ++ py "50%,50%" ++ dq)
    /\ @script_tap Sim.decoder (fr_element fr) = []
    /\ @script_flow Sim.decoder fr
       = py "# Test: bounds:[0,0][48,48]" ++ nl
         ++ py "- waitForAnimationToEnd" ++ nl
         ++ py "- takeScreenshot: " ++ dq ++ to_screen fr ++ dq ++ nl
         ++ py "- back" ++ nl
         ++ py "- waitForAnimationToEnd" ++ nl ++ nl
    /\ Sim.contains (py "tapOn") (script g) = false.
Proof.
  vm_compute. eexists _, _. repeat split; reflexivity.
Qed.

(** ** The elements of a screen state *)

Section ScreenElements.
Context `{Python} {W : Type} `{Backend W}.
Implicit Types m : machine W.

(** The Frontier only grows. *)
Lemma exec_visited_mono lo k m0 o m0' :
  exec (Explore lo k) m0 o m0' ->
  visited_elements (self m0) ⊆ visited_elements (self m0').
Proof.
  intros Hex.
  eapply (exec_invariant lo k
            (fun m => visited_elements (self m0) ⊆ visited_elements (self m)));
    [..|exact Hex|done|done]; clear.
  - intros d m h m1 _ [Hs _]%observe_frame. by rewrite Hs.
  - intros d m name m2 [Hs _]%shoot_screen_frame. by rewrite Hs.
  - intros d name clickable m _.
    destruct (store_screen_frame d name clickable m) as (Hv & _). by rewrite Hv.
  - intros e m m1 _ (Hv & _)%attempt_frame Hsub. rewrite Hv.
    by apply union_subseteq_r'.
  - intros d name e m m1 _ _ (Hv & _)%attempt_frame Hsub.
    destruct (record_flow_frame d name e m1) as (Hv' & _). rewrite Hv', Hv.
    by apply union_subseteq_r'.
  - intros m. destruct (back_up_frame m) as [Hs _]. by rewrite Hs.
Qed.

(** The screen state a call records holds what the parser returned for the
    snapshot and the Frontier of that moment. *)
Lemma explore_screen_records d k m els :
  let h := decode_hierarchy (maestro_hierarchy (world m)).1 in
  d <= k -> truthy h = true ->
  find_clickable_elements (visited_elements (self m)) h = Ok els ->
  exists st rest,
    screen_states (self (explore_screen d k m).2) = screen_states (self m) ++ st :: rest
    /\ ss_depth st = d /\ ss_elements st = els.
Proof.
  intros h Hdk Ht Hf. destruct (explore_screen_exec d k m) as [Hex _].
  inversion Hex as
    [ |? ? ? h' m1 _ Ho Hfalse|? ? ? h' m1 name m2 e _ Ho _ Hs Hraise
      |? ? ? h' m1 name m2 cl o' m'' _ Ho _ Hs Hok Hloop| | | | | | ]; subst.
  - lia.
  - apply observe_value in Ho. subst h'. fold h in Hfalse. congruence.
  - pose proof (observe_value _ _ _ _ Ho). subst h'.
    apply observe_frame in Ho as [Ho _]. apply shoot_screen_frame in Hs as [Hs _].
    rewrite Hs, Ho in Hraise. fold h in Hraise. congruence.
  - pose proof (observe_value _ _ _ _ Ho). subst h'.
    apply observe_frame in Ho as [Ho _]. apply shoot_screen_frame in Hs as [Hs _].
    rewrite Hs, Ho in Hok. fold h in Hok. assert (cl = els) as -> by congruence.
    destruct (exec_screens d k _ _ _ _ Hloop) as (rest & Hrest & _); [cbn; lia|].
    destruct (store_screen_frame d name els m2) as (_ & _ & (st & Hst & Hd & _ & He) & _).
    exists st, rest. rewrite Hrest, Hst, Hs, Ho, <- app_assoc. done.
Qed.

End ScreenElements.

(** C8, as stated, fails: a screen state does not hold the interactable
    elements whose identity the Frontier already holds. On an application
    that shows the same button again after the button is tapped, the second
    screen state has no element, although its snapshot has one interactable
    node. *)
Lemma screen_elements_all_interactable_refuted :
  let run := @explore_screen Sim.decoder _ Sim.backend 0 1
               (Sim.start [Sim.shows "{one_button}"; Sim.shows "{one_button}"] []) in
  exists st,
    screen_states (self run.2) !! 1%nat = Some st
    /\ ss_depth st = 1
    /\ ss_elements st = []
    /\ interactable_elements (@decode_hierarchy Sim.decoder (Sim.shows "{one_button}"))
       = [Sim.button_info "Home" "" "" "[0,0][100,50]" "/child[0]"].
Proof.
  vm_compute. eexists. repeat split; reflexivity.
Qed.

(** C8, amended: the screen state a call records holds, in the order of a
    pre-order traversal of the snapshot, exactly the interactable elements
    (the nodes whose clickable attribute is textually ["true"]) whose identity
    the Frontier does not hold when the snapshot is parsed, each under its
    identity; so it holds all the interactable elements when the Frontier is
    empty, as it is on the first screen of a run. *)
Theorem screen_elements_unvisited_preorder `{Python} {W : Type} `{Backend W}
    (d k : Z) (m : machine W) (els : list element) :
  let h := decode_hierarchy (maestro_hierarchy (world m)).1 in
  d <= k -> truthy h = true ->
  find_clickable_elements (visited_elements (self m)) h = Ok els ->
  (exists st rest,
      screen_states (self (explore_screen d k m).2) = screen_states (self m) ++ st :: rest
      /\ ss_depth st = d /\ ss_elements st = els)
  /\ info <$> els
     = filter (fun e => unvisited (visited_elements (self m)) e = true)
              (interactable_elements h)
  /\ Forall (fun e : element => _create_identifier e = Ok (identifier e)) els
  /\ (visited_elements (self m) = ∅ -> info <$> els = interactable_elements h).
Proof.
  intros h Hdk Ht Hf. split; [by apply explore_screen_records|].
  destruct (find_clickable_elements_parsed _ _ _ Hf) as (Hinfo & Hids & Hall).
  split; [done|]. split.
  { eapply Forall_impl; [exact Hids|]. by intros e [? _]. }
  intros Hempty. rewrite Hinfo. fold h in Hall. clear Hinfo Hids Hf.
  induction Hall as [|e es [id He] _ IH]; [done|].
  rewrite filter_cons, IH. rewrite decide_True; [done|].
  unfold unvisited. rewrite He, Hempty. apply bool_decide_eq_true_2.
  apply not_elem_of_empty.
Qed.

(** The first screen of a run holds all three buttons, in order. *)
Lemma screen_elements_unvisited_preorder_witness :
  let m := Sim.start [Sim.shows "{three_buttons}"] [] in
  exists st rest,
    screen_states (self (@explore_screen Sim.decoder _ Sim.backend 0 0 m).2)
    = screen_states (self m) ++ st :: rest
    /\ ss_depth st = 0
    /\ identifier <$> ss_elements st = [py "text:Pets"; py "text:Shop"; py "text:Settings"].
Proof.
  intros m.
  destruct (@screen_elements_unvisited_preorder Sim.decoder _ Sim.backend 0 0 m
              (Sim.parsed_three_buttons) ltac:(lia) eq_refl eq_refl)
    as ((st & rest & Hst & Hd & He) & _).
  exists st, rest. split; [exact Hst|]. split; [exact Hd|]. rewrite He. reflexivity.
Defined.

(** ** The element with nothing in it *)

Section AllEmpty.
Context `{Python} {W : Type} `{Backend W}.
Implicit Types m : machine W.

Lemma all_empty_identifier e : all_empty e -> _create_identifier e = Ok (py "bounds:").
Proof.
  intros (Ht & Ha & Hr & Hb). unfold _create_identifier.
  rewrite Ht, Ha, Hr, Hb. cbn. by rewrite app_nil_r.
Qed.

Lemma all_empty_command e : all_empty e -> tap_command e = None.
Proof.
  intros (Ht & Ha & Hr & Hb). unfold tap_command. by rewrite Ht, Ha, Hr, Hb.
Qed.

Lemma all_empty_tap e m : all_empty e -> tap_element e m = (false, m).
Proof. intros He. unfold tap_element. by rewrite (all_empty_command e He). Qed.

End AllEmpty.

(** C10: for an element whose three labels and whose bounds are all empty
    strings, [tap_element] builds no step and reports failure, leaving the
    world untouched (no call reaches the backend); the identity of the
    element is ["bounds:"], which an attempt on it puts into the Frontier
    although no flow is recorded; the Frontier only grows, and once it holds
    ["bounds:"] the parser returns no such element any more; and no flow
    record of a run is for such an element, nor is any identity attempted
    twice. *)
Theorem all_empty_element_never_activated `{Python} {W : Type} `{Backend W}
    (json_dumps : json -> str) (e : element_info) :
  all_empty e ->
  _create_identifier e = Ok (py "bounds:")
  /\ tap_command e = None
  /\ (forall m : machine W, tap_element e m = (false, m))
  /\ (forall (el : element) (m : machine W),
        info el = e -> identifier el = py "bounds:" ->
        (attempt el m).1 = false
        /\ world (attempt el m).2 = world m
        /\ py "bounds:" ∈ visited_elements (self (attempt el m).2)
        /\ discovered_flows (self (attempt el m).2) = discovered_flows (self m))
  /\ (forall (visited : gset str) (h : json) (els : list element),
        py "bounds:" ∈ visited ->
        find_clickable_elements visited h = Ok els ->
        Forall (fun x : element => ~ all_empty x) els)
  /\ (forall (d k : Z) (m : machine W),
        visited_elements (self m) ⊆ visited_elements (self (explore_screen d k m).2))
  /\ (forall (app platform : str) (w : W) (k : Z),
        let m' := (run_exploration json_dumps k (init app platform w)).2 in
        Forall (fun fr => ~ all_empty (fr_element fr)) (discovered_flows (self m'))
        /\ NoDup (tapped (trace m'))).
Proof.
  intros He. split; [by apply all_empty_identifier|].
  split; [by apply all_empty_command|].
  split; [by intros m; apply all_empty_tap|].
  split; [|split; [|split]].
  - intros el m Hel Hid. unfold attempt. rewrite Hel, Hid.
    rewrite (all_empty_tap e _ He). cbn. repeat split.
    apply elem_of_union_l. by apply elem_of_singleton.
  - intros visited h els Hin Hf.
    destruct (find_clickable_elements_parsed _ _ _ Hf) as (_ & Hids & _).
    eapply Forall_impl; [exact Hids|]. intros x [Hx Hnew] Hempty.
    rewrite (all_empty_identifier x Hempty) in Hx. injection Hx as Hx.
    apply Hnew. by rewrite <- Hx.
  - intros d k m. destruct (explore_screen_exec d k m) as [Hex _].
    exact (exec_visited_mono _ _ _ _ _ Hex).
  - intros app platform w k m'.
    destruct (run_from_init json_dumps k app platform w) as (Hc & _ & Hfs & _).
    fold m' in Hc, Hfs. split; [|by apply (consistent_once m')].
    eapply Forall_impl; [exact Hfs|]. intros fr [_ Hcmd] Hempty.
    by apply Hcmd, all_empty_command.
Qed.

(** A clickable node that carries no attribute but [clickable]. *)
Lemma all_empty_element_never_activated_witness :
  let e := Sim.button_info "" "" "" "" "/child[0]" in
  let m := Sim.start [Sim.shows "{blank_only}"] [] in
  all_empty e
  /\ @_create_identifier Sim.decoder e = Ok (py "bounds:")
  /\ @tap_element Sim.decoder _ Sim.backend e m = (false, m).
Proof.
  intros e m.
  assert (all_empty e) as He by (by repeat split).
  destruct (@all_empty_element_never_activated Sim.decoder _ Sim.backend Sim.dumps e He)
    as (Hid & _ & Htap & _).
  split; [exact He|]. split; [exact Hid | exact (Htap m)].
Defined.


(** * Further properties of the code *)

(** ** The logs are append-only *)

Section Grown.
Context `{Python} {W : Type} `{Backend W}.
Implicit Types m : machine W.

Lemma grown_refl m : grown m m.
Proof. by split; [|split; [|split; [|split]]]. Qed.

Lemma grown_trans m1 m2 m3 : grown m1 m2 -> grown m2 m3 -> grown m1 m3.
Proof.
  intros (C1 & V1 & S1 & F1 & T1) (C2 & V2 & S2 & F2 & T2).
  split; [|split; [|split; [|split]]]; by etrans.
Qed.

(** A block that leaves [self] alone and appends to the history. *)
Lemma grown_same_self m m' t :
  self m' = self m -> trace m' = trace m ++ t -> grown m m'.
Proof.
  intros Hs Ht. unfold grown. rewrite Hs, Ht.
  split; [|split; [|split; [|split]]]; try done. by apply prefix_app_r.
Qed.

Lemma store_screen_grown depth name clickable m :
  grown m (store_screen depth name clickable m).
Proof.
  unfold store_screen. destruct (datetime_now (world m)) as [now w].
  unfold grown. cbn. split; [|split; [|split; [|split]]]; try done.
  by apply prefix_app_r.
Qed.

Lemma attempt_grown e m success m1 : attempt e m = (success, m1) -> grown m m1.
Proof.
  unfold attempt. intros E.
  destruct (tap_element_frame e (visited_add (identifier e) m)) as [Hs Ht].
  destruct (tap_element e _) as [b m0]. injection E as -> <-.
  unfold grown. cbn in *. rewrite Hs, Ht. cbn.
  split; [|split; [|split; [|split]]]; try done.
  - apply union_subseteq_r.
  - rewrite <- app_assoc. by apply prefix_app_r.
Qed.

Lemma record_flow_grown depth name e m : grown m (record_flow depth name e m).
Proof.
  unfold record_flow. cbn. destruct (time_time _) as [t w].
  match goal with |- context [take_screenshot ?n ?x] =>
    destruct (take_screenshot_frame n x) as [Hs Ht] end.
  unfold grown. cbn. rewrite Hs, Ht. cbn.
  split; [|split; [|split; [|split]]]; try done. by apply prefix_app_r.
Qed.

Lemma observe_grown depth m hierarchy m1 :
  observe depth m = (hierarchy, m1) -> grown m m1.
Proof. intros [Hs Ht]%observe_frame. by eapply grown_same_self. Qed.

Lemma shoot_screen_grown depth m name m2 :
  shoot_screen depth m = (name, m2) -> grown m m2.
Proof.
  intros [Hs Ht]%shoot_screen_frame. apply (grown_same_self _ _ []); [done|].
  by rewrite app_nil_r.
Qed.

Lemma back_up_grown m : grown m (back_up m).
Proof. destruct (back_up_frame m) as [Hs Ht]. by eapply grown_same_self. Qed.

(** Every call, however it ends, only lets the explorer grow. *)
Lemma exec_grown c m o m' : exec c m o m' -> grown m m'.
Proof.
  induction 1 as
    [ d k m Hdk
    | d k m h m1 Hdk Ho Hf
    | d k m h m1 name m2 e Hdk Ho Ht Hs Hp
    | d k m h m1 name m2 cl o m' Hdk Ho Ht Hs Hp Hloop IH
    | d k name m
    | d k name e cl m o m' Hin Hloop IH
    | d k name e cl m m1 o m' Hnew Ha Hloop IH
    | d k name e cl m m1 o m' Hnew Ha Hdk Hloop IH
    | d k name e cl m m1 m2 o m' Hnew Ha Hdk Hsub IHsub Hloop IH
    | d k name e cl m m1 ex m' Hnew Ha Hdk Hsub IHsub ].
  - apply grown_refl.
  - by eapply observe_grown.
  - eapply grown_trans; [by eapply observe_grown | by eapply shoot_screen_grown].
  - eapply grown_trans; [by eapply observe_grown|].
    eapply grown_trans; [by eapply shoot_screen_grown|].
    eapply grown_trans; [apply store_screen_grown | exact IH].
  - apply grown_refl.
  - exact IH.
  - eapply grown_trans; [by eapply attempt_grown | exact IH].
  - eapply grown_trans; [by eapply attempt_grown|].
    eapply grown_trans; [apply record_flow_grown|].
    eapply grown_trans; [apply back_up_grown | exact IH].
  - eapply grown_trans; [by eapply attempt_grown|].
    eapply grown_trans; [apply record_flow_grown|].
    eapply grown_trans; [exact IHsub|].
    eapply grown_trans; [apply back_up_grown | exact IH].
  - eapply grown_trans; [by eapply attempt_grown|].
    eapply grown_trans; [apply record_flow_grown | exact IHsub].
Qed.

End Grown.


(** ** Screens and flows, counted and linked *)

Section Linked.
Context `{Python} {W : Type} `{Backend W}.
Implicit Types m : machine W.




(** When a loop runs to its end, every element it was given is in the
    Frontier, and so is every element of the screen states recorded on the
    way. *)
Lemma exec_tried c m m' :
  exec c m Returned m' ->
  exists new,
    screen_states (self m') = screen_states (self m) ++ new
    /\ Forall (screen_tried (visited_elements (self m'))) new
    /\ match c with
       | Explore _ _ => True
       | Loop _ _ _ clickable =>
           Forall (fun e : element => identifier e ∈ visited_elements (self m')) clickable
       end.
Proof.
  remember Returned as o eqn:Ho. intros Hex. revert Ho.
  induction Hex as
    [ d k m Hdk
    | d k m h m1 Hdk Ho Hf
    | d k m h m1 name m2 e Hdk Ho Ht Hs Hp
    | d k m h m1 name m2 cl o m' Hdk Ho Ht Hs Hp Hloop IH
    | d k name m
    | d k name e cl m o m' Hin Hloop IH
    | d k name e cl m m1 o m' Hnew Ha Hloop IH
    | d k name e cl m m1 o m' Hnew Ha Hdk Hloop IH
    | d k name e cl m m1 m2 o m' Hnew Ha Hdk Hdown IHdown Hloop IH
    | d k name e cl m m1 ex m' Hnew Ha Hdk Hdown IHdown ];
    intros Hret; try done;
    try (apply observe_frame in Ho as [Ho _]);
    try (apply shoot_screen_frame in Hs as [Hs _]).
  - exists []. by rewrite app_nil_r.
  - exists []. by rewrite Ho, app_nil_r.
  - destruct (store_screen_frame d name cl m2) as (_ & _ & (st & Hst & _ & _ & He) & _).
    destruct (IH Hret) as (new & Hnew & Hall & Hcl).
    exists (st :: new). rewrite Hnew, Hst, Hs, Ho, <- app_assoc. split; [done|].
    split; [|done]. constructor; [|done]. unfold screen_tried. by rewrite He.
  - exists []. by rewrite app_nil_r.
  - destruct (IH Hret) as (new & Hnew' & Hall & Hcl).
    exists new. repeat split; try done. constructor; [|done].
    by apply (exec_grown _ _ _ _ Hloop).
  - pose proof (attempt_frame _ _ _ _ Ha) as (Hv & _ & Has & _).
    destruct (IH Hret) as (new & Hnew' & Hall & Hcl).
    exists new. rewrite Hnew', Has. repeat split; try done. constructor; [|done].
    apply (exec_grown _ _ _ _ Hloop). rewrite Hv.
    apply elem_of_union_l. by apply elem_of_singleton.
  - pose proof (attempt_frame _ _ _ _ Ha) as (Hv & _ & Has & _).
    destruct (record_flow_frame d name e m1) as (Hrv & Hrs & _).
    destruct (back_up_frame (record_flow d name e m1)) as [Hb _].
    destruct (IH Hret) as (new & Hnew' & Hall & Hcl).
    exists new. rewrite Hnew', Hb, Hrs, Has. repeat split; try done. constructor; [|done].
    apply (exec_grown _ _ _ _ Hloop). rewrite Hb, Hrv, Hv.
    apply elem_of_union_l. by apply elem_of_singleton.
  - pose proof (attempt_frame _ _ _ _ Ha) as (Hv & _ & Has & _).
    destruct (record_flow_frame d name e m1) as (Hrv & Hrs & _).
    destruct (back_up_frame m2) as [Hb _].
    destruct (IHdown eq_refl) as (new1 & Hnew1 & Hall1 & _).
    destruct (IH Hret) as (new2 & Hnew2 & Hall2 & Hcl).
    pose proof (exec_grown _ _ _ _ Hloop) as (_ & Hmono & _).
    pose proof (exec_grown _ _ _ _ Hdown) as (_ & Hmono1 & _).
    exists (new1 ++ new2). rewrite Hnew2, Hb, Hnew1, Hrs, Has, <- app_assoc.
    split; [done|]. split.
    + apply Forall_app. split; [|done].
      eapply Forall_impl; [exact Hall1|]. intros st Hst. unfold screen_tried in *.
      eapply Forall_impl; [exact Hst|]. intros x Hx. apply Hmono. by rewrite Hb.
    + constructor; [|done]. apply Hmono. rewrite Hb. apply Hmono1. rewrite Hrv, Hv.
      apply elem_of_union_l. by apply elem_of_singleton.
Qed.

End Linked.


(** X3: when a call of [explore_screen] returns, every element of every
    screen state it has recorded has its identity in the Frontier: no element
    that was listed is left untried. *)
Theorem returned_call_leaves_nothing_untried `{Python} {W : Type} `{Backend W}
    (d k : Z) (m : machine W) :
  (explore_screen d k m).1 = Returned ->
  exists new,
    screen_states (self (explore_screen d k m).2) = screen_states (self m) ++ new
    /\ Forall (screen_tried (visited_elements (self (explore_screen d k m).2))) new.
Proof.
  intros Hret. destruct (explore_screen_exec d k m) as [Hex _]. rewrite Hret in Hex.
  destruct (exec_tried _ _ _ Hex) as (new & Hnew & Hall & _). by exists new.
Qed.

(** A run over two screens, with a button that cannot be tapped. *)
Lemma returned_call_leaves_nothing_untried_witness :
  let m := Sim.start [Sim.shows "{three_buttons}"; Sim.shows "{one_button}"] [py "Shop"] in
  let r := @explore_screen Sim.decoder _ Sim.backend 0 1 m in
  r.1 = Returned
  /\ exists new, screen_states (self r.2) = screen_states (self m) ++ new
                 /\ Forall (screen_tried (visited_elements (self r.2))) new.
Proof.
  split; [by vm_compute|].
  apply (@returned_call_leaves_nothing_untried Sim.decoder _ Sim.backend 0 1).
  by vm_compute.
Defined.



(** ** The figures of the summary *)

Lemma loop_trace_backs k c d t :
  loop_trace k c d t -> (length (backs t) <= length (succeeded t))%nat.
Proof.
  induction 1 as [d|c d id t Ht IH|c d id t Hdk Ht IH
                  |c d id sub t Hdk Hsub IHsub Ht IH|d id Hdk|d id sub Hdk Hsub IHsub].
  - done.
  - exact IH.
  - change (S (length (backs t)) <= S (length (succeeded t)))%nat. lia.
  - change (length (backs (sub ++ EvBack :: t))
            <= S (length (succeeded (sub ++ EvBack :: t))))%nat.
    rewrite backs_app, succeeded_app, !length_app.
    change (backs (EvBack :: t)) with (() :: backs t).
    change (succeeded (EvBack :: t)) with (succeeded t). cbn [length]. lia.
  - cbn. lia.
  - change (length (backs sub) <= S (length (succeeded sub)))%nat. lia.
Qed.


(** ** Grouping the flows by origin screen *)

Section Grouping.
Implicit Types g : list (str * list flow_record).

Lemma group_append_keys s f g :
  (group_append s f g).*1 = if decide (s ∈ g.*1) then g.*1 else g.*1 ++ [s].
Proof.
  induction g as [|[s0 fs0] g IH]; cbn; [by rewrite decide_False by apply not_elem_of_nil|].
  case_bool_decide as Hs; cbn.
  - subst s0. rewrite decide_True; [done | left].
  - rewrite IH. destruct (decide (s ∈ g.*1)) as [Hin|Hout].
    + rewrite decide_True; [done | by right].
    + rewrite decide_False; [done|]. intros [->|?]%elem_of_cons; done.
Qed.

Lemma group_append_sizes s f g :
  sum_list (length <$> (group_append s f g).*2) = S (sum_list (length <$> g.*2)).
Proof.
  induction g as [|[s0 fs0] g IH]; cbn; [done|].
  case_bool_decide; cbn.
  - rewrite length_app. cbn. lia.
  - rewrite IH. lia.
Qed.

Lemma group_append_elem s f g s' fs' :
  NoDup g.*1 ->
  (s', fs') ∈ group_append s f g ->
  (s' <> s /\ (s', fs') ∈ g)
  \/ (s' = s /\ ((exists fs, (s, fs) ∈ g /\ fs' = fs ++ [f]) \/ ((s ∉ g.*1) /\ fs' = [f]))).
Proof.
  induction g as [|[s0 fs0] g IH]; cbn; intros Hnd Hin.
  - apply list_elem_of_singleton in Hin as [= -> ->]. right. split; [done|]. right.
    split; [apply not_elem_of_nil | done].
  - apply NoDup_cons in Hnd as [Hs0 Hnd]. case_bool_decide as Hs.
    + subst s0. apply elem_of_cons in Hin as [[= -> ->] | Hin].
      * right. split; [done|]. left. exists fs0. split; [left | done].
      * left. split; [|by right]. intros ->. apply Hs0.
        change s with (s, fs').1. by apply list_elem_of_fmap_2.
    + apply elem_of_cons in Hin as [[= -> ->] | Hin]; [left; split; [done | left]|].
      destruct (IH Hnd Hin) as [[Hne Hg] | [-> [(fs & Hg & ->) | [Hout ->]]]].
      * left. split; [done | by right].
      * right. split; [done|]. left. exists fs. split; [by right | done].
      * right. split; [done|]. right. split; [|done].
        intros [->|?]%elem_of_cons; done.
Qed.

Lemma flows_by_screen_snoc flows f :
  flows_by_screen (flows ++ [f]) = group_append (from_screen f) f (flows_by_screen flows).
Proof. unfold flows_by_screen. by rewrite foldl_app. Qed.

Lemma filter_screen_absent s (flows : list flow_record) :
  s ∉ from_screen <$> flows -> filter (fun f => from_screen f = s) flows = [].
Proof.
  induction flows as [|f flows IH]; [done|]. rewrite fmap_cons, not_elem_of_cons.
  intros [Hne Hout]. rewrite filter_cons, decide_False by done. by apply IH.
Qed.

Lemma flows_by_screen_spec flows :
  let g := flows_by_screen flows in
  NoDup g.*1
  /\ (forall s, s ∈ g.*1 <-> s ∈ from_screen <$> flows)
  /\ (forall s fs, (s, fs) ∈ g -> fs = filter (fun f => from_screen f = s) flows)
  /\ sum_list (length <$> g.*2) = length flows.
Proof.
  induction flows as [|f flows (Hnd & Hkeys & Hgroups & Hsum)] using rev_ind.
  { cbn. repeat split; try done; try constructor. by intros s fs ?%elem_of_nil. }
  rewrite flows_by_screen_snoc. cbn zeta in *.
  set (g := flows_by_screen flows) in *. set (s0 := from_screen f).
  split; [|split; [|split]].
  - rewrite group_append_keys. destruct (decide (s0 ∈ g.*1)); [done|].
    apply NoDup_app. repeat split; [done| |apply NoDup_singleton].
    by intros x Hx ->%list_elem_of_singleton.
  - intros s. rewrite group_append_keys, fmap_app, elem_of_app, <- Hkeys. cbn.
    rewrite list_elem_of_singleton. fold s0.
    destruct (decide (s0 ∈ g.*1)) as [Hin|Hout].
    + split; [by left | intros [?| ->]; done].
    + by rewrite elem_of_app, list_elem_of_singleton.
  - intros s fs Hin. rewrite filter_app, filter_cons, filter_nil. fold s0.
    destruct (group_append_elem _ _ _ _ _ Hnd Hin)
      as [[Hne Hg] | [-> [(fs0 & Hg & ->) | [Hout ->]]]].
    + rewrite decide_False by done. rewrite app_nil_r. by apply Hgroups.
    + rewrite decide_True by done. by rewrite <- (Hgroups _ _ Hg).
    + rewrite decide_True by done. rewrite filter_screen_absent; [done|].
      by rewrite <- Hkeys.
  - rewrite group_append_sizes, Hsum, length_app. cbn. lia.
Qed.

End Grouping.

(** X6: the sections of the generated script. The flows are grouped under
    their origin screens without loss or repetition: no screen has two
    groups, the screens with a group are exactly the origin screens of the
    flow log, the group of a screen holds exactly the flows that start from
    it, in the order they were recorded, and the sizes of the groups add up
    to the number of flows. *)
Theorem flows_by_screen_partitions (flows : list flow_record) :
  NoDup (flows_by_screen flows).*1
  /\ (forall s, s ∈ (flows_by_screen flows).*1 <-> s ∈ from_screen <$> flows)
  /\ (forall s fs, (s, fs) ∈ flows_by_screen flows ->
                   fs = filter (fun f => from_screen f = s) flows /\ fs <> [])
  /\ sum_list (length <$> (flows_by_screen flows).*2) = length flows.
Proof.
  destruct (flows_by_screen_spec flows) as (Hnd & Hkeys & Hgroups & Hsum).
  repeat split; try done; try (by apply Hkeys).
  - by apply Hgroups.
  - rewrite (Hgroups s fs) by done. intros Hempty.
    assert (s ∈ from_screen <$> flows) as (f & -> & Hf)%list_elem_of_fmap.
    { apply Hkeys. change s with (s, fs).1. by apply list_elem_of_fmap_2. }
    assert (f ∈ filter (fun f0 => from_screen f0 = from_screen f) flows) as Hin.
    { by apply list_elem_of_filter. }
    rewrite Hempty in Hin. by apply elem_of_nil in Hin.
Qed.

(** ** The text handed to the JSON decoder *)

Section Banner.

Lemma split_nonempty sep s : split sep s <> [].
Proof. destruct s as [|c s]; cbn; [done|]. destruct (c =? sep)%N; [done|]. by destruct (split sep s). Qed.

Lemma join_cons_char sep c l ls : join sep ((c :: l) :: ls) = c :: join sep (l :: ls).
Proof. by destruct ls. Qed.

Lemma join_split (s : str) : join nl (split 10%N s) = s.
Proof.
  induction s as [|c s IH]; [done|]. cbn [split].
  pose proof (split_nonempty 10%N s) as Hne.
  destruct (N.eqb_spec c 10%N) as [->|Hc].
  - destruct (split 10%N s) as [|l ls]; [done|].
    change (join nl ([] :: l :: ls)) with (nl ++ join nl (l :: ls)). by rewrite IH.
  - destruct (split 10%N s) as [|l ls]; [done|]. by rewrite join_cons_char, IH.
Qed.

Lemma join_drop_suffix (n : nat) (lines : list str) :
  join nl (drop n lines) `suffix_of` join nl lines.
Proof.
  revert n. induction lines as [|l lines IH]; intros [|n]; cbn [drop]; try done.
  etrans; [apply IH|]. destruct lines as [|l' lines]; cbn [join].
  - apply suffix_nil.
  - apply suffix_app_r, suffix_app_r. done.
Qed.

Lemma json_start_from_spec (lines : list str) (i : nat) :
  match json_start_from i lines with
  | None => Forall (fun l => startswith (py "{") (strip l) = false) lines
  | Some n =>
      exists banner first rest,
        lines = banner ++ first :: rest /\ n = (i + length banner)%nat
        /\ Forall (fun l => startswith (py "{") (strip l) = false) banner
        /\ startswith (py "{") (strip first) = true
  end.
Proof.
  revert i. induction lines as [|l lines IH]; intros i; cbn [json_start_from]; [done|].
  destruct (startswith (py "{") (strip l)) eqn:Hl.
  - exists [], l, lines. repeat split; [cbn; lia | constructor | done].
  - specialize (IH (S i)). destruct (json_start_from (S i) lines) as [n|].
    + destruct IH as (banner & first & rest & -> & -> & Hb & Hf).
      exists (l :: banner), first, rest. repeat split; [cbn; lia | by constructor | done].
    + by constructor.
Qed.

End Banner.

(** X7: what [get_hierarchy] hands to the JSON decoder. Splitting the
    output at line feeds and joining it again loses nothing; the text
    decoded is a suffix of the output; and either no line starts, once
    stripped, with a brace, and the whole output is decoded, or the lines
    dropped are exactly those before the first such line. *)
Theorem json_text_drops_banner (output : str) :
  join nl (split 10%N output) = output
  /\ json_text output `suffix_of` output
  /\ ((Forall (fun l => startswith (py "{") (strip l) = false) (split 10%N output)
       /\ json_text output = output)
      \/ (exists banner first rest,
            split 10%N output = banner ++ first :: rest
            /\ Forall (fun l => startswith (py "{") (strip l) = false) banner
            /\ startswith (py "{") (strip first) = true
            /\ json_text output = join nl (first :: rest))).
Proof.
  split; [apply join_split|]. split.
  { pose proof (join_drop_suffix (default 0%nat (json_start_from 0 (split 10%N output)))
                                  (split 10%N output)) as Hsuffix.
    by rewrite join_split in Hsuffix. }
  unfold json_text. pose proof (json_start_from_spec (split 10%N output) 0) as Hspec.
  destruct (json_start_from 0 (split 10%N output)) as [n|]; cbn [default].
  - right. destruct Hspec as (banner & first & rest & Hlines & -> & Hb & Hf).
    exists banner, first, rest. repeat split; try done.
    rewrite Hlines. cbn [Nat.add id]. by rewrite drop_app_length.
  - left. split; [done|]. cbn [drop]. apply join_split.
Qed.

(** ** The snapshots the parser raises on *)

Section Misshaped.
Context `{Python}.

Lemma visit_node_typed visited node path here :
  visit_node visited node path = Ok here -> node_typed node.
Proof.
  unfold node_typed, visit_node.
  destruct (dict_get (py "attributes") (JDict []) node) as [| | | | | |attrs]; try done.
  destruct (eq_str (dict_get (py "clickable") JNull attrs) (py "true")); [|done].
  unfold _create_identifier. cbn [text accessibilityText resource_id bounds].
  intros Hv _.
  destruct (dict_get (py "text") _ attrs); try done.
  destruct (dict_get (py "accessibilityText") _ attrs); try done.
  destruct (dict_get (py "resource-id") _ attrs); try done.
Qed.

Lemma for_each_shaped visited (pf : nat -> str) cs :
  Forall (fun c => forall path els, traverse visited c path = Ok els -> well_shaped c) cs ->
  forall i r, for_each (fun c i => traverse visited c (pf i)) cs i = Ok r ->
              all_of well_shaped cs.
Proof.
  induction 1 as [|c cs Hc _ IH]; cbn; intros i r; [done|].
  destruct (traverse visited c (pf i)) as [a|] eqn:Ea; cbn; [|done].
  destruct (for_each _ cs (S i)) as [b|] eqn:Eb; cbn; [|done].
  intros _. split; [by eapply Hc | by eapply IH].
Qed.

Lemma traverse_shaped_items visited snapshot :
  (forall path els, traverse visited snapshot path = Ok els -> well_shaped snapshot)
  /\ (forall cs, snapshot = JList cs ->
       Forall (fun c => forall path els, traverse visited c path = Ok els -> well_shaped c) cs).
Proof.
  induction snapshot as [|b|z|f|s|items IH|items IH] using json_ind;
    (split; [intros path els|intros cs; try done]); try done.
  - cbn. apply for_each_shaped. eapply Forall_impl; [exact IH|]. by intros c [Hc _].
  - intros [= <-]. eapply Forall_impl; [exact IH|]. by intros c [Hc _].
  - cbn [traverse well_shaped].
    destruct (visit_node visited items path) as [here|] eqn:Eh; cbn; [|done].
    apply visit_node_typed in Eh.
    match goal with |- context [dict_case ?k ?a ?f items] =>
      destruct (dict_case k a f items) as [rest|] eqn:Er end; cbn; [|done].
    intros _. split; [done|]. clear Eh here. revert rest Er.
    induction IH as [|[key v] items Hv _ IHitems]; cbn; intros rest; [done|].
    case_bool_decide; [|by apply IHitems].
    destruct Hv as [_ Hv]. cbn in Hv.
    destruct v as [| | | | |cs|]; try done.
    apply for_each_shaped. by apply Hv.
Qed.

Lemma falsy_well_shaped hierarchy : truthy hierarchy = false -> well_shaped hierarchy.
Proof. by destruct hierarchy as [|[]|z|[]|[]|[]|[]]. Qed.

Lemma find_clickable_elements_misshaped visited hierarchy :
  ~ well_shaped hierarchy ->
  truthy hierarchy = true /\ exists e, find_clickable_elements visited hierarchy = Raise e.
Proof.
  intros Hw. destruct (truthy hierarchy) eqn:Et; [|by destruct Hw; apply falsy_well_shaped].
  split; [done|]. unfold find_clickable_elements. rewrite Et. cbn [negb].
  destruct (traverse visited hierarchy []) as [els|e] eqn:Etr; [|by exists e].
  destruct Hw. by eapply (traverse_shaped_items visited hierarchy).
Qed.

Context {W : Type} `{Backend W}.

Lemma explore_screen_misshaped d k (m : machine W) h m1 :
  d <= k -> observe d m = (h, m1) -> ~ well_shaped h ->
  exists e, explore_screen d k m = (Raised e, (shoot_screen d m1).2).
Proof.
  intros Hdk Ho Hw. unfold explore_screen. cbn [explore_fuel].
  destruct (Z.ltb_spec k d) as [Hlt|_]; [lia|]. rewrite Ho.
  destruct (shoot_screen d m1) as [name m2] eqn:Es. cbn [snd].
  destruct (find_clickable_elements_misshaped (visited_elements (self m2)) h Hw)
    as [-> [e ->]].
  by exists e.
Qed.

End Misshaped.

(** X8: the snapshots [find_clickable_elements] raises on. Whatever the
    Frontier holds, the parser returns a list exactly when the snapshot is
    well shaped: the attributes of every node it reaches are an object, the
    three labels of every clickable node are strings, and the children of a
    node are a list of such nodes, an object or a string. On every other
    snapshot it raises. *)
Theorem parser_returns_iff_well_shaped `{Python} (visited : gset str) (hierarchy : json) :
  (exists els, find_clickable_elements visited hierarchy = Ok els) <-> well_shaped hierarchy.
Proof.
  split; [|apply find_clickable_elements_returns].
  unfold find_clickable_elements. intros [els Hels].
  destruct (truthy hierarchy) eqn:Et; cbn in Hels; [|by apply falsy_well_shaped].
  by eapply (traverse_shaped_items visited hierarchy).
Qed.

(** ** Screenshots do not steer the exploration *)

Section Screencap.
Context `{Python} {W : Type} (B : Backend W).
Variable screencap : str -> W -> bool * W.
Implicit Types m : machine W.

Lemma same_effect_grown m m' :
  @grown W m m' -> same_effect B screencap m -> same_effect B screencap m'.
Proof.
  intros (Hc & _) Hm Hp. apply Hm. unfold config in Hc.
  injection Hc as _ Hplat _. by rewrite <- Hplat.
Qed.

Lemma take_screenshot_screencap name m :
  same_effect B screencap m ->
  (@take_screenshot W (with_screencap B screencap) name m).2
  = (@take_screenshot W B name m).2.
Proof.
  intros Hm. unfold take_screenshot. case_bool_decide as Hp; [|done].
  cbn [adb_screencap with_screencap].
  pose proof (Hm Hp (screenshots_dir (self m) ++ py "/" ++ name ++ py ".png") (world m)) as Hw.
  destruct (screencap _ (world m)) as [ok1 w1], (@adb_screencap W B _ (world m)) as [ok2 w2].
  cbn in Hw. by subst.
Qed.

Lemma shoot_screen_screencap depth m :
  same_effect B screencap m ->
  @shoot_screen W (with_screencap B screencap) depth m = @shoot_screen W B depth m.
Proof.
  intros Hm. unfold shoot_screen. cbn [time_time with_screencap].
  destruct (@time_time W B (world m)) as [t w].
  by rewrite (take_screenshot_screencap _ (set_world w m)).
Qed.

Lemma record_flow_screencap depth name e m :
  same_effect B screencap m ->
  @record_flow W (with_screencap B screencap) depth name e m = @record_flow W B depth name e m.
Proof.
  intros Hm. unfold record_flow. cbn [time_time time_sleep with_screencap].
  destruct (@time_time W B _) as [t w].
  by rewrite (take_screenshot_screencap _ (set_world w _)).
Qed.

Lemma element_loop_screencap descend' descend depth max_depth name :
  (depth < max_depth ->
   forall m, same_effect B screencap m ->
             descend' m = descend m /\ @grown W m (descend m).2) ->
  forall clickable m,
    same_effect B screencap m ->
    @element_loop _ W (with_screencap B screencap) descend' depth max_depth name clickable m
    = @element_loop _ W B descend depth max_depth name clickable m.
Proof.
  intros Hd. induction clickable as [|e els IH]; intros m Hm; [done|]. cbn [element_loop].
  case_bool_decide as Hin; [by apply IH|].
  change (@attempt _ W (with_screencap B screencap) e m) with (@attempt _ W B e m).
  destruct (@attempt _ W B e m) as [[] m1] eqn:Ea; [|apply IH].
  2:{ eapply same_effect_grown; [|exact Hm]. by eapply attempt_grown. }
  assert (same_effect B screencap m1) as Hm1.
  { eapply same_effect_grown; [|exact Hm]. by eapply attempt_grown. }
  rewrite (record_flow_screencap _ _ _ _ Hm1).
  assert (same_effect B screencap (@record_flow W B depth name e m1)) as Hm2.
  { eapply same_effect_grown; [|exact Hm1]. apply record_flow_grown. }
  change (@back_up W (with_screencap B screencap)) with (@back_up W B).
  destruct (Z.ltb_spec depth max_depth) as [Hlt|Hge].
  - destruct (Hd Hlt _ Hm2) as [-> Hgrown].
    destruct (descend _) as [o m3]; cbn [snd] in Hgrown. destruct o; try done.
    apply IH. eapply same_effect_grown; [apply back_up_grown|].
    by eapply same_effect_grown.
  - apply IH. eapply same_effect_grown; [apply back_up_grown | done].
Qed.

Lemma explore_fuel_screencap fuel :
  forall depth max_depth m,
    (Z.to_nat (max_depth - depth) < fuel)%nat ->
    same_effect B screencap m ->
    @explore_fuel _ W (with_screencap B screencap) fuel depth max_depth m
    = @explore_fuel _ W B fuel depth max_depth m.
Proof.
  induction fuel as [|fuel IH]; intros depth max_depth m Hfuel Hm; [lia|].
  cbn [explore_fuel].
  destruct (Z.ltb_spec max_depth depth) as [Hlt|Hge]; [done|].
  change (@observe _ W (with_screencap B screencap)) with (@observe _ W B).
  destruct (@observe _ W B depth m) as [hierarchy m1] eqn:Eo.
  destruct (truthy hierarchy); cbn [negb]; [|done].
  assert (same_effect B screencap m1) as Hm1.
  { eapply same_effect_grown; [|exact Hm]. by eapply observe_grown. }
  rewrite (shoot_screen_screencap _ _ Hm1).
  destruct (@shoot_screen W B depth m1) as [name m2] eqn:Es.
  destruct (find_clickable_elements _ hierarchy) as [clickable|e]; [|done].
  change (@store_screen W (with_screencap B screencap)) with (@store_screen W B).
  apply element_loop_screencap.
  - intros Hlt m' Hm'. split; [apply IH; [lia | done]|].
    edestruct (@explore_fuel_exec _ W B fuel (depth + 1) max_depth m') as [Hex _]; [lia|].
    exact (exec_grown _ _ _ _ Hex).
  - eapply same_effect_grown; [apply store_screen_grown|].
    eapply same_effect_grown; [by eapply shoot_screen_grown | done].
Qed.

End Screencap.

(** X9: screenshots do not steer the exploration. On a platform other than
    android the capture command is never run, and on android what it reports
    is ignored: with any other command in its place (one that, on android,
    leaves the device as the original does) a call of [explore_screen] ends
    the same way, in the same state of the explorer and of the world. A
    screenshot name in the logs is therefore no evidence of a captured file. *)
Theorem screenshots_do_not_steer `{Python} {W : Type} (B : Backend W)
    (screencap : str -> W -> bool * W) (json_dumps : json -> str) (d k : Z) (m : machine W) :
  same_effect B screencap m ->
  @explore_screen _ W (with_screencap B screencap) d k m = @explore_screen _ W B d k m
  /\ @run_exploration _ W (with_screencap B screencap) json_dumps k m
     = @run_exploration _ W B json_dumps k m.
Proof.
  intros Hm. split.
  - unfold explore_screen. apply explore_fuel_screencap; [lia | done].
  - unfold run_exploration, explore_screen. cbn [time_time with_screencap].
    destruct (@time_time W B (world m)) as [t w].
    by rewrite explore_fuel_screencap by (done || lia).
Qed.

Lemma screenshots_do_not_steer_witness :
  let m := Sim.start [Sim.shows "{one_button}"; Sim.shows "{icon_only}"] [] in
  @explore_screen Sim.decoder _ (with_screencap Sim.backend (fun _ w => (false, w))) 0 1 m
  = @explore_screen Sim.decoder _ Sim.backend 0 1 m
  /\ @run_exploration Sim.decoder _ (with_screencap Sim.backend (fun _ w => (false, w)))
       Sim.dumps 1 m
     = @run_exploration Sim.decoder _ Sim.backend Sim.dumps 1 m.
Proof.
  apply (@screenshots_do_not_steer Sim.decoder _ Sim.backend (fun _ w => (false, w))
           Sim.dumps 0 1).
  intros _ name w. reflexivity.
Defined.

(** X10: a snapshot that is not well shaped aborts the run. When the
    snapshot a call of [explore_screen] obtains is not well shaped, the call
    raises right after the screenshot: no screen state is stored, nothing is
    activated, and the explorer is left as the screenshot left it. When this
    happens to the first call of a run, the run raises the same exception and
    generates no file. *)
Theorem misshaped_snapshot_aborts `{Python} {W : Type} `{Backend W}
    (json_dumps : json -> str) (d k : Z) (m : machine W) (h : json) (m1 : machine W) :
  d <= k -> observe d m = (h, m1) -> ~ well_shaped h ->
  exists e,
    explore_screen d k m = (Raised e, (shoot_screen d m1).2)
    /\ self (shoot_screen d m1).2 = self m
    /\ trace (shoot_screen d m1).2 = trace m ++ [EvObserve d]
    /\ forall m0, d = 0 -> m = set_world (time_time (world m0)).2 m0 ->
                  run_exploration json_dumps k m0 = (Raised e, None, (shoot_screen d m1).2).
Proof.
  intros Hdk Ho Hw. destruct (explore_screen_misshaped d k m h m1 Hdk Ho Hw) as [e He].
  exists e. split; [done|].
  destruct (observe_frame _ _ _ _ Ho) as [Hs Ht].
  destruct (shoot_screen d m1) as [name m2] eqn:Es.
  destruct (shoot_screen_frame _ _ _ _ Es) as [Hs2 Ht2]. cbn [snd] in *.
  split; [congruence|]. split; [congruence|].
  intros m0 -> ->. unfold run_exploration.
  destruct (time_time (world m0)) as [t w]. cbn [snd] in He. by rewrite He.
Qed.

Lemma misshaped_snapshot_aborts_witness :
  let m0 := Sim.start [Sim.shows "{null_attributes}"] [] in
  let m := set_world (@time_time _ Sim.backend (world m0)).2 m0 in
  exists e,
    @explore_screen null_attributes_decoder _ Sim.backend 0 3 m
    = (Raised e, (@shoot_screen _ Sim.backend 0
                    (@observe null_attributes_decoder _ Sim.backend 0 m).2).2)
    /\ @run_exploration null_attributes_decoder _ Sim.backend Sim.dumps 3 m0
       = (Raised e, None, (@shoot_screen _ Sim.backend 0
                             (@observe null_attributes_decoder _ Sim.backend 0 m).2).2).
Proof.
  intros m0 m.
  destruct (@misshaped_snapshot_aborts null_attributes_decoder _ Sim.backend Sim.dumps
              0 3 m null_attributes (@observe null_attributes_decoder _ Sim.backend 0 m).2)
    as (e & He & _ & _ & Hrun).
  - lia.
  - reflexivity.
  - vm_compute. tauto.
  - exists e. split; [exact He | by apply Hrun].
Defined.

(** ** Identities of different kinds *)

Section Kinds.
Context `{Python}.

Lemma kind_text_acc x y : py "text:" ++ x <> py "acc:" ++ y.
Proof. done. Qed.
Lemma kind_text_id x y : py "text:" ++ x <> py "id:" ++ y.
Proof. done. Qed.
Lemma kind_text_bounds x y : py "text:" ++ x <> py "bounds:" ++ y.
Proof. done. Qed.
Lemma kind_acc_id x y : py "acc:" ++ x <> py "id:" ++ y.
Proof. done. Qed.
Lemma kind_acc_bounds x y : py "acc:" ++ x <> py "bounds:" ++ y.
Proof. done. Qed.
Lemma kind_id_bounds x y : py "id:" ++ x <> py "bounds:" ++ y.
Proof. done. Qed.

Lemma create_identifier_cases (e : element_info) (i : str) :
  _create_identifier e = Ok i ->
  exists t a r,
    py_strip (text e) = Ok t /\ py_strip (accessibilityText e) = Ok a
    /\ py_strip (resource_id e) = Ok r
    /\ ((t <> [] /\ i = py "text:" ++ t)
        \/ (t = [] /\ a <> [] /\ i = py "acc:" ++ a)
        \/ (t = [] /\ a = [] /\ r <> [] /\ i = py "id:" ++ r)
        \/ (t = [] /\ a = [] /\ r = [] /\ i = py "bounds:" ++ fmt (bounds e))).
Proof.
  unfold _create_identifier.
  destruct (py_strip (text e)) as [t|]; cbn; [|done].
  destruct (py_strip (accessibilityText e)) as [a|]; cbn; [|done].
  destruct (py_strip (resource_id e)) as [r|]; cbn; [|done].
  intros Hi. exists t, a, r. repeat (split; [done|]).
  repeat case_bool_decide; cbn in Hi; injection Hi as <-; tauto.
Qed.

End Kinds.

(** X11: identities of different kinds never coincide. Two elements get the
    same identity only if the label that decides it is of the same kind and
    the same once stripped: their stripped display texts are equal; where
    these are empty their stripped accessibility labels are equal; where
    those are empty too their stripped resource identifiers are equal; and
    where all three are empty their bounds are printed the same. *)
Theorem same_identity_same_label `{Python} (e1 e2 : element_info) (i : str) :
  _create_identifier e1 = Ok i -> _create_identifier e2 = Ok i ->
  py_strip (text e1) = py_strip (text e2)
  /\ (py_strip (text e1) = Ok [] ->
      py_strip (accessibilityText e1) = py_strip (accessibilityText e2)
      /\ (py_strip (accessibilityText e1) = Ok [] ->
          py_strip (resource_id e1) = py_strip (resource_id e2)
          /\ (py_strip (resource_id e1) = Ok [] ->
              fmt (bounds e1) = fmt (bounds e2)))).
Proof.
  intros (t1 & a1 & r1 & -> & -> & -> & H1)%create_identifier_cases
         (t2 & a2 & r2 & -> & -> & -> & H2)%create_identifier_cases.
  destruct H1 as [(T1 & ->) | [(T1 & A1 & ->) | [(T1 & A1 & R1 & ->) | (T1 & A1 & R1 & ->)]]];
    destruct H2 as [(T2 & E) | [(T2 & A2 & E) | [(T2 & A2 & R2 & E) | (T2 & A2 & R2 & E)]]];
    try (by destruct (kind_text_acc _ _ E));
    try (by destruct (kind_text_acc _ _ (eq_sym E)));
    try (by destruct (kind_text_id _ _ E));
    try (by destruct (kind_text_id _ _ (eq_sym E)));
    try (by destruct (kind_text_bounds _ _ E));
    try (by destruct (kind_text_bounds _ _ (eq_sym E)));
    try (by destruct (kind_acc_id _ _ E));
    try (by destruct (kind_acc_id _ _ (eq_sym E)));
    try (by destruct (kind_acc_bounds _ _ E));
    try (by destruct (kind_acc_bounds _ _ (eq_sym E)));
    try (by destruct (kind_id_bounds _ _ E));
    try (by destruct (kind_id_bounds _ _ (eq_sym E)));
    apply app_inv_head in E; subst.
  - split; [done|]. by intros [= ?].
  - split; [done|]. intros _. split; [done|]. by intros [= ?].
  - split; [done|]. intros _. split; [done|]. intros _. split; [done|]. by intros [= ?].
  - split; [done|]. intros _. split; [done|]. intros _. split; [done|]. by intros _.
Qed.

Lemma same_identity_same_label_witness :
  let e1 := Sim.button_info " Save" "store" "" "[0,0][10,10]" "/child[0]" in
  let e2 := Sim.button_info "Save  " "" "btn_save" "[5,5][20,20]" "/child[3]" in
  @py_strip (text e1) = @py_strip (text e2).
Proof.
  intros e1 e2.
  exact (proj1 (@same_identity_same_label Sim.decoder e1 e2 (py "text:Save")
                  eq_refl eq_refl)).
Defined.

(** ** Screens with nothing new, and calls beyond the maximum depth *)

Section NothingNew.
Context `{Python} {W : Type} `{Backend W}.
Implicit Types m : machine W.

Lemma filter_none {A : Type} (f : A -> bool) (l : list A) :
  Forall (fun x => f x = false) l -> filter (fun x => f x = true) l = [].
Proof.
  induction 1 as [|x l Hx _ IH]; [done|].
  rewrite filter_cons, decide_False by (by rewrite Hx). exact IH.
Qed.

Lemma find_clickable_elements_nothing_new visited hierarchy :
  well_shaped hierarchy ->
  Forall (fun e => unvisited visited e = false) (interactable_elements hierarchy) ->
  find_clickable_elements visited hierarchy = Ok [].
Proof.
  intros Hw Hall. destruct (find_clickable_elements_returns visited hierarchy Hw) as [els Hels].
  destruct (find_clickable_elements_parsed visited hierarchy els Hels) as (Hinfo & _).
  rewrite filter_none in Hinfo by done. apply fmap_nil_inv in Hinfo. by subst.
Qed.

Lemma explore_screen_too_deep d k m : k < d -> explore_screen d k m = (Returned, m).
Proof.
  intros Hlt. unfold explore_screen. cbn [explore_fuel].
  by rewrite (proj2 (Z.ltb_lt k d)).
Qed.

End NothingNew.

(** X12: a screen with nothing new on it. When the snapshot is well shaped
    and the identity of every interactable element on it is already in the
    Frontier, the call returns after recording the screen with an empty
    element list: nothing is activated, no back-navigation is attempted, and
    the Frontier and the flow log stay as they were. *)
Theorem explored_screen_left_alone `{Python} {W : Type} `{Backend W}
    (d k : Z) (m : machine W) (h : json) (m1 : machine W) :
  d <= k -> observe d m = (h, m1) -> truthy h = true -> well_shaped h ->
  Forall (fun e => unvisited (visited_elements (self m)) e = false)
         (interactable_elements h) ->
  (explore_screen d k m).1 = Returned
  /\ visited_elements (self (explore_screen d k m).2) = visited_elements (self m)
  /\ discovered_flows (self (explore_screen d k m).2) = discovered_flows (self m)
  /\ trace (explore_screen d k m).2 = trace m ++ [EvObserve d]
  /\ exists st, screen_states (self (explore_screen d k m).2) = screen_states (self m) ++ [st]
                /\ ss_depth st = d /\ ss_elements st = [].
Proof.
  intros Hdk Ho Ht Hw Hall. unfold explore_screen. cbn [explore_fuel].
  rewrite (proj2 (Z.ltb_ge k d)) by done. rewrite Ho, Ht. cbn [negb].
  destruct (observe_frame _ _ _ _ Ho) as [Hs1 Ht1].
  destruct (shoot_screen d m1) as [name m2] eqn:Es.
  destruct (shoot_screen_frame _ _ _ _ Es) as [Hs2 Ht2].
  rewrite find_clickable_elements_nothing_new; [|done|by rewrite Hs2, Hs1].
  cbn [element_loop fst snd].
  destruct (store_screen_frame d name [] m2) as (Hv & Hf & (st & Hst & Hd & _ & He) & Htr).
  cbn zeta in *. rewrite Hv, Hf, Htr, Hst, Hs2, Hs1, Ht2, Ht1.
  repeat split; try done. by exists st.
Qed.

Lemma explored_screen_left_alone_witness :
  let m := visited_add (py "text:Home") (Sim.start [Sim.shows "{one_button}"] []) in
  (@explore_screen Sim.decoder _ Sim.backend 0 3 m).1 = Returned
  /\ discovered_flows (self (@explore_screen Sim.decoder _ Sim.backend 0 3 m).2) = []
  /\ trace (@explore_screen Sim.decoder _ Sim.backend 0 3 m).2
     = [EvMark (py "text:Home"); EvObserve 0].
Proof.
  intros m.
  destruct (@explored_screen_left_alone Sim.decoder _ Sim.backend 0 3 m Sim.one_button
              (@observe Sim.decoder _ Sim.backend 0 m).2)
    as (Ho & _ & Hf & Ht & _).
  - lia.
  - reflexivity.
  - reflexivity.
  - vm_compute. tauto.
  - repeat constructor.
  - split; [exact Ho|]. split; [exact Hf | exact Ht].
Defined.

(** X13: a call beyond the maximum depth does nothing at all: it returns
    with the explorer and the world untouched, the device never asked. A run
    with a negative maximum depth therefore explores nothing, and still
    generates its two files from the explorer as it stands. *)
Theorem call_beyond_depth_does_nothing `{Python} {W : Type} `{Backend W}
    (json_dumps : json -> str) (d k : Z) (m : machine W) :
  k < d ->
  explore_screen d k m = (Returned, m)
  /\ (d = 0 ->
      (run_exploration json_dumps k m).1.1 = Returned
      /\ self (run_exploration json_dumps k m).2 = self m
      /\ trace (run_exploration json_dumps k m).2 = trace m
      /\ exists now1 now3 g,
           (run_exploration json_dumps k m).1.2 = Some g
           /\ script g = test_content (self m) now1
           /\ report_dict g = report (self m) now3).
Proof.
  intros Hlt. split; [by apply explore_screen_too_deep|]. intros ->.
  destruct (run_exploration_unfold json_dumps k m) as (Ho & Hs & Ht & Hg).
  cbn zeta in *. rewrite explore_screen_too_deep in Ho, Hs, Ht, Hg by done.
  cbn [fst snd] in *. by rewrite Ho, Hs, Ht.
Qed.

Lemma call_beyond_depth_does_nothing_witness :
  let m := Sim.start [Sim.shows "{one_button}"] [] in
  @explore_screen Sim.decoder _ Sim.backend 0 (-1) m = (Returned, m).
Proof.
  intros m.
  apply (@call_beyond_depth_does_nothing Sim.decoder _ Sim.backend Sim.dumps 0 (-1) m).
  lia.
Defined.

(** ** The paths of the parsed elements *)

Section Paths.

Lemma uint_codes_sep d1 d2 (x y : str) :
  uint_codes d1 ++ 93%N :: x = uint_codes d2 ++ 93%N :: y -> d1 = d2.
Proof.
  revert d2. induction d1 as [|d1 IH|d1 IH|d1 IH|d1 IH|d1 IH|d1 IH|d1 IH|d1 IH|d1 IH|d1 IH];
    intros [|d2|d2|d2|d2|d2|d2|d2|d2|d2|d2] E; cbn in E; try done;
    injection E as E; f_equal; by apply IH.
Qed.

Lemma str_of_nat_sep i j (x y : str) :
  str_of_nat i ++ py "]" ++ x = str_of_nat j ++ py "]" ++ y -> i = j.
Proof.
  unfold str_of_nat, str_of_Z. intros E.
  assert (Z.to_int (Z.of_nat i) = Z.to_int (Z.of_nat j)) as Hint.
  { destruct (Z.of_nat i) as [|pi|pi] eqn:Ei; [| |lia];
      (destruct (Z.of_nat j) as [|pj|pj] eqn:Ej; [| |lia]);
      cbn [Z.to_int] in *; f_equal; exact (uint_codes_sep _ _ x y E). }
  apply (f_equal Z.of_int) in Hint. rewrite !DecimalZ.of_to in Hint. lia.
Qed.

Lemma child_path_sep p i j (x y : str) :
  child_path p i ++ x = child_path p j ++ y -> i = j.
Proof.
  unfold child_path. rewrite <- !app_assoc. intros E.
  do 2 apply app_inv_head in E. by eapply str_of_nat_sep.
Qed.

Lemma item_path_sep p i j (x y : str) :
  item_path p i ++ x = item_path p j ++ y -> i = j.
Proof.
  unfold item_path. rewrite <- !app_assoc. intros E.
  do 2 apply app_inv_head in E. by eapply str_of_nat_sep.
Qed.

Lemma concat_each_paths (pf : nat -> str) cs :
  Forall paths_apart cs ->
  (forall i j x y, pf i ++ x = pf j ++ y -> i = j) ->
  forall i0,
    (forall np, np ∈ concat_each (fun c i => nodes c (pf i)) cs i0 ->
                exists i, (i0 <= i)%nat /\ pf i `prefix_of` np.2)
    /\ NoDup (concat_each (fun c i => nodes c (pf i)) cs i0).*2.
Proof.
  intros Hcs Hsep. induction Hcs as [|c cs Hc _ IH]; intros i0; cbn.
  { split; [by intros np ?%elem_of_nil | constructor]. }
  destruct (Hc (pf i0)) as [Hpre Hnd]. destruct (IH (S i0)) as [Hrest Hndrest].
  split.
  - intros np [Hin|Hin]%elem_of_app.
    + exists i0. split; [lia | by apply Hpre].
    + destruct (Hrest np Hin) as (i & Hi & Hp). exists i. split; [lia | done].
  - rewrite fmap_app. apply NoDup_app. split; [done|]. split; [|done].
    intros q ([n1 q1] & -> & Hin1)%list_elem_of_fmap ([n2 q2] & Eq & Hin2)%list_elem_of_fmap.
    cbn in Eq. subst q2.
    destruct (Hpre _ Hin1) as [x Hx]. destruct (Hrest _ Hin2) as (i & Hi & [y Hy]).
    cbn in Hx, Hy. rewrite Hx in Hy. apply Hsep in Hy. lia.
Qed.

Lemma dict_case_cases {R : Type} (key : str) (absent : R) (present : json -> R) items :
  dict_case key absent present items = absent
  \/ exists v, (key, v) ∈ items /\ dict_case key absent present items = present v.
Proof.
  induction items as [|[k v] items IH]; cbn; [by left|].
  case_bool_decide as Hk.
  - subst k. right. exists v. split; [left | done].
  - destruct IH as [->|(v' & Hin & ->)]; [by left|].
    right. exists v'. split; [by right | done].
Qed.

Lemma nodes_paths_apart v :
  paths_apart v /\ (forall cs, v = JList cs -> Forall paths_apart cs).
Proof.
  induction v as [|b|z|f|s|items IH|items IH] using json_ind;
    (split; [intros p|intros cs; try done]);
    try (split; [by intros np ?%elem_of_nil | constructor]).
  - cbn [nodes].
    destruct (concat_each_paths (item_path p) items) with (i0 := 0%nat) as [Hpre Hnd].
    { eapply Forall_impl; [exact IH|]. by intros c [Hc _]. }
    { apply item_path_sep. }
    split; [|done]. intros np Hin. destruct (Hpre np Hin) as (i & _ & Hp).
    etrans; [|exact Hp]. unfold item_path. by apply prefix_app_r.
  - intros [= <-]. eapply Forall_impl; [exact IH|]. by intros c [Hc _].
  - cbn [nodes].
    match goal with |- context [dict_case ?k ?a ?f items] =>
      destruct (dict_case_cases k a f items) as [->|(v & Hin & ->)] end.
    { split; [|apply NoDup_singleton].
      by intros np ->%list_elem_of_singleton. }
    destruct v as [| | | | |cs|];
      try (split; [by intros np ->%list_elem_of_singleton | apply NoDup_singleton]).
    destruct (concat_each_paths (child_path p) cs) with (i0 := 0%nat) as [Hpre Hnd].
    { pose proof (proj1 (Forall_forall _ _) IH _ Hin) as [_ Hcs]. by apply Hcs. }
    { apply child_path_sep. }
    split.
    + intros np [->|Hnp]%elem_of_cons; [done|].
      destruct (Hpre np Hnp) as (i & _ & Hp).
      etrans; [|exact Hp]. unfold child_path. by apply prefix_app_r.
    + cbn [fmap list_fmap fst snd]. apply NoDup_cons. split; [|done].
      intros ([n q] & Eq & Hnp)%list_elem_of_fmap. cbn in Eq. subst q.
      destruct (Hpre _ Hnp) as (i & _ & Hp). cbn in Hp.
      apply prefix_length in Hp. unfold child_path in Hp.
      rewrite !length_app in Hp. change (length (py "]")) with 1%nat in Hp. lia.
Qed.

End Paths.

(** X14: the paths of the parsed elements. Whatever their identities, no
    two elements of a list the parser returns have the same path: the path
    tells the nodes of a snapshot apart. *)
Theorem parsed_paths_distinct `{Python} (visited : gset str) (hierarchy : json)
    (els : list element) :
  find_clickable_elements visited hierarchy = Ok els ->
  NoDup ((fun e : element => path e) <$> els).
Proof.
  intros (Hinfo & _)%find_clickable_elements_parsed.
  change (fun e : element => path e) with (path ∘ info).
  rewrite list_fmap_compose, Hinfo. unfold interactable_elements.
  eapply sublist_NoDup; [|apply fmap_sublist, sublist_filter].
  rewrite <- list_fmap_compose.
  eapply sublist_NoDup; [|apply fmap_sublist, sublist_filter].
  apply (nodes_paths_apart hierarchy).
Qed.

Lemma parsed_paths_distinct_witness :
  NoDup ((fun e : element => path e) <$> Sim.parsed_three_buttons).
Proof.
  apply (@parsed_paths_distinct Sim.decoder ∅ Sim.three_buttons Sim.parsed_three_buttons).
  reflexivity.
Defined.

(** ** The nesting of calls *)

Section Nesting.
Context `{Python} {W : Type} `{Backend W}.
Implicit Types m : machine W.

Lemma element_loop_ext descend1 descend2 depth max_depth name :
  (depth < max_depth -> forall m, descend1 m = descend2 m) ->
  forall clickable m,
    element_loop descend1 depth max_depth name clickable m
    = element_loop descend2 depth max_depth name clickable m.
Proof.
  intros Hd. induction clickable as [|e els IH]; intros m; [done|]. cbn [element_loop].
  case_bool_decide; [apply IH|].
  destruct (attempt e m) as [[] m1]; [|apply IH].
  destruct (Z.ltb_spec depth max_depth) as [Hlt|Hge]; [|apply IH].
  rewrite (Hd Hlt). destruct (descend2 _) as [[] m2]; done || apply IH.
Qed.

Lemma explore_fuel_enough fuel1 :
  forall fuel2 depth max_depth m,
    (Z.to_nat (max_depth - depth) < fuel1)%nat ->
    (Z.to_nat (max_depth - depth) < fuel2)%nat ->
    explore_fuel fuel1 depth max_depth m = explore_fuel fuel2 depth max_depth m.
Proof.
  induction fuel1 as [|fuel1 IH]; intros [|fuel2] depth max_depth m H1 H2; try lia.
  cbn [explore_fuel].
  destruct (max_depth <? depth); [done|].
  destruct (observe depth m) as [hierarchy m1].
  destruct (negb (truthy hierarchy)); [done|].
  destruct (shoot_screen depth m1) as [name m2].
  destruct (find_clickable_elements _ hierarchy) as [clickable|e]; [|done].
  apply element_loop_ext. intros Hlt m'. apply IH; lia.
Qed.

End Nesting.

(** X15: a call of [explore_screen] always ends. It nests at most
    [max_depth - depth] further calls, so it returns or raises whenever the
    calls to the device do; and the bound on the nesting that the model
    carries plays no part in the result: any larger bound gives the same
    outcome and the same state. *)
Theorem explore_screen_ends `{Python} {W : Type} `{Backend W}
    (fuel : nat) (d k : Z) (m : machine W) :
  (Z.to_nat (k - d) < fuel)%nat ->
  explore_fuel fuel d k m = explore_screen d k m
  /\ (explore_screen d k m).1 <> OutOfFuel.
Proof.
  intros Hfuel. split; [|apply explore_screen_exec].
  unfold explore_screen. apply explore_fuel_enough; lia.
Qed.

Lemma explore_screen_ends_witness :
  let m := Sim.start [Sim.shows "{one_button}"; Sim.shows "{icon_only}"] [] in
  @explore_fuel Sim.decoder _ Sim.backend 7 0 1 m = @explore_screen Sim.decoder _ Sim.backend 0 1 m
  /\ (@explore_screen Sim.decoder _ Sim.backend 0 1 m).1 <> OutOfFuel.
Proof.
  intros m. apply (@explore_screen_ends Sim.decoder _ Sim.backend 7 0 1 m).
  vm_compute. lia.
Defined.

(** * Runs that are cut short *)

(** ** What each block changes, however it ends *)

Section FullFrames.
Context `{Python} {W : Type} `{Backend W} `{Full.Operator W}.
Implicit Types m : machine W.

Lemma world_only_ret {A : Type} (a : A) : world_only (mret a : Full.prog W A).
Proof. by intros m. Qed.

Lemma world_only_raise {A : Type} (e : exn) : world_only (Full.raise e : Full.prog W A).
Proof. by intros m. Qed.

Lemma world_only_ask {A : Type} (f : W -> A * W) : world_only (Full.ask_world f).
Proof. intros m. unfold Full.ask_world. by destruct (f (world m)). Qed.

Lemma world_only_tell (f : W -> W) : world_only (Full.tell_world f).
Proof. by intros m. Qed.

Lemma world_only_get_self : world_only (Full.get_self (W := W)).
Proof. by intros m. Qed.

Lemma world_only_bind {A B : Type} (c : Full.prog W A) (k : A -> Full.prog W B) :
  world_only c -> (forall a, world_only (k a)) -> world_only (c ≫= k).
Proof.
  intros Hc Hk m. destruct (Hc m) as (He & Hs & Ht).
  unfold mbind, Full.prog_bind. destruct (c m) as [[a|e|] m1]; cbn in *; [|done..].
  destruct (Hk a m1) as (He' & Hs' & Ht'). by rewrite Hs', Ht'.
Qed.

Lemma world_only_checkpoint : world_only Full.checkpoint.
Proof.
  apply world_only_bind; [apply world_only_ask|].
  intros []; [apply world_only_raise | apply world_only_ret].
Qed.

Lemma world_only_open_write name contents : world_only (Full.open_write name contents).
Proof.
  apply world_only_bind; [apply world_only_checkpoint|]. intros _.
  destruct (Full.encodable contents); [apply world_only_tell|].
  apply world_only_bind; [apply world_only_tell|]. intros _. apply world_only_raise.
Qed.

Lemma world_only_get_hierarchy : world_only Full.get_hierarchy.
Proof.
  apply world_only_bind; [apply world_only_checkpoint|]. intros _.
  apply world_only_bind; [apply world_only_ask|]. intros p. apply world_only_ret.
Qed.

Lemma world_only_take_screenshot name : world_only (Full.take_screenshot name).
Proof.
  apply world_only_bind; [apply world_only_get_self|]. intros s.
  case_bool_decide; [|apply world_only_ret].
  apply world_only_bind; [apply world_only_checkpoint|]. intros _.
  apply world_only_bind; [apply world_only_ask|]. intros ok. apply world_only_ret.
Qed.

Lemma world_only_tap_element e : world_only (Full.tap_element e).
Proof.
  unfold Full.tap_element. destruct (tap_command e) as [cmd|]; [|apply world_only_ret].
  apply world_only_bind; [apply world_only_get_self|]. intros s.
  apply world_only_bind; [apply world_only_ask|]. intros t.
  apply world_only_bind; [apply world_only_checkpoint|]. intros _.
  destruct (Full.encodable _).
  - apply world_only_bind; [apply world_only_ask|]. intros [|rc out]; apply world_only_ret.
  - apply world_only_bind; [apply world_only_tell|]. intros _. apply world_only_raise.
Qed.

Lemma world_only_go_back : world_only Full.go_back.
Proof.
  apply world_only_bind; [apply world_only_get_self|]. intros s.
  apply world_only_bind; [apply world_only_ask|]. intros t.
  apply world_only_bind; [apply world_only_checkpoint|]. intros _.
  destruct (Full.encodable _).
  - apply world_only_bind; [apply world_only_ask|]. intros [|rc out]; [apply world_only_ret|].
    apply world_only_bind; [apply world_only_checkpoint|]. intros _. apply world_only_tell.
  - apply world_only_bind; [apply world_only_tell|]. intros _. apply world_only_raise.
Qed.

Lemma world_only_shoot_screen depth : world_only (Full.shoot_screen depth).
Proof.
  apply world_only_bind; [apply world_only_ask|]. intros t.
  apply world_only_bind; [apply world_only_take_screenshot|]. intros _. apply world_only_ret.
Qed.

Lemma world_only_from_result {A : Type} (r : result A) :
  world_only (Full.from_result r : Full.prog W A).
Proof. intros m. by destruct r. Qed.

(** [observe] enters the request in the history, then acts on the world. *)
Lemma observe_ends depth m :
  (Full.observe depth m).1 <> Full.Exhausted
  /\ self (Full.observe depth m).2 = self m
  /\ trace (Full.observe depth m).2 = trace m ++ [EvObserve depth].
Proof. apply (world_only_get_hierarchy (log (EvObserve depth) m)). Qed.

Lemma store_screen_ends depth name clickable m :
  exists st m',
    Full.store_screen depth name clickable m = (Full.Yields (), m')
    /\ self m' = self (screen_states_append st m)
    /\ ss_depth st = depth /\ ss_screenshot st = name /\ ss_elements st = clickable
    /\ trace m' = trace m.
Proof.
  unfold Full.store_screen, mbind, Full.prog_bind, Full.ask_world, Full.update.
  destruct (datetime_now (world m)) as [now w]. cbn. eauto 10.
Qed.

(** [attempt]: the identity is in the Frontier whether or not the tap
    returns; the report of the tap enters the history when it does. *)
Lemma attempt_ends e m :
  self (Full.attempt e m).2 = self (visited_add (identifier e) m)
  /\ match (Full.attempt e m).1 with
     | Full.Yields success =>
         trace (Full.attempt e m).2
         = trace m ++ [EvMark (identifier e); EvTap (identifier e) success]
     | Full.Raises _ => trace (Full.attempt e m).2 = trace m ++ [EvMark (identifier e)]
     | Full.Exhausted => False
     end.
Proof.
  unfold Full.attempt, mbind, Full.prog_bind, Full.update. cbn.
  destruct (world_only_checkpoint (visited_add (identifier e) m)) as (He0 & Hs0 & Ht0).
  destruct (Full.checkpoint _) as [[[]|ex|] m0]; cbn in *; [|done..].
  destruct (world_only_tap_element e m0) as (He & Hs & Ht).
  destruct (Full.tap_element e _) as [[b|ex|] m1]; cbn in *; [| |done].
  - split; [congruence|]. rewrite Ht, Ht0. unfold visited_add, log. cbn.
    by rewrite <- app_assoc.
  - split; [congruence|]. by rewrite Ht, Ht0.
Qed.

(** [record_flow]: the flow is appended when the wait and the screenshot are
    not cut short, and nothing changes otherwise. *)
Lemma record_flow_ends depth name e m :
  trace (Full.record_flow depth name e m).2 = trace m
  /\ match (Full.record_flow depth name e m).1 with
     | Full.Yields _ =>
         exists fr,
           self (Full.record_flow depth name e m).2 = self (discovered_flows_append fr m)
           /\ from_screen fr = name /\ action fr = identifier e
           /\ fr_depth fr = depth /\ fr_element fr = e
     | Full.Raises _ => self (Full.record_flow depth name e m).2 = self m
     | Full.Exhausted => False
     end.
Proof.
  unfold Full.record_flow, mbind, Full.prog_bind.
  destruct (world_only_checkpoint m) as (He1 & Hs1 & Ht1).
  destruct (Full.checkpoint m) as [[[]|ex|] m1]; cbn in *; [|done..].
  unfold Full.ask_world. cbn. destruct (time_time _) as [t w]. cbn.
  match goal with |- context [Full.take_screenshot ?n ?x] =>
    destruct (world_only_take_screenshot n x) as (He2 & Hs2 & Ht2);
    destruct (Full.take_screenshot n x) as [[shot|ex|] m2] end; cbn in *; [| |done].
  - split; [by rewrite Ht2|]. eexists. split; [by rewrite Hs2, Hs1 | done].
  - split; [by rewrite Ht2 | by rewrite Hs2].
Qed.

(** [back_up]: [go_back] is entered in the history unless the interrupt
    arrives first; [self] is left alone. *)
Lemma back_up_ends m :
  self (Full.back_up m).2 = self m
  /\ match (Full.back_up m).1 with
     | Full.Yields _ => trace (Full.back_up m).2 = trace m ++ [EvBack]
     | Full.Raises _ =>
         trace (Full.back_up m).2 = trace m \/ trace (Full.back_up m).2 = trace m ++ [EvBack]
     | Full.Exhausted => False
     end.
Proof.
  unfold Full.back_up, mbind, Full.prog_bind.
  destruct (world_only_checkpoint m) as (He1 & Hs1 & Ht1).
  destruct (Full.checkpoint m) as [[[]|ex|] m1]; cbn in *; [|by split; [|left]|done].
  destruct (world_only_go_back (log EvBack m1)) as (He2 & Hs2 & Ht2).
  destruct (Full.go_back _) as [[[]|ex|] m2]; cbn in *;
    [|split; [congruence | right; congruence]|done].
  destruct (world_only_checkpoint m2) as (He3 & Hs3 & Ht3).
  destruct (Full.checkpoint m2) as [[[]|ex|] m3]; cbn in *;
    [|split; [congruence | right; congruence]|done].
  split; congruence.
Qed.

End FullFrames.

(** ** The explorer stays explained by its history *)

Section FullSettled.
Context `{Python} {W : Type} `{Backend W} `{Full.Operator W}.
Implicit Types m : machine W.

Lemma lags_refl {A : Type} (l : list A) : lags l l.
Proof. by left. Qed.

Lemma lags_snoc {A : Type} (l : list A) (x : A) : lags l (l ++ [x]).
Proof. right. by exists x. Qed.

Lemma settled_unsettled n m : settled n m -> unsettled n m.
Proof.
  intros ((I1 & I2 & I3 & I4) & Hmf & Hfl & Hn). unfold unsettled.
  rewrite I1, I2. repeat split; try done; try apply lags_refl. lia.
Qed.

Lemma unsettled_fewer n n' m : (n' <= n)%nat -> unsettled n m -> unsettled n' m.
Proof. intros Hle (U1 & U2 & U3 & U4 & U5 & U6 & U7). repeat split; try done. lia. Qed.

Lemma settled_same n m m' :
  self m' = self m -> trace m' = trace m -> settled n m -> settled n m'.
Proof. intros Hs Ht. unfold settled, consistent. by rewrite Hs, Ht. Qed.

Lemma unsettled_same n m m' :
  self m' = self m -> trace m' = trace m -> unsettled n m -> unsettled n m'.
Proof. intros Hs Ht. unfold unsettled. by rewrite Hs, Ht. Qed.

Lemma settled_observe n depth m m' :
  self m' = self m -> trace m' = trace m ++ [EvObserve depth] ->
  settled n m -> settled n m'.
Proof.
  intros Hs Ht ((I1 & I2 & I3 & I4) & Hmf & Hfl & Hn). unfold settled, consistent.
  rewrite Hs, Ht, succeeded_app, tapped_app, marks_app, backs_app. cbn.
  rewrite !app_nil_r. repeat split; try done. by apply marked_first_snoc.
Qed.

Lemma settled_screen n st m m' :
  self m' = self (screen_states_append st m) -> trace m' = trace m ->
  settled n m -> settled n m'.
Proof. intros Hs Ht. unfold settled, consistent. by rewrite Hs, Ht. Qed.

Lemma settled_back n m m' :
  self m' = self m -> trace m' = trace m ++ [EvBack] ->
  settled (S n) m -> settled n m'.
Proof.
  intros Hs Ht ((I1 & I2 & I3 & I4) & Hmf & Hfl & Hn). unfold settled, consistent.
  rewrite Hs, Ht, succeeded_app, tapped_app, marks_app, backs_app, length_app. cbn.
  rewrite !app_nil_r. repeat split; try done; [by apply marked_first_snoc | lia].
Qed.

Lemma frontier_fresh id m :
  consistent m -> id ∉ visited_elements (self m) -> NoDup (marks (trace m) ++ [id]).
Proof.
  intros (_ & _ & I3 & I4) Hnew. apply NoDup_app. repeat split; [done| |apply NoDup_singleton].
  intros x Hx ->%list_elem_of_singleton. apply Hnew. rewrite I4.
  by apply elem_of_list_to_set.
Qed.

(** The identity is inserted and the tap does not return. *)
Lemma unsettled_marked n id m m' :
  id ∉ visited_elements (self m) ->
  self m' = self (visited_add id m) -> trace m' = trace m ++ [EvMark id] ->
  settled n m -> unsettled n m'.
Proof.
  intros Hnew Hs Ht (Hc & Hmf & Hfl & Hn). pose proof (frontier_fresh id m Hc Hnew) as Hnd.
  destruct Hc as (I1 & I2 & I3 & I4). unfold unsettled.
  rewrite Hs, Ht, succeeded_app, tapped_app, marks_app, backs_app. cbn.
  rewrite !app_nil_r, I1, I2, I4. repeat split; try done.
  - apply lags_refl.
  - apply lags_snoc.
  - apply frontier_snoc.
  - by apply marked_first_snoc.
  - lia.
Qed.

(** The tap returns. *)
Lemma settled_tapped n id success m m' :
  id ∉ visited_elements (self m) ->
  self m' = self (visited_add id m) ->
  trace m' = trace m ++ [EvMark id; EvTap id success] ->
  settled n m ->
  (success = false -> settled n m')
  /\ unsettled n m'
  /\ (forall fr m'',
        success = true -> action fr = id -> id = identifier (fr_element fr) ->
        self m'' = self (discovered_flows_append fr m') -> trace m'' = trace m' ->
        settled (S n) m'').
Proof.
  intros Hnew Hs Ht (Hc & Hmf & Hfl & Hn). pose proof (frontier_fresh id m Hc Hnew) as Hnd.
  destruct Hc as (I1 & I2 & I3 & I4).
  assert (marked_first (trace m')) as Hmf' by (rewrite Ht; by apply marked_first_attempt).
  split; [|split].
  - intros ->. unfold settled, consistent.
    rewrite Hs, Ht, succeeded_app, tapped_app, marks_app, backs_app. cbn.
    rewrite !app_nil_r, I1, I2, I4. repeat split; try done;
      [apply frontier_snoc | by rewrite <- Ht].
  - unfold unsettled. rewrite Hs. cbn.
    split; [|split; [|split; [|split; [|split; [|split]]]]]; try done;
      rewrite Ht, ?succeeded_app, ?tapped_app, ?marks_app, ?backs_app; cbn;
      rewrite ?app_nil_r, ?I1, ?I2, ?I4.
    + destruct success; [apply lags_snoc | rewrite app_nil_r; apply lags_refl].
    + apply lags_refl.
    + done.
    + apply frontier_snoc.
    + lia.
  - intros fr m'' -> Ha Hid Hs'' Ht''. unfold settled, consistent.
    rewrite Hs'', Ht''. cbn. rewrite Hs. cbn.
    rewrite Ht, succeeded_app, tapped_app, marks_app, backs_app, fmap_app, !length_app. cbn.
    rewrite ?app_nil_r, I1, I2, I4, Ha. repeat split; try done.
    + apply frontier_snoc.
    + by rewrite <- Ht.
    + apply Forall_app. split; [done|]. constructor; [congruence | constructor].
    + lia.
Qed.

End FullSettled.

Section FullInvariant.
Context `{Python} {W : Type} `{Backend W} `{Full.Operator W}.
Implicit Types m : machine W.

Lemma element_loop_settled (descend : Full.prog W ()) depth max_depth name :
  (depth < max_depth -> forall n m, settled n m -> ends_settled n (descend m)) ->
  forall clickable n m,
    settled n m ->
    ends_settled n (Full.element_loop descend depth max_depth name clickable m).
Proof.
  intros Hd. induction clickable as [|e els IH]; intros n m Hm; [done|].
  cbn [Full.element_loop]. unfold mbind, Full.prog_bind, Full.get_self.
  case_bool_decide as Hnew; [by apply IH|].
  (* the progress line *)
  destruct (world_only_checkpoint m) as (He0 & Hs0 & Ht0).
  destruct (Full.checkpoint m) as [[[]|ex|] m0]; cbn [fst snd] in *;
    [|by apply settled_unsettled, (settled_same n m)|done].
  assert (settled n m0) as Hm0 by (by apply (settled_same n m)).
  rewrite <- Hs0 in Hnew.
  (* the attempt *)
  destruct (attempt_ends e m0) as [Hs1 Ht1].
  destruct (Full.attempt e m0) as [[success|ex|] m1]; cbn [fst snd] in *; [| |done].
  2:{ by eapply unsettled_marked. }
  destruct (settled_tapped n _ success m0 m1 Hnew Hs1 Ht1 Hm0) as (Hfail & Hcut & Hflow).
  destruct success; [|by apply IH, Hfail].
  (* the flow *)
  destruct (record_flow_ends depth name e m1) as [Ht2 Hs2].
  destruct (Full.record_flow depth name e m1) as [[[]|ex|] m2]; cbn [fst snd] in *;
    [|by apply (unsettled_same n m1)|done].
  destruct Hs2 as (fr & Hs2 & _ & Ha & _ & Hel).
  assert (settled (S n) m2) as Hm2.
  { apply (Hflow fr); try done. by rewrite Hel. }
  (* the call one level down *)
  assert (ends_settled (S n) ((if depth <? max_depth then descend else mret ()) m2)) as Hm3.
  { destruct (Z.ltb_spec depth max_depth); [by apply Hd | done]. }
  destruct ((if depth <? max_depth then descend else mret ()) m2) as [[[]|ex|] m3];
    cbn [fst snd] in *; unfold ends_settled in Hm3; cbn [fst snd] in Hm3;
    [|by apply (unsettled_fewer (S n)); [lia|]..].
  (* back *)
  destruct (back_up_ends m3) as [Hs4 Ht4].
  destruct (Full.back_up m3) as [[[]|ex|] m4]; cbn [fst snd] in *; [| |done].
  - apply IH. by apply (settled_back n m3).
  - destruct Ht4 as [Ht4|Ht4].
    + apply (unsettled_fewer (S n)); [lia|].
      by apply settled_unsettled, (settled_same _ m3).
    + by apply settled_unsettled, (settled_back n m3).
Qed.

Lemma explore_fuel_settled fuel :
  forall depth max_depth n m,
    settled n m -> ends_settled n (Full.explore_fuel fuel depth max_depth m).
Proof.
  induction fuel as [|fuel IH]; intros depth max_depth n m Hm;
    [by apply settled_unsettled|].
  cbn [Full.explore_fuel]. destruct (max_depth <? depth); [done|].
  unfold mbind, Full.prog_bind, Full.get_self.
  destruct (world_only_checkpoint m) as (He0 & Hs0 & Ht0).
  destruct (Full.checkpoint m) as [[[]|ex|] m0]; cbn [fst snd] in *;
    [|by apply settled_unsettled, (settled_same n m)|done].
  destruct (observe_ends depth m0) as (He1 & Hs1 & Ht1).
  assert (settled n (Full.observe depth m0).2) as Hm1.
  { apply (settled_observe n depth m0); [done..|]. by apply (settled_same n m). }
  destruct (Full.observe depth m0) as [[hierarchy|ex|] m1]; cbn [fst snd] in *;
    [|by apply settled_unsettled|done].
  destruct (truthy hierarchy); cbn [negb].
  2:{ destruct (world_only_checkpoint m1) as (He & Hs & Ht).
      destruct (Full.checkpoint m1) as [[[]|ex|] m2]; cbn [fst snd] in *; [| |done].
      - by apply (settled_same n m1).
      - by apply settled_unsettled, (settled_same n m1). }
  destruct (world_only_shoot_screen depth m1) as (He2 & Hs2 & Ht2).
  destruct (Full.shoot_screen depth m1) as [[name|ex|] m2]; cbn [fst snd] in *;
    [|by apply settled_unsettled, (settled_same n m1)|done].
  assert (settled n m2) as Hm2 by (by apply (settled_same n m1)).
  destruct (find_clickable_elements _ hierarchy) as [clickable|ex]; cbn;
    [|by apply settled_unsettled].
  destruct (world_only_checkpoint m2) as (He3 & Hs3 & Ht3).
  destruct (Full.checkpoint m2) as [[[]|ex|] m3]; cbn [fst snd] in *;
    [|by apply settled_unsettled, (settled_same n m2)|done].
  destruct (store_screen_ends depth name clickable m3) as (st & m4 & -> & Hs4 & _ & _ & _ & Ht4).
  apply element_loop_settled; [intros _; apply IH|].
  apply (settled_screen n st m3); [done..|]. by apply (settled_same n m2).
Qed.

Lemma explore_screen_settled depth max_depth n m :
  settled n m -> ends_settled n (Full.explore_screen depth max_depth m).
Proof. apply explore_fuel_settled. Qed.

Lemma fresh_settled m : fresh m -> settled 0 m.
Proof.
  intros (Hv & _ & Hf & Ht). unfold settled, consistent. rewrite Hv, Hf, Ht. cbn.
  repeat split; try done; constructor.
Qed.

End FullInvariant.

(** ** The history of a call, however it ends *)

Section FullHistory.
Context `{Python} {W : Type} `{Backend W} `{Full.Operator W}.
Implicit Types m : machine W.

Lemma call_trace_of_loop k d t :
  ~ k < d -> loop_trace k true d t -> call_trace k true d (EvObserve d :: t).
Proof.
  intros Hdk Hloop. unfold call_trace. rewrite decide_False by done.
  exists t. split; [done | by left].
Qed.

Lemma call_trace_least k d : begins (call_trace k true d) [].
Proof.
  destruct (decide (k < d)) as [Hlt|Hge].
  - exists []. unfold call_trace. by rewrite decide_True.
  - exists [EvObserve d]. apply call_trace_of_loop; [done | constructor].
Qed.

Lemma descent_trace_least k d : begins (descent_trace k d) [].
Proof.
  unfold descent_trace. destruct (decide (d < k)); [apply call_trace_least | by exists []].
Qed.

(** A successful activation, what follows it one level down, the
    back-navigation, and the rest of the loop. *)
Lemma loop_trace_success k d id sub tail :
  descent_trace k d sub -> loop_trace k true d tail ->
  loop_trace k true d (EvMark id :: EvTap id true :: sub ++ EvBack :: tail).
Proof.
  unfold descent_trace, call_trace. intros Hsub Htail.
  destruct (decide (d < k)) as [Hlt|Hge].
  - rewrite decide_False in Hsub by lia.
    destruct Hsub as (t' & -> & [Hloop | [? _]]); [|done].
    by apply loop_trace_descent.
  - subst sub. apply loop_trace_leaf; [lia | done].
Qed.

Lemma descent_trace_paired k d sub :
  descent_trace k d sub -> length (backs sub) = length (succeeded sub).
Proof.
  unfold descent_trace, call_trace. destruct (decide (d < k)); [|by intros ->].
  rewrite decide_False by lia. intros (t' & -> & [Hloop | [? _]]); [|done].
  exact (loop_trace_paired _ _ _ Hloop).
Qed.

(** Counting the events of a history. *)
Ltac tally :=
  unfold backs, succeeded in *; cbn in *; rewrite ?omap_app, ?length_app in *; cbn in *; lia.

Lemma adds_history_shape {A : Type} (shape shape' : list event -> Prop) m
    (r : Full.ends A * machine W) :
  (forall t, shape t -> shape' t) -> adds_history shape m r -> adds_history shape' m r.
Proof.
  intros Himp (t & Ht & Hc & [rest Hrest] & Hy). exists t.
  split; [done|]. split; [done|]. split; [exists rest; by apply Himp|].
  destruct r.1; [by apply Himp | done..].
Qed.

Lemma element_loop_history (descend : Full.prog W ()) d k name :
  (d < k -> forall m, adds_history (call_trace k true (d + 1)) m (descend m)) ->
  forall els m,
    adds_history (loop_trace k true d) m (Full.element_loop descend d k name els m).
Proof.
  intros Hd. induction els as [|e els IH]; intros m.
  { exists []. cbn. rewrite app_nil_r.
    split; [done|]. split; [lia|]. split; [exists []|]; constructor. }
  cbn [Full.element_loop]. unfold mbind, Full.prog_bind, Full.get_self.
  case_bool_decide as Hnew; [apply IH|].
  (* the progress line *)
  destruct (world_only_checkpoint m) as (He0 & Hs0 & Ht0).
  destruct (Full.checkpoint m) as [[[]|ex|] m0]; cbn [fst snd] in *; [| |done].
  2:{ exists []. cbn. rewrite app_nil_r.
      split; [done|]. split; [lia|]. split; [exists []; constructor | done]. }
  (* the attempt *)
  destruct (attempt_ends e m0) as [_ Ht1].
  destruct (Full.attempt e m0) as [[success|ex|] m1]; cbn [fst snd] in *; [| |done].
  2:{ exists [EvMark (identifier e)]. cbn. split; [by rewrite Ht1, Ht0|].
      split; [lia|]. split; [|done].
      exists [EvTap (identifier e) false]. apply loop_trace_failed. constructor. }
  destruct success.
  2:{ destruct (IH m1) as (t' & Ht' & Hc' & [rest Hrest] & Hy).
      exists (EvMark (identifier e) :: EvTap (identifier e) false :: t').
      split; [by rewrite Ht', Ht1, Ht0, <- app_assoc|]. split; [exact Hc'|].
      split; [exists rest; by apply loop_trace_failed|].
      destruct (Full.element_loop descend d k name els m1).1; [|done..].
      by apply loop_trace_failed. }
  (* the flow *)
  destruct (record_flow_ends d name e m1) as [Ht2 Hs2].
  destruct (Full.record_flow d name e m1) as [[[]|ex|] m2]; cbn [fst snd] in *; [| |done].
  2:{ exists [EvMark (identifier e); EvTap (identifier e) true]. cbn.
      split; [by rewrite Ht2, Ht1, Ht0|]. split; [lia|]. split; [|done].
      destruct (descent_trace_least k d) as [sub0 Hsub0].
      exists (sub0 ++ [EvBack]). apply loop_trace_success; [done | constructor]. }
  (* the call one level down *)
  assert (adds_history (descent_trace k d) m2
            ((if d <? k then descend else mret ()) m2)) as Hsub.
  { destruct (Z.ltb_spec d k) as [Hlt|Hge].
    - eapply adds_history_shape; [|by apply Hd]. intros t.
      unfold descent_trace. by rewrite decide_True.
    - exists []. cbn. rewrite app_nil_r.
      split; [done|]. split; [lia|]. split; [apply descent_trace_least|].
      unfold descent_trace. by rewrite decide_False by lia. }
  destruct Hsub as (sub & Htsub & Hcsub & [rsub Hrsub] & Hysub).
  destruct ((if d <? k then descend else mret ()) m2) as [[[]|ex|] m3];
    cbn [fst snd] in *.
  2,3: exists ([EvMark (identifier e); EvTap (identifier e) true] ++ sub);
    cbn [fst snd];
    (split; [by rewrite Htsub, Ht2, Ht1, Ht0, <- app_assoc|]);
    (split; [tally|]); (split; [|done]);
    exists (rsub ++ [EvBack]);
    replace (([EvMark (identifier e); EvTap (identifier e) true] ++ sub) ++ rsub ++ [EvBack])
      with (EvMark (identifier e) :: EvTap (identifier e) true :: (sub ++ rsub) ++ EvBack :: [])
      by (cbn; by rewrite <- !app_assoc);
    (apply loop_trace_success; [done | constructor]).
  pose proof (descent_trace_paired k d sub Hysub) as Hpaired.
  (* back *)
  destruct (back_up_ends m3) as [_ Ht4].
  destruct (Full.back_up m3) as [[[]|ex|] m4]; cbn [fst snd] in *; [| |done].
  - destruct (IH m4) as (t' & Ht' & Hc' & [rest Hrest] & Hy).
    exists (EvMark (identifier e) :: EvTap (identifier e) true :: sub ++ EvBack :: t').
    split; [by rewrite Ht', Ht4, Htsub, Ht2, Ht1, Ht0, <- !app_assoc|].
    split.
    { tally. }
    split.
    { exists rest.
      replace ((EvMark (identifier e) :: EvTap (identifier e) true :: sub ++ EvBack :: t') ++ rest)
        with (EvMark (identifier e) :: EvTap (identifier e) true :: sub ++ EvBack :: (t' ++ rest))
        by (cbn; by rewrite <- !app_assoc).
      by apply loop_trace_success. }
    destruct (Full.element_loop descend d k name els m4).1; [|done..].
    by apply loop_trace_success.
  - assert (loop_trace k true d
              (EvMark (identifier e) :: EvTap (identifier e) true :: sub ++ [EvBack]))
      as Hshape by (apply loop_trace_success; [done | constructor]).
    destruct Ht4 as [Ht4|Ht4].
    + exists ([EvMark (identifier e); EvTap (identifier e) true] ++ sub). cbn [fst snd].
      split; [by rewrite Ht4, Htsub, Ht2, Ht1, Ht0, <- app_assoc|].
      split; [tally|]. split; [|done]. exists [EvBack]. by rewrite <- app_assoc.
    + exists (EvMark (identifier e) :: EvTap (identifier e) true :: sub ++ [EvBack]).
      cbn [fst snd].
      split; [by rewrite Ht4, Htsub, Ht2, Ht1, Ht0, <- !app_assoc|].
      split.
      { tally. }
      split; [|done]. exists []. by rewrite app_nil_r.
Qed.

Lemma explore_fuel_history fuel :
  forall d k m, adds_history (call_trace k true d) m (Full.explore_fuel fuel d k m).
Proof.
  induction fuel as [|fuel IH]; intros d k m.
  { exists []. cbn. rewrite app_nil_r.
    split; [done|]. split; [lia|]. split; [apply call_trace_least | done]. }
  cbn [Full.explore_fuel]. destruct (Z.ltb_spec k d) as [Hlt|Hge].
  { exists []. cbn. rewrite app_nil_r.
    split; [done|]. split; [lia|]. split; [apply call_trace_least|].
    unfold call_trace. by rewrite decide_True. }
  assert (~ k < d) as Hdk by lia.
  assert (call_trace k true d [EvObserve d]) as Hone.
  { apply call_trace_of_loop; [done | constructor]. }
  unfold mbind, Full.prog_bind, Full.get_self.
  (* the progress line *)
  destruct (world_only_checkpoint m) as (He0 & Hs0 & Ht0).
  destruct (Full.checkpoint m) as [[[]|ex|] m0]; cbn [fst snd] in *; [| |done].
  2:{ exists []. cbn. rewrite app_nil_r.
      split; [done|]. split; [lia|]. split; [by exists [EvObserve d] | done]. }
  (* the snapshot *)
  destruct (observe_ends d m0) as (He1 & _ & Ht1).
  destruct (Full.observe d m0) as [[hierarchy|ex|] m1]; cbn [fst snd] in *; [| |done].
  2:{ exists [EvObserve d]. cbn. split; [by rewrite Ht1, Ht0|].
      split; [lia|]. split; [by exists [] | done]. }
  destruct (truthy hierarchy); cbn [negb].
  2:{ destruct (world_only_checkpoint m1) as (He & _ & Ht).
      exists [EvObserve d]. split; [by rewrite Ht, Ht1, Ht0|]. cbn.
      split; [lia|]. split; [by exists []|].
      by destruct (Full.checkpoint m1).1. }
  (* the screenshot, the parser and the screen state *)
  destruct (world_only_shoot_screen d m1) as (He2 & _ & Ht2).
  destruct (Full.shoot_screen d m1) as [[name|ex|] m2]; cbn [fst snd] in *; [| |done].
  2:{ exists [EvObserve d]. cbn. split; [by rewrite Ht2, Ht1, Ht0|].
      split; [lia|]. split; [by exists [] | done]. }
  destruct (find_clickable_elements _ hierarchy) as [clickable|ex]; cbn.
  2:{ exists [EvObserve d]. cbn. split; [by rewrite Ht2, Ht1, Ht0|].
      split; [lia|]. split; [by exists [] | done]. }
  destruct (world_only_checkpoint m2) as (He3 & _ & Ht3).
  destruct (Full.checkpoint m2) as [[[]|ex|] m3]; cbn [fst snd] in *; [| |done].
  2:{ exists [EvObserve d]. cbn. split; [by rewrite Ht3, Ht2, Ht1, Ht0|].
      split; [lia|]. split; [by exists [] | done]. }
  destruct (store_screen_ends d name clickable m3) as (st & m4 & -> & _ & _ & _ & _ & Ht4).
  (* the loop *)
  destruct (element_loop_history (Full.explore_fuel fuel (d + 1) k) d k name
              (fun _ => IH (d + 1) k) clickable m4) as (t & Ht & Hc & [rest Hrest] & Hy).
  exists (EvObserve d :: t).
  split; [by rewrite Ht, Ht4, Ht3, Ht2, Ht1, Ht0, <- app_assoc|].
  split; [exact Hc|]. split; [exists rest; by apply call_trace_of_loop|].
  destruct (Full.element_loop _ d k name clickable m4).1; [|done..].
  by apply call_trace_of_loop.
Qed.

Lemma explore_screen_history_full d k m :
  adds_history (call_trace k true d) m (Full.explore_screen d k m).
Proof. apply explore_fuel_history. Qed.

End FullHistory.

(** ** Calls end, and what a run generates *)

Section FullRun.
Context `{Python} {W : Type} `{Backend W} `{Full.Operator W}.
Context (json_dumps : json -> str).
Implicit Types m : machine W.

Lemma element_loop_ends (descend : Full.prog W ()) depth max_depth name :
  (depth < max_depth -> forall m, (descend m).1 <> Full.Exhausted) ->
  forall clickable m,
    (Full.element_loop descend depth max_depth name clickable m).1 <> Full.Exhausted.
Proof.
  intros Hd. induction clickable as [|e els IH]; intros m; [done|].
  cbn [Full.element_loop]. unfold mbind, Full.prog_bind, Full.get_self.
  case_bool_decide; [apply IH|].
  destruct (world_only_checkpoint m) as (He0 & _).
  destruct (Full.checkpoint m) as [[[]|ex|] m0]; cbn [fst snd] in *; [|done..].
  destruct (attempt_ends e m0) as [_ Ht1].
  destruct (Full.attempt e m0) as [[[]|ex|] m1]; cbn [fst snd] in *; [|apply IH|done..].
  destruct (record_flow_ends depth name e m1) as [_ Hs2].
  destruct (Full.record_flow depth name e m1) as [[[]|ex|] m2]; cbn [fst snd] in *;
    [|done..].
  assert (((if depth <? max_depth then descend else mret ()) m2).1 <> Full.Exhausted)
    as Hsub by (destruct (Z.ltb_spec depth max_depth); [by apply Hd | done]).
  destruct ((if depth <? max_depth then descend else mret ()) m2) as [[[]|ex|] m3];
    cbn [fst snd] in *; [|done..].
  destruct (back_up_ends m3) as [_ Ht4].
  destruct (Full.back_up m3) as [[[]|ex|] m4]; cbn [fst snd] in *; [apply IH|done..].
Qed.

Lemma explore_fuel_ends fuel :
  forall depth max_depth m,
    (Z.to_nat (max_depth - depth) < fuel)%nat ->
    (Full.explore_fuel fuel depth max_depth m).1 <> Full.Exhausted.
Proof.
  induction fuel as [|fuel IH]; intros depth max_depth m Hfuel; [lia|].
  cbn [Full.explore_fuel]. destruct (Z.ltb_spec max_depth depth); [done|].
  unfold mbind, Full.prog_bind, Full.get_self.
  destruct (world_only_checkpoint m) as (He0 & _).
  destruct (Full.checkpoint m) as [[[]|ex|] m0]; cbn [fst snd] in *; [|done..].
  destruct (observe_ends depth m0) as (He1 & _).
  destruct (Full.observe depth m0) as [[hierarchy|ex|] m1]; cbn [fst snd] in *; [|done..].
  destruct (truthy hierarchy); cbn [negb]; [|apply world_only_checkpoint].
  destruct (world_only_shoot_screen depth m1) as (He2 & _).
  destruct (Full.shoot_screen depth m1) as [[name|ex|] m2]; cbn [fst snd] in *; [|done..].
  destruct (find_clickable_elements _ hierarchy) as [clickable|ex]; cbn; [|done].
  destruct (world_only_checkpoint m2) as (He3 & _).
  destruct (Full.checkpoint m2) as [[[]|ex|] m3]; cbn [fst snd] in *; [|done..].
  destruct (store_screen_ends depth name clickable m3) as (st & m4 & -> & _).
  apply element_loop_ends. intros Hlt m'. apply IH. lia.
Qed.

(** A call of [explore_screen] yields or raises: the bound on the nesting is
    never used up. *)
Lemma explore_screen_ends_full depth max_depth m :
  (Full.explore_screen depth max_depth m).1 <> Full.Exhausted.
Proof. apply explore_fuel_ends. lia. Qed.

(** What came before, when a sequence yields. *)
Lemma bind_yields {A B : Type} (c : Full.prog W A) (k : A -> Full.prog W B) m b m' :
  (c ≫= k) m = (Full.Yields b, m') ->
  exists a m1, c m = (Full.Yields a, m1) /\ k a m1 = (Full.Yields b, m').
Proof.
  unfold mbind, Full.prog_bind. destruct (c m) as [[a|e|] m1]; [|done..].
  intros Hk. by exists a, m1.
Qed.

Lemma open_write_yields name contents m m' :
  Full.open_write name contents m = (Full.Yields (), m') -> Full.encodable contents = true.
Proof.
  intros (_ & m1 & _ & Hw)%bind_yields.
  destruct (Full.encodable contents); [done|].
  by apply bind_yields in Hw as (_ & m2 & _ & Hr).
Qed.

(** [generate_test_files] leaves the explorer alone; when it yields, the
    script, which could be encoded, and the report are those of the explorer
    at two readings of the clock. *)
Lemma generate_test_files_ends m :
  let r := Full.generate_test_files json_dumps m in
  r.1 <> Full.Exhausted /\ self r.2 = self m /\ trace r.2 = trace m
  /\ forall g, r.1 = Full.Yields g ->
       Full.encodable (script g) = true
       /\ exists now1 now3,
            script g = test_content (self m) now1 /\ report_dict g = report (self m) now3.
Proof.
  assert (world_only (Full.generate_test_files json_dumps)) as Hw.
  { apply world_only_bind; [apply world_only_checkpoint|]. intros _.
    apply world_only_bind; [apply world_only_get_self|]. intros s.
    apply world_only_bind; [apply world_only_ask|]. intros now1.
    apply world_only_bind; [apply world_only_ask|]. intros now2.
    apply world_only_bind; [apply world_only_open_write|]. intros _.
    apply world_only_bind; [apply world_only_checkpoint|]. intros _.
    apply world_only_bind; [apply world_only_ask|]. intros now3.
    apply world_only_bind; [apply world_only_ask|]. intros now4.
    apply world_only_bind; [apply world_only_checkpoint|]. intros _.
    apply world_only_bind; [apply world_only_tell|]. intros _.
    apply world_only_bind; [apply world_only_checkpoint|]. intros _.
    apply world_only_ret. }
  intros r. destruct (Hw m) as (He & Hs & Ht).
  split; [done|]. split; [done|]. split; [done|].
  intros g Hg. subst r.
  destruct (Full.generate_test_files json_dumps m) as [o m'] eqn:Hgen.
  cbn in Hg. subst o. unfold Full.generate_test_files in Hgen.
  apply bind_yields in Hgen as ([] & m1 & Hc1 & Hgen).
  destruct (world_only_checkpoint m) as (_ & Hs1 & _). rewrite Hc1 in Hs1. cbn in Hs1.
  apply bind_yields in Hgen as (s & m2 & [= <- <-] & Hgen).
  apply bind_yields in Hgen as (now1 & m3 & _ & Hgen).
  apply bind_yields in Hgen as (now2 & m4 & _ & Hgen).
  apply bind_yields in Hgen as ([] & m5 & Hwrite & Hgen).
  apply open_write_yields in Hwrite.
  apply bind_yields in Hgen as ([] & m6 & _ & Hgen).
  apply bind_yields in Hgen as (now3 & m7 & _ & Hgen).
  apply bind_yields in Hgen as (now4 & m8 & _ & Hgen).
  apply bind_yields in Hgen as ([] & m9 & _ & Hgen).
  apply bind_yields in Hgen as ([] & m10 & _ & Hgen).
  apply bind_yields in Hgen as ([] & m11 & _ & [= <- _]).
  cbn. rewrite <- Hs1. split; [done|]. by exists now1, now3.
Qed.

Lemma finish_run_ends m :
  let r := Full.finish_run json_dumps m in
  r.1 <> Full.Exhausted /\ self r.2 = self m /\ trace r.2 = trace m
  /\ forall g, r.1 = Full.Yields g ->
       Full.encodable (script g) = true
       /\ exists now1 now3,
            script g = test_content (self m) now1 /\ report_dict g = report (self m) now3.
Proof.
  unfold Full.finish_run, mbind, Full.prog_bind, Full.ask_world.
  destruct (time_time (world m)) as [t w]. cbn.
  destruct (world_only_checkpoint (set_world w m)) as (He & Hs & Ht).
  destruct (Full.checkpoint (set_world w m)) as [[[]|ex|] m1]; cbn in *; [|done..].
  destruct (generate_test_files_ends m1) as (He' & Hs' & Ht' & Hg).
  cbn zeta in *. rewrite Hs', Ht', <- Hs. done.
Qed.

Lemma begin_run_ends : world_only Full.begin_run.
Proof.
  apply world_only_bind; [apply world_only_checkpoint|]. intros _. apply world_only_ask.
Qed.

(** A run: the banner, the exploration, and, unless an exception other than
    the operator's interrupt left the exploration, the summary and the
    files. *)
Lemma run_exploration_cases max_depth m :
  let run := Full.run_exploration json_dumps max_depth m in
  let m1 := (Full.begin_run m).2 in
  let explored := Full.explore_screen 0 max_depth m1 in
  self m1 = self m /\ trace m1 = trace m
  /\ run.1 <> Full.Exhausted
  /\ ((self run.2 = self m /\ trace run.2 = trace m /\ forall g, run.1 <> Full.Yields g)
      \/ (self run.2 = self explored.2 /\ trace run.2 = trace explored.2
          /\ forall g, run.1 = Full.Yields g ->
               Full.encodable (script g) = true
               /\ exists now1 now3,
                    script g = test_content (self explored.2) now1
                    /\ report_dict g = report (self explored.2) now3)).
Proof.
  intros run m1 explored. subst run m1 explored.
  destruct (begin_run_ends m) as (He0 & Hs0 & Ht0).
  split; [done|]. split; [done|].
  unfold Full.run_exploration, mbind, Full.prog_bind.
  destruct (Full.begin_run m) as [[start|ex|] m1]; cbn [fst snd] in *;
    [|by split; [|left]|done].
  pose proof (explore_screen_ends_full 0 max_depth m1) as He1.
  unfold Full.except_KeyboardInterrupt.
  assert (forall m2, let r := Full.finish_run json_dumps m2 in
            r.1 <> Full.Exhausted
            /\ ((self r.2 = self m /\ trace r.2 = trace m /\ forall g, r.1 <> Full.Yields g)
                \/ (self r.2 = self m2 /\ trace r.2 = trace m2
                    /\ forall g, r.1 = Full.Yields g ->
                         Full.encodable (script g) = true
                         /\ exists now1 now3,
                              script g = test_content (self m2) now1
                              /\ report_dict g = report (self m2) now3))) as Hfinish.
  { intros m2. destruct (finish_run_ends m2) as (He & Hs & Ht & Hg).
    split; [done|]. right. done. }
  destruct (Full.explore_screen 0 max_depth m1) as [[[]|ex|] m2]; cbn [fst snd] in *;
    [apply Hfinish| |done].
  destruct ex; cbn [fst snd]; try (split; [done|]; right; by repeat split).
  (* the interrupt is caught, and the notice printed *)
  destruct (world_only_checkpoint m2) as (Hc & Hsc & Htc).
  destruct (Full.checkpoint m2) as [[[]|ex|] m3]; cbn [fst snd] in *; [| |done].
  - destruct (Hfinish m3) as [Hx Hy]. cbn zeta in *. split; [done|].
    rewrite <- Hsc, <- Htc. exact Hy.
  - split; [done|]. right. by repeat split.
Qed.

End FullRun.

(** * The properties that take a cut run into account *)

(** ** Going back *)

(** C5, as stated, fails: not every run has a back-navigation for each
    successful activation. Here the operator interrupts after a successful
    tap, once the explorer has waited for the screen to settle: the
    exploration stops with a success in its history and no back-navigation,
    and the run goes on to generate its files. *)
Lemma back_for_every_success_refuted :
  ~ (forall (P : Python) (W : Type) (B : Backend W) (O : Full.Operator W)
            (json_dumps : json -> str) (max_depth : Z) (m : machine W),
        let t := trace (@Full.run_exploration P W B O json_dumps max_depth m).2 in
        length (backs t) = length (succeeded t)).
Proof.
  intros Hclaim.
  specialize (Hclaim Sim.decoder Sim.world Sim.backend (Full.interrupt_when 2) Sim.dumps 0
                (Sim.start [Sim.shows "{one_button}"] [])).
  vm_compute in Hclaim. discriminate.
Qed.

(** C5, amended: in every call of [explore_screen] that returns, the history
    is that of [call_trace]: a failed activation is followed by the next
    sibling, a successful one by the whole call one level down (by nothing at
    the maximum depth) and then by one back-navigation, before the next
    sibling; so the back-navigations are as many as the successful
    activations. A call that an exception or the operator's interrupt cuts
    short leaves the beginning of such a history: never a back-navigation
    without its successful activation or after a failed one, and the
    activations still open without theirs. No call runs out of the bound on
    nested calls. *)
Theorem back_follows_success `{Python} {W : Type} `{Backend W} `{Full.Operator W}
    (d k : Z) (m : machine W) :
  (Full.explore_screen d k m).1 <> Full.Exhausted
  /\ exists t,
       trace (Full.explore_screen d k m).2 = trace m ++ t
       /\ begins (call_trace k true d) t
       /\ (length (backs t) <= length (succeeded t))%nat
       /\ ((Full.explore_screen d k m).1 = Full.Yields () ->
           call_trace k true d t /\ length (backs t) = length (succeeded t)).
Proof.
  split; [apply explore_screen_ends_full|].
  destruct (explore_screen_history_full d k m) as (t & Ht & Hc & Hb & Hy).
  exists t. split; [done|]. split; [done|]. split; [done|].
  intros Hret. rewrite Hret in Hy. split; [done|].
  unfold call_trace in Hy. destruct (decide (k < d)).
  - by destruct Hy as [_ ->].
  - destruct Hy as (t' & -> & [Hloop | [? _]]); [|done].
    exact (loop_trace_paired _ _ _ Hloop).
Qed.

(** Two screens, the first with a button that cannot be tapped, explored one
    level deep by an operator who lets the call finish: the call returns, and
    its history pairs each successful activation with its back-navigation. *)
Lemma back_follows_success_witness :
  let m := Sim.start [Sim.shows "{three_buttons}"; Sim.shows "{one_button}"] [py "Shop"] in
  let r := @Full.explore_screen Sim.decoder _ Sim.backend Full.quiet 0 1 m in
  r.1 = Full.Yields ()
  /\ exists t, trace r.2 = trace m ++ t /\ call_trace 1 true 0 t
               /\ length (backs t) = length (succeeded t).
Proof.
  intros m r.
  assert (r.1 = Full.Yields ()) as Hret by (by vm_compute).
  destruct (@back_follows_success Sim.decoder _ Sim.backend Full.quiet 0 1 m)
    as (_ & t & Ht & _ & _ & Hy).
  split; [exact Hret|]. exists t. split; [exact Ht|]. exact (Hy Hret).
Defined.

(** The run of the counterexample: the interrupt arrives once the explorer
    has waited for the screen to settle, before the flow is recorded; the
    exploration is left, and the files are generated from the empty flow
    log. *)
Example interrupted_run_example :
  let run := @Full.run_exploration Sim.decoder _ Sim.backend (Full.interrupt_when 2)
               Sim.dumps 0 (Sim.start [Sim.shows "{one_button}"] []) in
  trace run.2 = [EvObserve 0; EvMark (py "text:Home"); EvTap (py "text:Home") true]
  /\ discovered_flows (self run.2) = []
  /\ exists g, run.1 = Full.Yields g
               /\ json_get "total_interactions" (report_dict g) = JInt 0.
Proof. vm_compute. repeat split. eexists. split; reflexivity. Qed.

(** ** Failed activations *)

Section Tried.
Context `{Python} {W : Type} `{Backend W} `{Full.Operator W}.
Context (json_dumps : json -> str).
Implicit Types m : machine W.

(** Every run of a fresh explorer ends unsettled at worst. *)
Lemma run_exploration_unsettled max_depth m :
  fresh m -> unsettled 0 (Full.run_exploration json_dumps max_depth m).2.
Proof.
  intros Hfresh%fresh_settled.
  destruct (run_exploration_cases json_dumps max_depth m)
    as (Hs1 & Ht1 & _ & [(Hs & Ht & _) | (Hs & Ht & _)]); cbn zeta in *.
  - by apply settled_unsettled, (settled_same 0 m).
  - assert (settled 0 (Full.begin_run m).2) as Hm1 by (by apply (settled_same 0 m)).
    pose proof (explore_screen_settled 0 max_depth 0 _ Hm1) as Hend.
    eapply unsettled_same; [exact Hs | exact Ht |].
    unfold ends_settled in Hend.
    destruct (Full.explore_screen 0 max_depth _).1; [by apply settled_unsettled | done..].
Qed.


Lemma lags_length {A : Type} (l1 l2 : list A) :
  lags l1 l2 -> (length l1 <= length l2 <= S (length l1))%nat.
Proof. intros [->|[x ->]]; rewrite ?length_app; cbn; lia. Qed.

End Tried.



(** ** The figures of the summary *)

(** X5: the figures a run prints at its end, which it does whether the
    exploration returned or the operator interrupted it. In every run of a
    fresh explorer, however it ends: the visited identities are as many as
    the activation attempts, or one more (the identity whose attempt was cut
    short); the flows are as many as the successful attempts, or one fewer
    (the success whose flow was cut short), and at most as many as the
    visited identities; and the back-navigations are at most as many as the
    flows. When the exploration returns, the three pairs of figures are
    equal. *)
Theorem run_summary_figures `{Python} {W : Type} `{Backend W} `{Full.Operator W}
    (json_dumps : json -> str) (max_depth : Z) (m : machine W) :
  fresh m ->
  let run := Full.run_exploration json_dumps max_depth m in
  let explored := Full.explore_screen 0 max_depth (Full.begin_run m).2 in
  let visited := size (visited_elements (self run.2)) in
  let flows := length (discovered_flows (self run.2)) in
  (length (tapped (trace run.2)) <= visited <= S (length (tapped (trace run.2))))%nat
  /\ (flows <= length (succeeded (trace run.2)) <= S flows)%nat
  /\ (flows <= visited)%nat
  /\ (length (backs (trace run.2)) <= flows)%nat
  /\ (explored.1 = Full.Yields () ->
      visited = length (tapped (trace run.2))
      /\ flows = length (succeeded (trace run.2))
      /\ length (backs (trace run.2)) = flows).
Proof.
  intros Hfresh run explored visited flows.
  destruct (run_exploration_unsettled json_dumps max_depth m Hfresh)
    as (U1 & U2 & U3 & U4 & U5 & U6 & U7).
  fold run in U1, U2, U3, U4, U7.
  assert (visited = length (marks (trace run.2))) as Hvisited.
  { subst visited. rewrite U4. by apply size_list_to_set. }
  apply lags_length in U1, U2. rewrite length_fmap in U1. fold flows in U1, U7.
  pose proof (sublist_length _ _ (succeeded_sublist (trace run.2))) as Hsub.
  split; [lia|]. split; [lia|]. split; [lia|]. split; [lia|].
  intros Hret.
  destruct (run_exploration_cases json_dumps max_depth m)
    as (Hs1 & Ht1 & _ & [(Hs & Ht & _) | (Hs & Ht & _)]); cbn zeta in *.
  - destruct Hfresh as (Hv & _ & Hf & Htr). subst visited flows.
    fold run in Hs, Ht. rewrite Hs, Ht, Hv, Hf, Htr. done.
  - assert (settled 0 (Full.begin_run m).2) as Hm1.
    { by apply (settled_same 0 m), fresh_settled. }
    pose proof (explore_screen_settled 0 max_depth 0 _ Hm1) as Hend.
    unfold ends_settled in Hend. fold explored in Hend, Hs, Ht. rewrite Hret in Hend.
    destruct Hend as ((I1 & I2 & I3 & I4) & _ & _ & Hn).
    fold run in Hs, Ht. rewrite Hvisited. subst flows. rewrite Hs, Ht, I2, <- I1, length_fmap.
    split; [done|]. split; [done|]. lia.
Qed.

(** A fresh explorer on the simulated device. With an operator who interrupts
    after the second settle wait the run ends with two successful attempts and one
    flow; with an operator who lets the exploration return the figures are
    equal. *)
Lemma run_summary_figures_witness :
  let m := Sim.start [Sim.shows "{three_buttons}"] [] in
  let cut := @Full.run_exploration Sim.decoder _ Sim.backend (Full.interrupt_when 6)
               Sim.dumps 0 m in
  let run := @Full.run_exploration Sim.decoder _ Sim.backend Full.quiet Sim.dumps 0 m in
  (length (discovered_flows (self cut.2)) = 1%nat
   /\ length (succeeded (trace cut.2)) = 2%nat
   /\ (length (backs (trace cut.2)) <= length (discovered_flows (self cut.2)))%nat)
  /\ (size (visited_elements (self run.2)) = length (tapped (trace run.2))
      /\ length (discovered_flows (self run.2)) = length (succeeded (trace run.2))
      /\ length (backs (trace run.2)) = length (discovered_flows (self run.2))).
Proof.
  intros m cut run.
  assert (fresh m) as Hfresh by (by vm_compute).
  split.
  - destruct (@run_summary_figures Sim.decoder _ Sim.backend (Full.interrupt_when 6)
                Sim.dumps 0 m Hfresh) as (_ & _ & _ & Hbacks & _).
    split; [by vm_compute|]. split; [by vm_compute|]. exact Hbacks.
  - destruct (@run_summary_figures Sim.decoder _ Sim.backend Full.quiet
                Sim.dumps 0 m Hfresh) as (_ & _ & _ & _ & Hreturned).
    apply Hreturned. by vm_compute.
Defined.

(** ** The plain description is the full one of the runs nothing cuts short *)

Section Plain.
Context `{Python} {W : Type} `{Backend W} `{Full.Operator W}.
Hypothesis Hquiet : never_interrupts.
Implicit Types m : machine W.

Lemma set_world_world m : set_world (world m) m = m.
Proof. by destruct m. Qed.

Lemma checkpoint_quiet m : Full.checkpoint m = (Full.Yields (), m).
Proof.
  unfold Full.checkpoint, mbind, Full.prog_bind, Full.ask_world.
  rewrite Hquiet. cbn. by rewrite set_world_world.
Qed.

Lemma get_hierarchy_plain m :
  Full.get_hierarchy m = (Full.Yields (get_hierarchy m).1, (get_hierarchy m).2).
Proof.
  unfold Full.get_hierarchy, get_hierarchy, mbind, Full.prog_bind.
  rewrite checkpoint_quiet. unfold Full.ask_world.
  by destruct (maestro_hierarchy (world m)).
Qed.

Lemma take_screenshot_plain name m :
  Full.take_screenshot name m
  = (Full.Yields (take_screenshot name m).1, (take_screenshot name m).2).
Proof.
  unfold Full.take_screenshot, take_screenshot, mbind, Full.prog_bind, Full.get_self.
  case_bool_decide; [|done]. rewrite checkpoint_quiet. unfold Full.ask_world.
  by destruct (adb_screencap _ (world m)).
Qed.

Lemma tap_element_plain e m : same_step (Full.tap_element e m) (tap_element e m).
Proof.
  unfold Full.tap_element, tap_element, same_step.
  destruct (tap_command e) as [cmd|]; [|done].
  unfold mbind, Full.prog_bind, Full.get_self, Full.ask_world.
  destruct (time_time (world m)) as [t w]. rewrite checkpoint_quiet.
  cbv beta iota. destruct (Full.encodable _); [|done].
  cbn [world set_world self]. by destruct (maestro_test _ _ w) as [[|rc out] w'].
Qed.

Lemma go_back_plain m : same_step (Full.go_back m) ((), go_back m).
Proof.
  unfold Full.go_back, go_back, same_step.
  unfold mbind, Full.prog_bind, Full.get_self, Full.ask_world.
  destruct (time_time (world m)) as [t w]. rewrite checkpoint_quiet.
  cbv beta iota. destruct (Full.encodable _); [|done].
  cbn [world set_world self]. destruct (maestro_test _ _ w) as [[|rc out] w']; [done|].
  by rewrite checkpoint_quiet.
Qed.

Lemma observe_plain depth m :
  Full.observe depth m = (Full.Yields (observe depth m).1, (observe depth m).2).
Proof. apply (get_hierarchy_plain (log (EvObserve depth) m)). Qed.

Lemma shoot_screen_plain depth m :
  Full.shoot_screen depth m
  = (Full.Yields (shoot_screen depth m).1, (shoot_screen depth m).2).
Proof.
  unfold Full.shoot_screen, shoot_screen, mbind, Full.prog_bind, Full.ask_world.
  destruct (time_time (world m)) as [t w]. by rewrite take_screenshot_plain.
Qed.

Lemma store_screen_plain depth name clickable m :
  Full.store_screen depth name clickable m
  = (Full.Yields (), store_screen depth name clickable m).
Proof.
  unfold Full.store_screen, store_screen, mbind, Full.prog_bind, Full.ask_world.
  by destruct (datetime_now (world m)).
Qed.

Lemma attempt_plain e m : same_step (Full.attempt e m) (attempt e m).
Proof.
  unfold Full.attempt, attempt, mbind, Full.prog_bind, Full.update. cbn.
  rewrite checkpoint_quiet.
  pose proof (tap_element_plain e (visited_add (identifier e) m)) as Htap.
  unfold same_step in *.
  destruct (Full.tap_element e _) as [[b|ex|] m1]; [|done..]. by rewrite Htap.
Qed.

Lemma record_flow_plain depth name e m :
  Full.record_flow depth name e m = (Full.Yields (), record_flow depth name e m).
Proof.
  unfold Full.record_flow, record_flow, mbind, Full.prog_bind.
  rewrite checkpoint_quiet. unfold Full.ask_world. cbn.
  destruct (time_time _) as [t w]. by rewrite take_screenshot_plain.
Qed.

Lemma back_up_plain m : same_step (Full.back_up m) ((), back_up m).
Proof.
  unfold Full.back_up, back_up, mbind, Full.prog_bind.
  rewrite checkpoint_quiet. cbn.
  pose proof (go_back_plain (log EvBack m)) as Hback. unfold same_step in *.
  destruct (Full.go_back _) as [[[]|ex|] m1]; [|done..].
  injection Hback as <-. by rewrite checkpoint_quiet.
Qed.

(** The parser raises nothing but [AttributeError] and [TypeError]. *)
Lemma visit_node_raises visited node path e :
  visit_node visited node path = Raise e -> e = AttributeError.
Proof.
  unfold visit_node.
  destruct (dict_get (py "attributes") (JDict []) node) as [| | | | | |attrs];
    try (by intros [= <-]).
  destruct (eq_str _ _); [|done]. unfold _create_identifier. cbn.
  destruct (dict_get (py "text") _ attrs); cbn; try (by intros [= <-]).
  destruct (dict_get (py "accessibilityText") _ attrs); cbn; try (by intros [= <-]).
  destruct (dict_get (py "resource-id") _ attrs); cbn; try (by intros [= <-]).
  repeat (case_bool_decide; cbn); done.
Qed.

Lemma for_each_raises visited (pf : nat -> str) cs :
  Forall (fun c => forall path e, traverse visited c path = Raise e ->
                                  e = AttributeError \/ e = TypeError) cs ->
  forall i e, for_each (fun c i => traverse visited c (pf i)) cs i = Raise e ->
              e = AttributeError \/ e = TypeError.
Proof.
  induction 1 as [|c cs Hc _ IH]; intros i e; cbn; [done|].
  destruct (traverse visited c (pf i)) as [a|ex] eqn:Ea; cbn.
  - destruct (for_each _ cs (S i)) as [b|ex] eqn:Eb; cbn; [done|].
    intros [= ->]. by eapply IH.
  - intros [= ->]. by eapply Hc.
Qed.

Lemma traverse_raises_items visited snapshot :
  (forall path e, traverse visited snapshot path = Raise e ->
                  e = AttributeError \/ e = TypeError)
  /\ (forall cs, snapshot = JList cs ->
       Forall (fun c => forall path e, traverse visited c path = Raise e ->
                                       e = AttributeError \/ e = TypeError) cs).
Proof.
  induction snapshot as [|b|z|f|s|items IH|items IH] using json_ind;
    (split; [intros path e|intros cs; try done]); try done.
  - cbn. apply for_each_raises. eapply Forall_impl; [exact IH|]. by intros c [Hc _].
  - intros [= <-]. eapply Forall_impl; [exact IH|]. by intros c [Hc _].
  - cbn [traverse].
    destruct (visit_node visited items path) as [here|ex] eqn:Eh; cbn.
    2:{ intros [= <-]. left. by eapply visit_node_raises. }
    match goal with |- context [dict_case ?k ?a ?f items] =>
      destruct (dict_case k a f items) as [rest|ex] eqn:Er end; cbn; [done|].
    intros [= <-]. clear Eh here. revert Er.
    induction IH as [|[key v] items Hv _ IHitems]; cbn; [done|].
    case_bool_decide; [|by apply IHitems].
    destruct Hv as [_ Hv]. cbn in Hv.
    destruct v as [| | | | |cs|]; try done; try (intros [= <-]; by right).
    apply for_each_raises. by apply Hv.
Qed.

Lemma find_clickable_elements_raises visited hierarchy e :
  find_clickable_elements visited hierarchy = Raise e ->
  e = AttributeError \/ e = TypeError.
Proof.
  unfold find_clickable_elements. destruct (negb (truthy hierarchy)); [done|].
  apply traverse_raises_items.
Qed.

Lemma element_loop_plain (descend : Full.prog W ()) descend' depth max_depth name :
  (depth < max_depth -> forall m, same_call (descend m) (descend' m)) ->
  forall clickable m,
    same_call (Full.element_loop descend depth max_depth name clickable m)
              (element_loop descend' depth max_depth name clickable m).
Proof.
  intros Hd. induction clickable as [|e els IH]; intros m; [done|].
  cbn [Full.element_loop element_loop]. unfold mbind, Full.prog_bind, Full.get_self.
  case_bool_decide; [apply IH|]. rewrite checkpoint_quiet.
  pose proof (attempt_plain e m) as Ha. unfold same_step in Ha.
  destruct (Full.attempt e m) as [[success|ex|] m1]; [|by left|done].
  rewrite Ha. destruct success; [|apply IH].
  rewrite record_flow_plain.
  assert (same_call ((if depth <? max_depth then descend else mret ())
                       (record_flow depth name e m1))
            (if depth <? max_depth then descend' (record_flow depth name e m1)
             else (Returned, record_flow depth name e m1))) as Hsub.
  { destruct (Z.ltb_spec depth max_depth); [by apply Hd | done]. }
  unfold same_call in Hsub.
  destruct ((if depth <? max_depth then descend else mret ()) _) as [[[]|ex|] m3].
  - rewrite Hsub.
    pose proof (back_up_plain m3) as Hb. unfold same_step in Hb.
    destruct (Full.back_up m3) as [[[]|ex|] m4]; [|by left|done].
    injection Hb as ->. apply IH.
  - destruct Hsub as [->|[Hp ->]]; [by left | by right].
  - by rewrite Hsub.
Qed.

Lemma explore_fuel_plain fuel :
  forall depth max_depth m,
    same_call (Full.explore_fuel fuel depth max_depth m)
              (explore_fuel fuel depth max_depth m).
Proof.
  induction fuel as [|fuel IH]; intros depth max_depth m; [done|].
  cbn [Full.explore_fuel explore_fuel]. destruct (max_depth <? depth); [done|].
  unfold mbind, Full.prog_bind, Full.get_self.
  rewrite checkpoint_quiet, observe_plain.
  destruct (observe depth m) as [hierarchy m1]. cbn [fst snd].
  destruct (truthy hierarchy); cbn [negb]; [|by rewrite checkpoint_quiet].
  rewrite shoot_screen_plain.
  destruct (shoot_screen depth m1) as [name m2]. cbn [fst snd].
  destruct (find_clickable_elements _ hierarchy) as [clickable|ex] eqn:Ep; cbn.
  2:{ right. split; [by eapply find_clickable_elements_raises | done]. }
  rewrite checkpoint_quiet, store_screen_plain.
  apply element_loop_plain. intros _. apply IH.
Qed.

Context (json_dumps : json -> str).

Lemma generate_test_files_plain m :
  same_step (Full.generate_test_files json_dumps m) (generate_test_files json_dumps m).
Proof.
  unfold Full.generate_test_files, generate_test_files, same_step.
  unfold mbind, Full.prog_bind, Full.get_self, Full.ask_world, Full.open_write.
  rewrite checkpoint_quiet. cbv beta iota.
  destruct (datetime_now (world m)) as [now1 w1]. cbn [world set_world self].
  destruct (datetime_now w1) as [now2 w2]. cbn [world set_world self].
  unfold mbind, Full.prog_bind. rewrite checkpoint_quiet. cbv beta iota.
  destruct (Full.encodable _); [|done].
  unfold Full.tell_world at 1. cbv beta iota. rewrite checkpoint_quiet. cbv beta iota.
  cbn [world set_world self].
  destruct (datetime_now _) as [now3 w3]. cbn [world set_world self].
  destruct (datetime_now w3) as [now4 w4]. cbn [world set_world self].
  rewrite checkpoint_quiet. cbv beta iota.
  unfold Full.tell_world. cbv beta iota. rewrite checkpoint_quiet. done.
Qed.

Lemma run_exploration_plain max_depth m :
  match Full.run_exploration json_dumps max_depth m with
  | (Full.Yields g, m') => run_exploration json_dumps max_depth m = (Returned, Some g, m')
  | (Full.Raises e, m') =>
      e = UnicodeEncodeError \/ run_exploration json_dumps max_depth m = (Raised e, None, m')
  | (Full.Exhausted, _) => False
  end.
Proof.
  unfold Full.run_exploration, run_exploration, Full.begin_run, Full.finish_run.
  unfold mbind, Full.prog_bind, Full.ask_world, Full.except_KeyboardInterrupt.
  rewrite checkpoint_quiet. cbv beta iota.
  destruct (time_time (world m)) as [start w].
  pose proof (explore_fuel_plain (S (Z.to_nat (max_depth - 0))) 0 max_depth (set_world w m))
    as Hcall.
  pose proof (explore_screen_ends_full 0 max_depth (set_world w m)) as Hends.
  unfold Full.explore_screen, explore_screen in *. unfold same_call in Hcall.
  destruct (Full.explore_fuel _ 0 max_depth (set_world w m)) as [[[]|ex|] m1];
    cbn [fst] in Hends; [| |done].
  - rewrite Hcall. destruct (time_time (world m1)) as [t' w']. cbv beta iota.
    rewrite checkpoint_quiet. cbv beta iota.
    pose proof (generate_test_files_plain (set_world w' m1)) as Hgen.
    unfold same_step in Hgen.
    destruct (Full.generate_test_files json_dumps (set_world w' m1)) as [[g|ex|] m2];
      [|by left|done].
    by rewrite Hgen.
  - destruct Hcall as [->|[[->| ->] ->]]; [by left | by right..].
Qed.

End Plain.

(** X16: the plain description of the explorer is the full one of the runs
    that nothing cuts short. With an operator who never interrupts, a call
    of [explore_screen] that returns in the full description returns in the
    plain one, in the same state of the explorer and of the world; one that
    raises raises [UnicodeEncodeError], for a text that cannot be encoded,
    or an exception of the parser, which the plain description raises in
    the same state; and a run that returns with its files returns with the
    same files in the plain description. *)
Theorem plain_run_is_uncut_run `{Python} {W : Type} `{Backend W} `{Full.Operator W}
    (json_dumps : json -> str) (d k : Z) (m : machine W) :
  never_interrupts ->
  same_call (Full.explore_screen d k m) (explore_screen d k m)
  /\ match Full.run_exploration json_dumps k m with
     | (Full.Yields g, m') => run_exploration json_dumps k m = (Returned, Some g, m')
     | (Full.Raises e, m') =>
         e = UnicodeEncodeError \/ run_exploration json_dumps k m = (Raised e, None, m')
     | (Full.Exhausted, _) => False
     end.
Proof.
  intros Hquiet. split; [by apply explore_fuel_plain | by apply run_exploration_plain].
Qed.

Lemma plain_run_is_uncut_run_witness :
  let m := Sim.start [Sim.shows "{three_buttons}"; Sim.shows "{one_button}"] [py "Shop"] in
  same_call (@Full.explore_screen Sim.decoder _ Sim.backend Full.quiet 0 1 m)
            (@explore_screen Sim.decoder _ Sim.backend 0 1 m).
Proof.
  intros m.
  assert (@never_interrupts Sim.world Full.quiet) as Hquiet by (intros w; reflexivity).
  destruct (@plain_run_is_uncut_run Sim.decoder Sim.world Sim.backend Full.quiet Sim.dumps
              0 1 m Hquiet) as [Hcall _].
  exact Hcall.
Defined.
